(** * secret: a command line front end for Shamir's secret sharing

    Shallow embedding of [secret.go] (package [main]) together with the parts
    of the Go runtime its two commands rest on, and the properties of the
    natural-language specification checked against it.

    Layout: the Go library functions the program calls come first, one
    module per Go package ([strings], [bufio], [strconv], [big], [math],
    [rand], [flag]); then the interface of the sharing engine
    ([github.com/posener/sharedsecret]); then [cmdGenerate], [cmdRecover],
    [die] and [main]; then a reference instance of the engine and the two
    earlier revisions of the program the repository keeps; and last the
    theorems: the properties of the specification first, further properties
    of the code after them. *)

From Stdlib Require Import ZArith List String Ascii Bool Lia Permutation Znumtheory Finite.
From stdpp Require Import base list strings.
Import ListNotations.

Local Open Scope string_scope.
Local Open Scope list_scope.
Local Open Scope Z_scope.

(** ** Go strings

    A Go [string] is a sequence of bytes; it is modelled by [string], whose
    characters are the 256 values of [ascii]. *)

Definition chars (s : string) : list ascii := list_ascii_of_string s.
Definition text (l : list ascii) : string := string_of_list_ascii l.
Definition byte_of (c : ascii) : Z := Z.of_N (N_of_ascii c).

(** [fmt.Fprintln(w, a)] for one operand: the operand and a newline. *)
Definition newline : string := String "010"%char "".
Definition println (s : string) : string := s +:+ newline.

Module strings.

(** The six ASCII characters of Go's [asciiSpace] table. *)
Definition asciiSpace (c : ascii) : bool :=
  let b := byte_of c in
  (b =? 9) || (b =? 10) || (b =? 11) || (b =? 12) || (b =? 13) || (b =? 32).

(** Third byte of the three-byte white-space runes that start with
    [E2 80]: U+2000..U+200A, U+2028, U+2029 and U+202F. *)
Definition spaceE280 (b : Z) : bool :=
  ((128 <=? b) && (b <=? 138)) || (b =? 168) || (b =? 169) || (b =? 175).

(** [TrimLeftFunc(s, unicode.IsSpace)]: drops the leading runes that are
    white space.  The white-space runes are the ASCII ones, U+0085,
    U+00A0, U+1680, U+2000..U+200A, U+2028, U+2029, U+202F, U+205F and
    U+3000; a rune is recognised by its (unique, valid) UTF-8 encoding. *)
Fixpoint trimLeft (s : list ascii) : list ascii :=
  match s with
  | [] => []
  | c :: r =>
    if asciiSpace c then trimLeft r
    else
      match r with
      | [] => s
      | c1 :: r1 =>
        let b := byte_of c in
        let b1 := byte_of c1 in
        if (b =? 194) && ((b1 =? 133) || (b1 =? 160)) then trimLeft r1
        else
          match r1 with
          | [] => s
          | c2 :: r2 =>
            let b2 := byte_of c2 in
            if ((b =? 225) && (b1 =? 154) && (b2 =? 128))
               || ((b =? 226) && (b1 =? 128) && spaceE280 b2)
               || ((b =? 226) && (b1 =? 129) && (b2 =? 159))
               || ((b =? 227) && (b1 =? 128) && (b2 =? 128))
            then trimLeft r2
            else s
          end
      end
  end.

(** [TrimRightFunc(s, unicode.IsSpace)] on the reversed byte sequence:
    [DecodeLastRuneInString] steps back to the nearest start byte, so a
    trailing white-space rune is recognised by its encoding read
    backwards. *)
Fixpoint trimLeftRev (s : list ascii) : list ascii :=
  match s with
  | [] => []
  | c :: r =>
    if asciiSpace c then trimLeftRev r
    else
      match r with
      | [] => s
      | c1 :: r1 =>
        let b := byte_of c in
        let b1 := byte_of c1 in
        if (b1 =? 194) && ((b =? 133) || (b =? 160)) then trimLeftRev r1
        else
          match r1 with
          | [] => s
          | c2 :: r2 =>
            let b2 := byte_of c2 in
            if ((b2 =? 225) && (b1 =? 154) && (b =? 128))
               || ((b2 =? 226) && (b1 =? 128) && spaceE280 b)
               || ((b2 =? 226) && (b1 =? 129) && (b =? 159))
               || ((b2 =? 227) && (b1 =? 128) && (b =? 128))
            then trimLeftRev r2
            else s
          end
      end
  end.

Definition trimRight (s : list ascii) : list ascii := rev (trimLeftRev (rev s)).

(** [strings.TrimSpace]: leading and trailing white space removed.  The
    ASCII fast path of the Go function agrees with the general one, which
    is [TrimRightFunc(TrimLeftFunc(s, IsSpace), IsSpace)]. *)
Definition TrimSpace (s : string) : string := text (trimRight (trimLeft (chars s))).

(** [strings.HasPrefix(s, prefix)]. *)
Definition HasPrefix (s pre : string) : bool := String.prefix pre s.

(** [strings.Split(s, sep)] for a one-byte separator: the pieces between
    the separators, one more than there are separators. *)
Fixpoint splitAcc (sep : ascii) (acc : list ascii) (s : list ascii) : list string :=
  match s with
  | [] => [text (rev acc)]
  | c :: r =>
    if Ascii.eqb c sep then text (rev acc) :: splitAcc sep [] r
    else splitAcc sep (c :: acc) r
  end.

Definition Split (s : string) (sep : ascii) : list string := splitAcc sep [] (chars s).

End strings.

Module bufio.

(** [dropCR]: a token loses one trailing carriage return. *)
Definition dropCR (rline : list ascii) : list ascii :=
  match rline with
  | c :: r => if Ascii.eqb c "013"%char then r else rline
  | [] => []
  end.

(** [bufio.MaxScanTokenSize], the size the scanner's buffer grows to. *)
Definition MaxScanTokenSize : Z := 64 * 1024.

(** The tokens a [bufio.Scanner] with the default split function
    [ScanLines] yields over the given input: the text between newlines,
    each without its trailing carriage return; a last line that has no
    newline is a token when it is not empty.  [acc] is the current line,
    reversed, and [room] the bytes the buffer can still take before the
    newline: when a line fills the buffer, [Scan] fails with [ErrTooLong]
    and yields nothing more. *)
Fixpoint scanAcc (room : Z) (acc : list ascii) (s : list ascii) : list string :=
  match s with
  | [] => match acc with [] => [] | _ => [text (rev (dropCR acc))] end
  | c :: r =>
    if Ascii.eqb c "010"%char
    then text (rev (dropCR acc)) :: scanAcc (MaxScanTokenSize - 1) [] r
    else if room <=? 0 then []
    else scanAcc (room - 1) (c :: acc) r
  end.

Definition Scan (input : string) : list string :=
  scanAcc (MaxScanTokenSize - 1) [] (chars input).

(** The lines of the input as [ScanLines] cuts them, whatever their
    length: the bytes between newlines, and those after the last newline
    when there are any. *)
Fixpoint linesAcc (acc : list ascii) (s : list ascii) : list (list ascii) :=
  match s with
  | [] => match acc with [] => [] | _ => [rev acc] end
  | c :: r =>
    if Ascii.eqb c "010"%char then rev acc :: linesAcc [] r
    else linesAcc (c :: acc) r
  end.

Definition lines (input : string) : list (list ascii) := linesAcc [] (chars input).

(** The token of a line: the line without its trailing carriage return. *)
Definition token (line : list ascii) : string := text (rev (dropCR (rev line))).

End bufio.

Module big.

(** The digit alphabet of [math/big]: digits, lower case, upper case. *)
Definition digits : list ascii :=
  chars "0123456789abcdefghijklmnopqrstuvwxyzABCDEFGHIJKLMNOPQRSTUVWXYZ".

Definition digit (d : Z) : ascii := nth (Z.to_nat d) digits "0"%char.

(** The digits of a natural number, most significant first, in front of
    [acc].  One digit is produced per unit of [fuel]. *)
Fixpoint natText (fuel : nat) (base x : Z) (acc : list ascii) : list ascii :=
  match fuel with
  | O => acc
  | S f =>
    let acc' := digit (x mod base) :: acc in
    if x / base =? 0 then acc' else natText f base (x / base) acc'
  end.

(** A number below [2 ^ (1 + log2 x)] has at most [1 + log2 x] digits in
    any base from 2 on. *)
Definition fuelFor (x : Z) : nat := S (Z.to_nat (Z.log2 x)).

(** The method [Text(base)] of [big.Int] for [2 <= base <= 62], on a
    non-nil receiver. *)
Definition Text (x : Z) (base : Z) : string :=
  let a := Z.abs x in
  (if x <? 0 then "-" else "") +:+ text (natText (fuelFor a) base a []).

End big.

Module strconv.

(** [strconv.Itoa], also the verb [%d] of [fmt]. *)
Definition Itoa (x : Z) : string := big.Text x 10.

Definition digitVal (c : ascii) : option Z :=
  let b := byte_of c in
  if (48 <=? b) && (b <=? 57) then Some (b - 48) else None.

(** Value of a non-empty sequence of decimal digits. *)
Fixpoint decimalAcc (acc : Z) (s : list ascii) : option Z :=
  match s with
  | [] => Some acc
  | c :: r =>
    match digitVal c with
    | Some d => decimalAcc (acc * 10 + d) r
    | None => None
    end
  end.

Definition decimal (s : list ascii) : option Z :=
  match s with
  | [] => None
  | _ => decimalAcc 0 s
  end.

(** An optional sign and decimal digits. *)
Definition signedDecimal (s : list ascii) : option Z :=
  match s with
  | c :: r =>
    if Ascii.eqb c "-"%char then option_map Z.opp (decimal r)
    else if Ascii.eqb c "+"%char then decimal r
    else decimal s
  | [] => None
  end.

(** Printable ASCII other than the quote and the backslash: the bytes
    [strconv.Quote] copies unchanged. *)
Definition plain (c : ascii) : bool :=
  let b := byte_of c in
  (32 <=? b) && (b <=? 126) && negb (b =? 34) && negb (b =? 92).

Definition dquote : string := String "034"%char "".

Section Quote.
(** [quoteOther] stands for [strconv.Quote] on the strings that hold a
    byte outside [plain]; its result depends on the escape rules and on
    the tables of [unicode.IsPrint], which are left open. *)
Variable quoteOther : string -> string.

(** [strconv.Quote], the verb [%q] of [fmt] on a string. *)
Definition Quote (s : string) : string :=
  if forallb plain (chars s) then dquote +:+ s +:+ dquote else quoteOther s.
End Quote.

(** The syntax that [strconv.ParseInt(s, 0, 64)] reads as a plain decimal
    numeral: an optional sign and digits with no leading zero (a leading
    zero starts an octal, binary or hexadecimal numeral). *)
Definition plainDecimal (s : list ascii) : bool :=
  let body := match s with
              | c :: r => if Ascii.eqb c "-"%char || Ascii.eqb c "+"%char then r else s
              | [] => []
              end in
  match body with
  | [] => false
  | c :: r =>
    forallb (fun d => match digitVal d with Some _ => true | None => false end) body
    && (negb (Ascii.eqb c "0"%char) || match r with [] => true | _ => false end)
  end.

Section ParseInt.
(** [parseOther] stands for [strconv.ParseInt(s, 0, 64)] on the other
    inputs (numerals with a base prefix or underscores, and malformed
    ones). *)
Variable parseOther : string -> string + Z.

(** [strconv.ParseInt(s, 0, 64)] as [flag] reports it: the value, or
    the text of the error ([flag] keeps only its cause). *)
Definition ParseInt (s : string) : string + Z :=
  if plainDecimal (chars s) then
    match signedDecimal (chars s) with
    | Some x =>
      if (- 2 ^ 63 <=? x) && (x <? 2 ^ 63) then inr x
      else inl "value out of range"
    | None => inl "parse error"
    end
  else parseOther s.
End ParseInt.

(** [strconv.ParseBool]. *)
Definition ParseBool (s : string) : option bool :=
  if existsb (String.eqb s) ["1"; "t"; "T"; "TRUE"; "true"; "True"] then Some true
  else if existsb (String.eqb s) ["0"; "f"; "F"; "FALSE"; "false"; "False"] then Some false
  else None.

End strconv.

Module math.

(** A [float64] that holds an integer, by its value.  Every [float64] of
    magnitude [2^52] or more is an integer, and so is every integer of
    magnitude up to [2^53]. *)
Definition float64 := Z.

(** Rounding of a natural number to 53 significant bits, ties to even:
    the IEEE 754 rounding of Go's conversions and arithmetic. *)
Definition round53 (v : Z) : Z :=
  let e := Z.log2 v - 52 in
  if e <=? 0 then v
  else
    let q := v / 2 ^ e in
    let r := v mod 2 ^ e in
    let h := 2 ^ (e - 1) in
    if r <? h then q * 2 ^ e
    else if h <? r then (q + 1) * 2 ^ e
    else if Z.even q then q * 2 ^ e
    else (q + 1) * 2 ^ e.

Definition round (v : Z) : float64 := Z.sgn v * round53 (Z.abs v).

(** The conversion [float64(n)] of an integer. *)
Definition float64_of_int (n : Z) : float64 := round n.

(** [math.Pow(x, 2)]: Go squares the mantissa of [x] in one floating
    point multiplication, so the result is the rounded square. *)
Definition Pow_2 (x : float64) : float64 := round (x * x).

(** The conversion [int64(f)].  Go leaves the result open when [f] is out
    of range; the value here is the one of the amd64 instruction
    [CVTTSD2SQ], the smallest [int64]. *)
Definition int64_of_float (f : float64) : Z :=
  if (- 2 ^ 63 <=? f) && (f <? 2 ^ 63) then f else - 2 ^ 63.

End math.

Module rand.

(** The assignment [s[i], s[j] = s[j], s[i]] on a slice.  Both indices are
    in range whenever [Shuffle] calls it. *)
Definition swap {A} (i j : nat) (s : list A) : list A :=
  match s !! i, s !! j with
  | Some a, Some b => <[i := b]> (<[j := a]> s)
  | _, _ => s
  end.

Section Shuffle.
Context {A : Type}.
(** [draw i] is the random number [Shuffle] draws at index [i]; Go
    reduces it to the range [0, i].  The generator is seeded with the
    clock, so nothing is known about [draw]: the properties of the program
    are stated for every [draw], and none says which sequences of draws
    the generator can produce. *)
Variable draw : nat -> nat.

(** The loop [for ; i > 0; i-- { j := int(r.int31n(int32(i + 1))); swap(i, j) }]. *)
Fixpoint shuffleFrom (i : nat) (s : list A) : list A :=
  match i with
  | O => s
  | S i' => shuffleFrom i' (swap i (draw i mod (i + 1))%nat s)
  end.

(** [rand.Shuffle(len(s), func(i, j int) { s[i], s[j] = s[j], s[i] })]:
    the Fisher-Yates shuffle, from the last index down. *)
Definition Shuffle (s : list A) : list A := shuffleFrom (length s - 1) s.
End Shuffle.

End rand.

(** ** What the embedding leaves open in the Go runtime *)

Class Tables := {
  (** [strconv.Quote] on strings that hold a byte outside printable ASCII. *)
  quoteOther : string -> string;
  (** [strconv.ParseInt(s, 0, 64)] on numerals that are not plain decimal. *)
  parseOther : string -> string + Z;
}.

Module flag.

(** The four flags [main] declares, with their default values. *)
Record Flags := {
  doRecover : bool;
  minShares : Z;
  numShares : Z;
  secrets : string;
}.

Definition defaults : Flags :=
  {| doRecover := false; minShares := 3; numShares := 5; secrets := "-" |}.

Definition setRecover (f : Flags) (b : bool) : Flags :=
  {| doRecover := b; minShares := minShares f; numShares := numShares f; secrets := secrets f |}.
Definition setK (f : Flags) (x : Z) : Flags :=
  {| doRecover := doRecover f; minShares := x; numShares := numShares f; secrets := secrets f |}.
Definition setN (f : Flags) (x : Z) : Flags :=
  {| doRecover := doRecover f; minShares := minShares f; numShares := x; secrets := secrets f |}.
Definition setSecrets (f : Flags) (v : string) : Flags :=
  {| doRecover := doRecover f; minShares := minShares f; numShares := numShares f; secrets := v |}.

(** [flag.PrintDefaults()] for these flags, which it lists by name. *)
Definition PrintDefaults : string :=
  "  -k int" +:+ newline +:+
  "    " +:+ String "009"%char "Minimum number of shares required. Must be <= n. (default 3)" +:+ newline +:+
  "  -n int" +:+ newline +:+
  "    " +:+ String "009"%char "How many shares to generate (default 5)" +:+ newline +:+
  "  -recover" +:+ newline +:+
  "    " +:+ String "009"%char "Recover shares instead of generating" +:+ newline +:+
  "  -secrets string" +:+ newline +:+
  "    " +:+ String "009"%char "File to read secrets from. Use - to read from stdin. (default "
    +:+ strconv.dquote +:+ "-" +:+ strconv.dquote +:+ ")" +:+ newline.

(** [flag.Usage()]: the heading with [os.Args[0]] and the defaults. *)
Definition Usage (prog : string) : string :=
  "Usage of " +:+ prog +:+ ":" +:+ newline +:+ PrintDefaults.

(** How [flag.Parse] ends: all flags read, help asked for, or a failure
    with its message. *)
Inductive Parsed :=
| Ok (f : Flags)
| ErrHelp
| Failed (msg : string).

(** [name] and [value] of an argument once its dashes are removed: the
    text before and after the first [=] that is not the first byte. *)
Fixpoint cutAcc (acc : list ascii) (s : list ascii) : string * option string :=
  match s with
  | [] => (text (rev acc), None)
  | c :: r =>
    if Ascii.eqb c "="%char then (text (rev acc), Some (text r))
    else cutAcc (c :: acc) r
  end.

Definition cut (name : list ascii) : string * option string :=
  match name with
  | c :: r => cutAcc [c] r
  | [] => ("", None)
  end.

Section Parse.
Context `{Tables}.

Definition setInt (name value : string) (set : Z -> Flags) : Flags + string :=
  match strconv.ParseInt parseOther value with
  | inr x => inl (set x)
  | inl e =>
    inr ("invalid value " +:+ strconv.Quote quoteOther value
         +:+ " for flag -" +:+ name +:+ ": " +:+ e)
  end.

(** [FlagSet.Parse] over the arguments after the program name: the
    loop of [parseOne]. *)
Fixpoint Parse (args : list string) (f : Flags) : Parsed :=
  match args with
  | [] => Ok f
  | s :: rest =>
    match chars s with
    | d :: c1 :: r1 =>
      if negb (Ascii.eqb d "-"%char) then Ok f
      else if Ascii.eqb c1 "-"%char && match r1 with [] => true | _ => false end then Ok f
      else
        let name := if Ascii.eqb c1 "-"%char then r1 else c1 :: r1 in
        match name with
        | [] => Failed ("bad flag syntax: " +:+ s)
        | n0 :: _ =>
          if Ascii.eqb n0 "-"%char || Ascii.eqb n0 "="%char
          then Failed ("bad flag syntax: " +:+ s)
          else
            let '(name, value) := cut name in
            if String.eqb name "recover" then
              match value with
              | None => Parse rest (setRecover f true)
              | Some v =>
                match strconv.ParseBool v with
                | Some b => Parse rest (setRecover f b)
                | None =>
                  Failed ("invalid boolean value " +:+ strconv.Quote quoteOther v
                          +:+ " for -" +:+ name +:+ ": parse error")
                end
              end
            else if String.eqb name "k" || String.eqb name "n" || String.eqb name "secrets" then
              let set (v : string) : Flags + string :=
                if String.eqb name "k" then setInt name v (setK f)
                else if String.eqb name "n" then setInt name v (setN f)
                else inl (setSecrets f v) in
              match value, rest with
              | Some v, _ =>
                match set v with inl f' => Parse rest f' | inr e => Failed e end
              | None, v :: rest' =>
                match set v with inl f' => Parse rest' f' | inr e => Failed e end
              | None, [] => Failed ("flag needs an argument: -" +:+ name)
              end
            else if String.eqb name "help" || String.eqb name "h" then ErrHelp
            else Failed ("flag provided but not defined: -" +:+ name)
        end
    | _ => Ok f
    end
  end.
End Parse.

End flag.

(** ** The sharing engine

    The program imports [github.com/posener/sharedsecret] and uses two
    functions and two methods of it.  [Coins] is the randomness [New] reads
    from [crypto/rand].  [Share_X] is the evaluation point of a share, the
    number in front of the comma of its text; the program itself never
    reads it. *)

Class Engine := {
  Share : Type;
  Coins : Type;
  (** [sharedsecret.New(n, k)]: [n] shares and the secret. *)
  New : Z -> Z -> Coins -> list Share * Z;
  (** [sharedsecret.Recover(shares...)]. *)
  Recover : list Share -> Z;
  (** [Share.String()], which [fmt.Fprintln] prints. *)
  Share_String : Share -> string;
  (** The method [UnmarshalText] on a zero [Share]: the share read, or
      the text of the error. *)
  Share_UnmarshalText : string -> string + Share;
  Share_X : Share -> Z;
}.

(** ** The program *)

Definition minShares : Z := 10000.

(** What a call leaves behind: the error it returns and what it wrote to
    its output and diagnostic writers; or a run-time panic. *)
Record Result := {
  err : option string;
  out : string;
  diag : string;
}.

Inductive Outcome :=
| Returned (r : Result)
| Panicked.

(** The slice expression [s[:n]]: it panics when [n] exceeds the capacity,
    which for the slice [New] returns is its length. *)
Definition sliceTo {A} (s : list A) (n : Z) : option (list A) :=
  if (0 <=? n) && (n <=? Z.of_nat (length s)) then Some (take (Z.to_nat n) s) else None.

Section Program.
Context `{Tables} `{Engine}.

(** The number of shares [cmdGenerate] asks the engine for. *)
Definition genSecrets (n : Z) : Z :=
  let genSecrets := math.int64_of_float (math.Pow_2 (math.float64_of_int n)) in
  if genSecrets <? minShares then minShares else genSecrets.

(** The shares [cmdGenerate] prints: the engine's pool, shuffled, cut to
    the first [n]. *)
Definition distributed (n k : Z) (coins : Coins) (draw : nat -> nat) : option (list Share) :=
  let '(shares, _) := New (genSecrets n) k coins in
  sliceTo (rand.Shuffle draw shares) n.

(** What the printing statements at the end of [cmdGenerate] write: the
    secret, the heading with [k], and one line per share. *)
Definition printed (k secret : Z) (shares : list Share) : string :=
  println ("secret: " +:+ big.Text secret 62)
  +:+ "shares (need at least " +:+ strconv.Itoa k +:+ " of these for recovery):" +:+ newline
  +:+ String.concat "" (map (fun share => println (Share_String share)) shares).

Definition cmdGenerate (n k : Z) (coins : Coins) (draw : nat -> nat) : Outcome :=
  if k >? n then
    Returned {| err := Some "There will not be enough shares to recover the secret.";
                out := ""; diag := "" |}
  else if (n <? 1) || (k <? 1) then
    Returned {| err := Some "Number of shares must be larger than 1.";
                out := ""; diag := "" |}
  else
    let genSecrets := math.int64_of_float (math.Pow_2 (math.float64_of_int n)) in
    let genSecrets := if genSecrets <? minShares then minShares else genSecrets in
    let '(shares, secret) := New genSecrets k coins in
    let shares := rand.Shuffle draw shares in
    match sliceTo shares n with
    | None => Panicked
    | Some shares => Returned {| err := None; out := printed k secret shares; diag := "" |}
    end.

(** The test at the head of the loop of [cmdRecover]: lines that are
    skipped without a word. *)
Definition decoration (t : string) : bool :=
  String.eqb t "" || strings.HasPrefix t "secret: " || strings.HasPrefix t "shares".

(** One turn of the loop of [cmdRecover] over the line the scanner
    yields; the state is the slice [secrets] and what went to [diag]. *)
Definition recoverLine (st : list Share * string) (line : string) : list Share * string :=
  let '(secrets, diag) := st in
  let t := strings.TrimSpace line in
  if decoration t then st
  else
    match Share_UnmarshalText t with
    | inl e =>
      (secrets,
       diag +:+ "reading share " +:+ strconv.Quote quoteOther t +:+ ": " +:+ e +:+ newline)
    | inr s => (secrets ++ [s], diag)
    end.

Definition recoverLines (lines : list string) : list Share * string :=
  fold_left recoverLine lines ([], "").

(** [cmdRecover(in, diag, out)].  [input] is what the reader [in] holds;
    [None] is the nil reader, on which the first [Scan] panics. *)
Definition cmdRecover (input : option string) : Outcome :=
  match input with
  | None => Panicked
  | Some input =>
    let '(secrets, diag) := recoverLines (bufio.Scan input) in
    let secret := Recover secrets in
    Returned {| err := None; out := println (big.Text secret 62); diag := diag |}
  end.

(** How the process ends: [os.Exit] (or the return of [main]) with a
    status, or a crash by panic. *)
Inductive Status :=
| Exit (code : Z)
| Crash.

(** [closed] lists the files closed by deferred calls. *)
Record Process := {
  status : Status;
  stdout : string;
  stderr : string;
  closed : list string;
}.

(** The world [main] runs in: [os.Args], standard input, the files
    [os.Open] finds (or the text of its error), and the two sources of
    randomness. *)
Record Env := {
  Args0 : string;
  Args : list string;
  Stdin : string;
  Open : string -> string + string;
  EngineCoins : Coins;
  Draw : nat -> nat;
}.

(** [die(err, printUsage)], after the process wrote [so] and [se]. *)
Definition die (env : Env) (so se : string) (e : string) (printUsage : bool) : Process :=
  {| status := Exit 1;
     stdout := so;
     stderr := se +:+ println e
               +:+ (if printUsage
                    then newline +:+ "Usage of " +:+ Args0 env +:+ ":" +:+ newline
                         +:+ flag.PrintDefaults
                    else "");
     closed := [] |}.

Definition main (env : Env) : Process :=
  match flag.Parse (Args env) flag.defaults with
  | flag.Failed msg =>
    {| status := Exit 2; stdout := "";
       stderr := println msg +:+ flag.Usage (Args0 env); closed := [] |}
  | flag.ErrHelp =>
    {| status := Exit 0; stdout := ""; stderr := flag.Usage (Args0 env); closed := [] |}
  | flag.Ok f =>
    if negb (flag.doRecover f) then
      match cmdGenerate (flag.numShares f) (flag.minShares f) (EngineCoins env) (Draw env) with
      | Panicked => {| status := Crash; stdout := ""; stderr := ""; closed := [] |}
      | Returned r =>
        match err r with
        | Some e => die env (out r) "" e true
        | None => {| status := Exit 0; stdout := out r; stderr := ""; closed := [] |}
        end
      end
    else
      (* var fh io.ReadCloser *)
      let fh : option string := None in
      let run (fh : option string) (deferred : list string) : Process :=
        match cmdRecover fh with
        | Panicked => {| status := Crash; stdout := ""; stderr := ""; closed := deferred |}
        | Returned r =>
          match err r with
          | Some e => die env (out r) (diag r) e true
          | None =>
            {| status := Exit 0; stdout := out r; stderr := diag r; closed := deferred |}
          end
        end in
      if String.eqb (flag.secrets f) "-" then
        (* fh = os.Stdin *)
        let fh := Some (Stdin env) in
        run fh []
      else
        (* fh, err := os.Open(secrets): the short declaration makes a new
           [fh] for this case of the switch; the one declared above, which
           cmdRecover receives below, stays nil *)
        match Open env (flag.secrets f) with
        | inl e => die env "" "" e false
        | inr opened =>
          let inner_fh := Some opened in
          (* defer fh.Close() *)
          run fh [flag.secrets f]
        end
  end.

End Program.

(** ** A reference engine *)

Module sharedsecret.

(** Modelled from the spec: the package [github.com/posener/sharedsecret],
    whose source is not in the repository.  The spec describes it as the
    Shamir scheme: a random polynomial over a finite field with the secret
    as constant term, evaluated at the points [1..n] for the shares, and
    recovered by Lagrange interpolation at zero; a share reads
    [<index>,<decimal-value>].  The field is the integers modulo the
    Mersenne prime [2^127 - 1]; with it the shares of the repository's
    tests recover the secrets the tests expect. *)
Definition prime : Z := 2 ^ 127 - 1.

Record share := { x : Z; y : Z }.

(** The value of the polynomial with coefficients [p], constant term
    first, at [x]. *)
Fixpoint valueAt (p : list Z) (x : Z) : Z :=
  match p with
  | [] => 0
  | a :: p' => (a + x * valueAt p' x) mod prime
  end.

(** Modelled from the spec: the random polynomial of degree [k - 1];
    [coins i] is the random number drawn for coefficient [i]. *)
Definition polynom (k : Z) (coins : nat -> Z) : list Z :=
  map (fun i => coins i mod prime) (seq 0 (Z.to_nat k)).

(** Modelled from the spec: [New(n, k)], the points [1..n] of a random
    polynomial and its value at zero. *)
Definition New (n k : Z) (coins : nat -> Z) : list share * Z :=
  let p := polynom k coins in
  (map (fun i => {| x := Z.of_nat i; y := valueAt p (Z.of_nat i) |}) (seq 1 (Z.to_nat n)),
   valueAt p 0).

(** Modular exponentiation by squaring, along the bits of the exponent. *)
Fixpoint powmod (a : Z) (e : positive) : Z :=
  match e with
  | xH => a mod prime
  | xO e' => let h := powmod a e' in (h * h) mod prime
  | xI e' => let h := powmod a e' in (h * h mod prime * a) mod prime
  end.

(** The inverse in the field, by Fermat: [a ^ (prime - 2)]. *)
Definition inverse (a : Z) : Z :=
  match prime - 2 with
  | Zpos e => powmod a e
  | _ => 0
  end.

(** The Lagrange basis polynomial of the point at position [i] at zero:
    the product over the other positions [j] of [x_j / (x_j - x_i)],
    as one product of numerators over one product of denominators. *)
Definition basis (xs : list Z) (i : nat) (xi : Z) : Z :=
  let '(num, den) :=
    fold_left (fun '(num, den) '(j, xj) =>
                 if Nat.eqb i j then (num, den)
                 else ((num * xj) mod prime, (den * (xj - xi)) mod prime))
              (imap pair xs) (1, 1) in
  (num * inverse den) mod prime.

(** Modelled from the spec: [Recover(shares...)], Lagrange interpolation
    at zero. *)
Definition Recover (shares : list share) : Z :=
  let xs := map x shares in
  fold_left (fun acc '(i, s) => (acc + y s * basis xs i (x s)) mod prime)
            (imap pair shares) 0.

(** Modelled from the spec: the text of a share, index and value in
    decimal with a comma between. *)
Definition String (s : share) : string :=
  strconv.Itoa (x s) +:+ "," +:+ strconv.Itoa (y s).

(** Modelled from the spec: a share is read from two parts around one
    comma, an integer index and an unsigned decimal value; the spec gives
    the text of the first cause only. *)
Definition UnmarshalText (t : string) : string + share :=
  match strings.Split t ","%char with
  | [px; py] =>
    match strconv.signedDecimal (chars px) with
    | None => inl "index is not an integer"
    | Some vx =>
      match strconv.decimal (chars py) with
      | None => inl "value is not a number"
      | Some vy => inr {| x := vx; y := vy |}
      end
    end
  | _ => inl "expected two parts"
  end.

End sharedsecret.

Definition shamir : Engine := {|
  Share := sharedsecret.share;
  Coins := nat -> Z;
  New := sharedsecret.New;
  Recover := sharedsecret.Recover;
  Share_String := sharedsecret.String;
  Share_UnmarshalText := sharedsecret.UnmarshalText;
  Share_X := sharedsecret.x;
|}.

(** Tables for runs that stay within printable ASCII and plain decimal
    numerals, where the open parts are never consulted. *)
Definition asciiTables : Tables :=
  {| quoteOther := fun s => s; parseOther := fun _ => inl "parse error" |}.

(** * The vocabulary of the properties *)

(** Printable ASCII, and printable ASCII other than the space. *)
Definition printable (c : ascii) : bool := (32 <=? byte_of c) && (byte_of c <=? 126).
Definition visible (c : ascii) : bool := (33 <=? byte_of c) && (byte_of c <=? 126).

(** A line as the program prints them: printable, not empty, with no space
    at either end. *)
Record tidy (l : list ascii) : Prop := {
  tidy_printable : Forall (fun c => printable c = true) l;
  tidy_head : exists c r, l = c :: r /\ visible c = true;
  tidy_last : exists c r, l = r ++ [c] /\ visible c = true;
}.

(** A text that fits the scanner's buffer together with its newline. *)
Definition short (l : list ascii) : Prop :=
  Z.of_nat (length l) < bufio.MaxScanTokenSize.

(** The exchange of two indices, the rearrangement one swap makes. *)
Definition transpose (i j k : nat) : nat :=
  if decide (k = i) then j else if decide (k = j) then i else k.

Section Lines.
Context `{Tables} `{Engine}.

(** The record a line yields, following the spec of the parser: none for
    decoration and for malformed lines. *)
Definition recordOf (line : string) : option Share :=
  let t := strings.TrimSpace line in
  if decoration t then None
  else match Share_UnmarshalText t with inr s => Some s | inl _ => None end.

(** The diagnostic a line yields, following the spec of the parser: one
    line of text for a malformed line, nothing otherwise. *)
Definition diagnosticOf (line : string) : string :=
  let t := strings.TrimSpace line in
  if decoration t then ""
  else match Share_UnmarshalText t with
       | inr _ => ""
       | inl e => "reading share " +:+ strconv.Quote quoteOther t +:+ ": " +:+ e +:+ newline
       end.

(** A line that is neither skipped nor read as a share. *)
Definition malformed (line : string) : bool :=
  let t := strings.TrimSpace line in
  negb (decoration t)
  && match Share_UnmarshalText t with inr _ => false | inl _ => true end.

End Lines.

(** The bytes of the text of a share: decimal digits, the comma and the
    minus sign. *)
Definition shareChar (c : ascii) : bool :=
  let b := byte_of c in ((48 <=? b) && (b <=? 57)) || (b =? 44) || (b =? 45).

(** What the program relies on: [New(n, k)] returns the points [1..n];
    the text of a share is made of digits, commas and signs;
    [UnmarshalText] reads back what [String] wrote; and the lines printed
    for the shares and for the secret fit the buffer of the scanner. *)
Class EngineLaws `{Engine} : Prop := {
  New_X : forall n k coins,
    1 <= k <= n -> map Share_X (New n k coins).1 = map Z.of_nat (seq 1 (Z.to_nat n));
  String_chars : forall s,
    chars (Share_String s) <> [] /\ Forall (fun c => shareChar c = true) (chars (Share_String s));
  Unmarshal_String : forall n k coins s,
    1 <= k <= n -> In s (New n k coins).1 -> Share_UnmarshalText (Share_String s) = inr s;
  String_short : forall n k coins s,
    (1 <= k <= n /\ n < 2 ^ 63) -> In s (New n k coins).1 -> short (chars (Share_String s));
  Secret_short : forall n k coins,
    1 <= k <= n -> short (chars ("secret: " +:+ big.Text (New n k coins).2 62));
}.

(** The threshold property of the scheme: any [k] or more distinct shares
    of one call of [New] recover its secret.  The spec takes it as given. *)
Definition Threshold `{Engine} : Prop :=
  forall n k coins shares,
    1 <= k <= n -> List.NoDup shares -> (forall s, In s shares -> In s (New n k coins).1) ->
    k <= Z.of_nat (length shares) ->
    Recover shares = (New n k coins).2.

(** The two lines in front of the shares. *)
Definition secretLine (secret : Z) : string := "secret: " +:+ big.Text secret 62.
Definition headerLine (k : Z) : string :=
  "shares (need at least " +:+ strconv.Itoa k +:+ " of these for recovery):".

(** A decimal digit. *)
Definition isDigit (c : ascii) : Prop := exists d, strconv.digitVal c = Some d.

(** The error a call returns, if it returns one. *)
Definition errorOf (o : Outcome) : option string :=
  match o with
  | Returned r => err r
  | Panicked => None
  end.

(** The two messages of the validation in [cmdGenerate]. *)
Definition notEnough : string := "There will not be enough shares to recover the secret.".
Definition notPositive : string := "Number of shares must be larger than 1.".

(** Inputs for the closed instances: the coefficients the engine draws and
    the numbers the shuffle draws. *)
Definition sampleCoins : nat -> Z :=
  fun i => 98765432109876543210987654321098765432 * Z.of_nat (i + 1) + 42.
Definition sampleDraw : nat -> nat := fun i => if (i <=? 4)%nat then 0%nat else i.

(** The shares handed out in the sample run: the first five of the pool,
    rearranged by the last four draws. *)
Definition sampleShares : list sharedsecret.share :=
  map (fun i => {| sharedsecret.x := i;
                   sharedsecret.y :=
                     sharedsecret.valueAt (sharedsecret.polynom 3 sampleCoins) i |})
      [2; 3; 4; 5; 1].

(** The world of the closed instances. *)
Definition sampleEnv (args : list string) (stdin : string) (files : string -> string + string)
  : @Env shamir :=
  @Build_Env shamir "secret" args stdin files sampleCoins sampleDraw.

Definition noFiles : string -> string + string :=
  fun name => inl ("open " +:+ name +:+ ": no such file or directory").

Definition threeShares : string :=
  println "1,19943338053965968504353533017903769217"
  +:+ println "2,161872477868088873785792630750634181303"
  +:+ println "5,160274174127002500413544256698187925606".

(** The input of the repository's test with garbage among the shares. *)
Definition sharesWithGarbage : string :=
  "foo" +:+ newline +:+ "bar" +:+ newline +:+
  "1,19943338053965968504353533017903769217" +:+ newline +:+
  "2,161872477868088873785792630750634181303" +:+ newline +:+
  newline +:+
  "5,160274174127002500413544256698187925606" +:+ newline +:+
  "this is some random junk".

(** A line of garbage as long as the scanner's buffer. *)
Definition longLine : string := text (repeat "x"%char (Z.to_nat bufio.MaxScanTokenSize)).

(** A line of spaces as long as the scanner's buffer. *)
Definition blankLine : string := text (repeat " "%char (Z.to_nat bufio.MaxScanTokenSize)).

(** White space that stays within a line: the ASCII white space other than
    the newline. *)
Definition blank (c : ascii) : bool :=
  strings.asciiSpace c && negb (Ascii.eqb c "010"%char).

(** A line of an input file: a text with white space in front of it and
    behind it, as indentation, trailing spaces or the carriage return of a
    DOS line ending. *)
Record paddedLine := {
  lead : list ascii;
  body : list ascii;
  trail : list ascii;
}.

Definition withPadding (l : paddedLine) : string := text (lead l ++ body l ++ trail l).
Definition withoutPadding (l : paddedLine) : string := text (body l).

(** The loop of [cmdRecover] over an input: the slice [secrets] it ends
    with and what it wrote to [diag]. *)
Definition readShares `{Tables} `{Engine} (input : string) : list Share * string :=
  recoverLines (bufio.Scan input).

(** Inputs for the closed instances: the three shares of the repository's
    test, indented and with DOS line endings. *)
Definition paddedShares : list paddedLine :=
  [ {| lead := chars "  "; body := chars "1,19943338053965968504353533017903769217";
       trail := ["013"%char] |};
    {| lead := ["009"%char]; body := chars "2,161872477868088873785792630750634181303";
       trail := chars " " ++ ["013"%char] |};
    {| lead := []; body := chars "5,160274174127002500413544256698187925606";
       trail := ["013"%char] |} ].

(** Three of the shares handed out in the sample run, out of order. *)
Definition someSampleShares : list sharedsecret.share :=
  map (fun i => {| sharedsecret.x := i;
                   sharedsecret.y :=
                     sharedsecret.valueAt (sharedsecret.polynom 3 sampleCoins) i |})
      [5; 2; 4].

(** The same world with another command line. *)
Definition withArgs `{Engine} (env : Env) (args : list string) : Env :=
  {| Args0 := Args0 env; Args := args; Stdin := Stdin env; Open := Open env;
     EngineCoins := EngineCoins env; Draw := Draw env |}.

(** ** Earlier revisions of the program

    The repository keeps two earlier revisions of [secret.go]
    ([src/unnamed/part_000] and [src/unnamed/part_001]).  Both select the
    mode of operation with a string flag [-mode]; the later of the two
    ([part_000]) has the [cmdGenerate] and [cmdRecover] of [secret.go], the
    earlier one ([part_001]) has simpler ones. *)

Module part_000.

(** The four flags [main] declares, with their default values. *)
Record Flags := {
  mode : string;
  minShares : Z;
  numShares : Z;
  secrets : string;
}.

Definition defaults : Flags :=
  {| mode := "generate"; minShares := 3; numShares := 5; secrets := "-" |}.

Definition setMode (f : Flags) (v : string) : Flags :=
  {| mode := v; minShares := minShares f; numShares := numShares f; secrets := secrets f |}.
Definition setK (f : Flags) (x : Z) : Flags :=
  {| mode := mode f; minShares := x; numShares := numShares f; secrets := secrets f |}.
Definition setN (f : Flags) (x : Z) : Flags :=
  {| mode := mode f; minShares := minShares f; numShares := x; secrets := secrets f |}.
Definition setSecrets (f : Flags) (v : string) : Flags :=
  {| mode := mode f; minShares := minShares f; numShares := numShares f; secrets := v |}.

(** [flag.PrintDefaults()] for these flags, which it lists by name. *)
Definition PrintDefaults : string :=
  "  -k int" +:+ newline +:+
  "    " +:+ String "009"%char "Minimum number of shares required. Must be <= n. (default 3)" +:+ newline +:+
  "  -mode string" +:+ newline +:+
  "    " +:+ String "009"%char "Mode of operation. One of [generate, recover] (default "
    +:+ strconv.dquote +:+ "generate" +:+ strconv.dquote +:+ ")" +:+ newline +:+
  "  -n int" +:+ newline +:+
  "    " +:+ String "009"%char "How many shares to generate (default 5)" +:+ newline +:+
  "  -secrets string" +:+ newline +:+
  "    " +:+ String "009"%char "File to read secrets from. Use - to read from stdin. (default "
    +:+ strconv.dquote +:+ "-" +:+ strconv.dquote +:+ ")" +:+ newline.

Definition Usage (prog : string) : string :=
  "Usage of " +:+ prog +:+ ":" +:+ newline +:+ PrintDefaults.

Inductive Parsed :=
| Ok (f : Flags)
| ErrHelp
| Failed (msg : string).

Section Parse.
Context `{Tables}.

Definition setInt (name value : string) (set : Z -> Flags) : Flags + string :=
  match strconv.ParseInt parseOther value with
  | inr x => inl (set x)
  | inl e =>
    inr ("invalid value " +:+ strconv.Quote quoteOther value
         +:+ " for flag -" +:+ name +:+ ": " +:+ e)
  end.

(** [FlagSet.Parse] over the arguments after the program name, for the
    flags of this revision: each of them takes a value. *)
Fixpoint Parse (args : list string) (f : Flags) : Parsed :=
  match args with
  | [] => Ok f
  | s :: rest =>
    match chars s with
    | d :: c1 :: r1 =>
      if negb (Ascii.eqb d "-"%char) then Ok f
      else if Ascii.eqb c1 "-"%char && match r1 with [] => true | _ => false end then Ok f
      else
        let name := if Ascii.eqb c1 "-"%char then r1 else c1 :: r1 in
        match name with
        | [] => Failed ("bad flag syntax: " +:+ s)
        | n0 :: _ =>
          if Ascii.eqb n0 "-"%char || Ascii.eqb n0 "="%char
          then Failed ("bad flag syntax: " +:+ s)
          else
            let '(name, value) := flag.cut name in
            if String.eqb name "mode" || String.eqb name "k" || String.eqb name "n"
               || String.eqb name "secrets" then
              let set (v : string) : Flags + string :=
                if String.eqb name "mode" then inl (setMode f v)
                else if String.eqb name "k" then setInt name v (setK f)
                else if String.eqb name "n" then setInt name v (setN f)
                else inl (setSecrets f v) in
              match value, rest with
              | Some v, _ =>
                match set v with inl f' => Parse rest f' | inr e => Failed e end
              | None, v :: rest' =>
                match set v with inl f' => Parse rest' f' | inr e => Failed e end
              | None, [] => Failed ("flag needs an argument: -" +:+ name)
              end
            else if String.eqb name "help" || String.eqb name "h" then ErrHelp
            else Failed ("flag provided but not defined: -" +:+ name)
        end
    | _ => Ok f
    end
  end.
End Parse.

Section Program.
Context `{Tables} `{Engine}.

(** [die(err, printUsage)]: the same function as in [secret.go], over the
    flags of this revision. *)
Definition die (env : Env) (so se : string) (e : string) (printUsage : bool) : Process :=
  {| status := Exit 1;
     stdout := so;
     stderr := se +:+ println e
               +:+ (if printUsage
                    then newline +:+ "Usage of " +:+ Args0 env +:+ ":" +:+ newline
                         +:+ PrintDefaults
                    else "");
     closed := [] |}.

(** [main] of [part_000]: the switch on the mode string.  In the case
    [recover] the variables [fh] and [err] are declared anew; [fh] is
    assigned by [os.Open], and the error of [cmdRecover] goes to the [err]
    of the case, so that the test after the switch sees the outer one,
    which is nil. *)
Definition main (env : Env) : Process :=
  match Parse (Args env) defaults with
  | Failed msg =>
    {| status := Exit 2; stdout := "";
       stderr := println msg +:+ Usage (Args0 env); closed := [] |}
  | ErrHelp =>
    {| status := Exit 0; stdout := ""; stderr := Usage (Args0 env); closed := [] |}
  | Ok f =>
    if String.eqb (mode f) "generate" then
      match cmdGenerate (numShares f) (minShares f) (EngineCoins env) (Draw env) with
      | Panicked => {| status := Crash; stdout := ""; stderr := ""; closed := [] |}
      | Returned r =>
        match err r with
        | Some e => die env (out r) "" e true
        | None => {| status := Exit 0; stdout := out r; stderr := ""; closed := [] |}
        end
      end
    else if String.eqb (mode f) "recover" then
      let run (fh : option string) (deferred : list string) : Process :=
        match cmdRecover fh with
        | Panicked => {| status := Crash; stdout := ""; stderr := ""; closed := deferred |}
        | Returned r =>
          {| status := Exit 0; stdout := out r; stderr := diag r; closed := deferred |}
        end in
      if String.eqb (secrets f) "-" then run (Some (Stdin env)) []
      else
        match Open env (secrets f) with
        | inl e => die env "" "" e false
        | inr opened => run (Some opened) [secrets f]
        end
    else
      die env "" "" ("invalid mode " +:+ strconv.Quote quoteOther (mode f)) true
  end.

End Program.

End part_000.

Module part_001.

Section Program.
Context `{Tables} `{Engine}.

(** [cmdGenerate(n, k, out)] of [part_001]: the engine makes the [n]
    shares, which are printed in the order it returns them. *)
Definition cmdGenerate (n k : Z) (coins : Coins) : Outcome :=
  if k >? n then
    Returned {| err := Some "There will not be enough shares to recover the secret.";
                out := ""; diag := "" |}
  else if (n <? 1) || (k <? 1) then
    Returned {| err := Some "Number of shares must be larger than 1.";
                out := ""; diag := "" |}
  else
    let '(shares, secret) := New n k coins in
    Returned {| err := None;
                out := println ("secret: " +:+ big.Text secret 62)
                       +:+ println "shares:"
                       +:+ String.concat "" (map (fun share => println (Share_String share)) shares);
                diag := "" |}.

(** The loop of [cmdRecover] of [part_001] over the lines the scanner
    yields: blank lines are skipped, the others are read as they are, and
    the first that does not read ends the loop with its error. *)
Fixpoint recoverLines (lines : list string) (secrets : list Share) : string + list Share :=
  match lines with
  | [] => inr secrets
  | t :: rest =>
    if String.eqb (strings.TrimSpace t) "" then recoverLines rest secrets
    else
      match Share_UnmarshalText t with
      | inl e => inl ("reading share " +:+ strconv.Quote quoteOther t +:+ ": " +:+ e)
      | inr s => recoverLines rest (secrets ++ [s])
      end
  end.

(** [cmdRecover(in, out)] of [part_001]. *)
Definition cmdRecover (input : option string) : Outcome :=
  match input with
  | None => Panicked
  | Some input =>
    match recoverLines (bufio.Scan input) [] with
    | inl e => Returned {| err := Some e; out := ""; diag := "" |}
    | inr secrets =>
      Returned {| err := None; out := println (big.Text (Recover secrets) 62); diag := "" |}
    end
  end.

(** [main] of [part_001], with the flags and the [die] of [part_000].
    The error of [cmdRecover] goes to the [err] declared in the case
    [recover]; the test after the switch sees the outer one, which is
    nil. *)
Definition main (env : Env) : Process :=
  match part_000.Parse (Args env) part_000.defaults with
  | part_000.Failed msg =>
    {| status := Exit 2; stdout := "";
       stderr := println msg +:+ part_000.Usage (Args0 env); closed := [] |}
  | part_000.ErrHelp =>
    {| status := Exit 0; stdout := ""; stderr := part_000.Usage (Args0 env); closed := [] |}
  | part_000.Ok f =>
    if String.eqb (part_000.mode f) "generate" then
      match cmdGenerate (part_000.numShares f) (part_000.minShares f) (EngineCoins env) with
      | Panicked => {| status := Crash; stdout := ""; stderr := ""; closed := [] |}
      | Returned r =>
        match err r with
        | Some e => part_000.die env (out r) "" e true
        | None => {| status := Exit 0; stdout := out r; stderr := ""; closed := [] |}
        end
      end
    else if String.eqb (part_000.mode f) "recover" then
      let run (fh : option string) (deferred : list string) : Process :=
        match cmdRecover fh with
        | Panicked => {| status := Crash; stdout := ""; stderr := ""; closed := deferred |}
        | Returned r =>
          {| status := Exit 0; stdout := out r; stderr := ""; closed := deferred |}
        end in
      if String.eqb (part_000.secrets f) "-" then run (Some (Stdin env)) []
      else
        match Open env (part_000.secrets f) with
        | inl e => part_000.die env "" "" e false
        | inr opened => run (Some opened) [part_000.secrets f]
        end
    else
      part_000.die env "" "" ("invalid mode " +:+ strconv.Quote quoteOther (part_000.mode f)) true
  end.

End Program.

End part_001.

(** A line with no white space around it that is not a heading, or a blank
    line: the lines on which the revisions of [cmdRecover] read the same
    text. *)
Definition plainLine (t : string) : bool :=
  String.eqb (strings.TrimSpace t) ""
  || (String.eqb (strings.TrimSpace t) t && negb (decoration t)).

(** The value of a digit of the alphabet of [math/big]: its position in
    the alphabet. *)
Fixpoint indexOf (c : ascii) (l : list ascii) : Z :=
  match l with
  | [] => 0
  | d :: r => if Ascii.eqb c d then 0 else 1 + indexOf c r
  end.

Definition digitValue (c : ascii) : Z := indexOf c big.digits.

(** The number a sequence of digits stands for, most significant digit
    first, after the digits that gave [acc]. *)
Fixpoint numeral (base acc : Z) (s : list ascii) : Z :=
  match s with
  | [] => acc
  | c :: r => numeral base (acc * base + digitValue c) r
  end.

(** The number a text stands for: a numeral, with a minus sign in front
    for a negative one. *)
Definition numberOf (base : Z) (s : string) : Z :=
  match chars s with
  | c :: r => if Ascii.eqb c "-"%char then - numeral base 0 r else numeral base 0 (c :: r)
  | [] => 0
  end.

(** * Properties *)

(** ** Strings *)

Lemma append_cons (x : ascii) (a b : string) : String x a +:+ b = String x (a +:+ b).
Proof. reflexivity. Qed.

Lemma append_nil_l (a : string) : "" +:+ a = a.
Proof. reflexivity. Qed.

Lemma chars_cons (x : ascii) (a : string) : chars (String x a) = x :: chars a.
Proof. reflexivity. Qed.

Lemma chars_app (a b : string) : chars (a +:+ b) = chars a ++ chars b.
Proof.
  induction a as [|c a IH]; [reflexivity|].
  by rewrite append_cons, !chars_cons, IH.
Qed.

Lemma text_chars (s : string) : text (chars s) = s.
Proof. apply string_of_list_ascii_of_string. Qed.

Lemma chars_text (l : list ascii) : chars (text l) = l.
Proof. apply list_ascii_of_string_of_list_ascii. Qed.

Lemma append_assoc (a b c : string) : (a +:+ b) +:+ c = a +:+ (b +:+ c).
Proof.
  induction a as [|x a IH]; [reflexivity|].
  by rewrite !append_cons, IH.
Qed.

Lemma append_nil_r (a : string) : a +:+ "" = a.
Proof.
  induction a as [|x a IH]; [reflexivity|].
  by rewrite append_cons, IH.
Qed.

Lemma visible_not_space c : visible c = true -> strings.asciiSpace c = false.
Proof. unfold visible, strings.asciiSpace. intros Hv. apply andb_true_iff in Hv as [H1 H2]. lia. Qed.

Lemma trimLeft_visible c r : visible c = true -> strings.trimLeft (c :: r) = c :: r.
Proof.
  intros Hv. simpl. rewrite (visible_not_space _ Hv).
  assert (byte_of c <= 126) by (unfold visible in Hv; lia).
  destruct r as [|c1 r1]; [reflexivity|].
  replace (byte_of c =? 194) with false by lia. simpl.
  destruct r1 as [|c2 r2]; [reflexivity|].
  replace (byte_of c =? 225) with false by lia.
  replace (byte_of c =? 226) with false by lia.
  replace (byte_of c =? 227) with false by lia. reflexivity.
Qed.

Lemma trimLeftRev_visible c r : visible c = true -> strings.trimLeftRev (c :: r) = c :: r.
Proof.
  intros Hv. simpl. rewrite (visible_not_space _ Hv).
  assert (byte_of c <= 126) by (unfold visible in Hv; lia).
  destruct r as [|c1 r1]; [reflexivity|].
  replace (byte_of c =? 133) with false by lia.
  replace (byte_of c =? 160) with false by lia.
  rewrite andb_false_r.
  destruct r1 as [|c2 r2]; [reflexivity|].
  replace (byte_of c =? 128) with false by lia.
  replace (byte_of c =? 159) with false by lia.
  replace (strings.spaceE280 (byte_of c)) with false by (unfold strings.spaceE280; lia).
  rewrite !andb_false_r. reflexivity.
Qed.

Lemma TrimSpace_tidy (s : string) : tidy (chars s) -> strings.TrimSpace s = s.
Proof.
  intros [_ (c & r & Hc & Hv) (c' & r' & Hc' & Hv')].
  unfold strings.TrimSpace, strings.trimRight.
  rewrite Hc, (trimLeft_visible _ _ Hv), <- Hc, Hc'.
  rewrite rev_app_distr. change (rev [c'] ++ rev r') with (c' :: rev r').
  rewrite (trimLeftRev_visible _ _ Hv').
  change (c' :: rev r') with (rev [c'] ++ rev r').
  rewrite <- rev_app_distr, rev_involutive, <- Hc'. apply text_chars.
Qed.

Lemma visible_printable c : visible c = true -> printable c = true.
Proof. unfold visible, printable. lia. Qed.

Lemma tidy_visible (l : list ascii) :
  l <> [] -> Forall (fun c => visible c = true) l -> tidy l.
Proof.
  intros Hne Hall. split.
  - eapply Forall_impl; [exact Hall|]. apply visible_printable.
  - destruct l as [|c r]; [done|]. exists c, r. split; [done|]. by inversion Hall.
  - destruct (exists_last Hne) as (r & c & ->). exists c, r. split; [done|].
    apply Forall_app in Hall as [_ Hc]. by inversion Hc.
Qed.

(** ** The scanner *)

Lemma scanAcc_line (room : Z) (l acc rest : list ascii) :
  Forall (fun c => printable c = true) l ->
  Z.of_nat (length l) <= room ->
  bufio.scanAcc room acc (l ++ "010"%char :: rest)
  = text (rev (bufio.dropCR (rev l ++ acc)))
    :: bufio.scanAcc (bufio.MaxScanTokenSize - 1) [] rest.
Proof.
  revert room acc. induction l as [|c l IH]; intros room acc Hl Hroom.
  - reflexivity.
  - inversion Hl as [|? ? Hc Hl']; subst.
    cbn [app bufio.scanAcc]. cbn [length] in Hroom.
    replace (Ascii.eqb c "010"%char) with false.
    + replace (room <=? 0) with false by lia.
      rewrite (IH (room - 1) (c :: acc) Hl') by lia.
      cbn [rev]. by rewrite <- app_assoc.
    + symmetry. apply Ascii.eqb_neq. intros ->. discriminate Hc.
Qed.

Lemma Scan_println (s rest : string) :
  tidy (chars s) -> short (chars s) ->
  bufio.Scan (println s +:+ rest) = s :: bufio.Scan rest.
Proof.
  intros [Hp _ (c & r & Hc & Hv)] Hshort. unfold bufio.Scan, println, newline.
  rewrite append_assoc, chars_app, append_cons, chars_cons, append_nil_l.
  rewrite (scanAcc_line _ _ _ _ Hp) by (unfold short in Hshort; lia).
  rewrite app_nil_r. f_equal.
  rewrite Hc, rev_app_distr. change (rev [c] ++ rev r) with (c :: rev r).
  unfold bufio.dropCR. replace (Ascii.eqb c "013"%char) with false.
  - change (c :: rev r) with (rev [c] ++ rev r).
    by rewrite <- rev_app_distr, rev_involutive, <- Hc, text_chars.
  - symmetry. apply Ascii.eqb_neq. intros ->. discriminate Hv.
Qed.

(** A line that fills the buffer ends the scan: neither the line nor
    anything after it is yielded. *)
Lemma scanAcc_too_long (room : Z) (l acc rest : list ascii) :
  Forall (fun c => c <> "010"%char) l ->
  0 <= room < Z.of_nat (length l) ->
  bufio.scanAcc room acc (l ++ rest) = [].
Proof.
  revert room acc. induction l as [|c l IH]; intros room acc Hl Hroom.
  - cbn [length] in Hroom. lia.
  - inversion Hl as [|? ? Hc Hl']; subst.
    cbn [app bufio.scanAcc]. cbn [length] in Hroom.
    apply Ascii.eqb_neq in Hc. rewrite Hc.
    destruct (Z.leb_spec room 0); [done|].
    apply IH; [done|lia].
Qed.

Lemma linesAcc_first (acc s : list ascii) :
  acc <> [] ->
  exists first others,
    bufio.linesAcc acc s = first :: others /\ (length acc <= length first)%nat.
Proof.
  revert acc. induction s as [|c s IH]; intros acc Hacc; cbn [bufio.linesAcc].
  - destruct acc; [done|]. eexists _, []. split; [done|]. by rewrite length_rev.
  - destruct (Ascii.eqb c "010"%char).
    + eexists _, _. split; [done|]. by rewrite length_rev.
    + destruct (IH (c :: acc) ltac:(done)) as (first & others & -> & Hlen).
      exists first, others. split; [done|]. cbn [length] in Hlen. lia.
Qed.

(** When every line of the input fits the buffer, the scanner yields them
    all. *)
Lemma scanAcc_all (room : Z) (acc s : list ascii) :
  room + Z.of_nat (length acc) = bufio.MaxScanTokenSize - 1 ->
  Forall short (bufio.linesAcc acc s) ->
  bufio.scanAcc room acc s = map bufio.token (bufio.linesAcc acc s).
Proof.
  revert room acc. induction s as [|c s IH]; intros room acc Hroom Hshort;
    cbn [bufio.scanAcc bufio.linesAcc] in *.
  - destruct acc; [done|]. cbn [map]. unfold bufio.token. by rewrite rev_involutive.
  - destruct (Ascii.eqb c "010"%char).
    + inversion Hshort as [|? ? _ Hrest]; subst. cbn [map]. f_equal.
      * unfold bufio.token. by rewrite rev_involutive.
      * apply IH; [cbn [length]; lia|done].
    + destruct (Z.leb_spec room 0) as [Hfull|Hroom'].
      * exfalso. destruct (linesAcc_first (c :: acc) s ltac:(done))
          as (first & others & Heq & Hlen).
        rewrite Heq in Hshort. inversion Hshort as [|? ? Hfirst _]; subst.
        unfold short in Hfirst. cbn [length] in Hlen. lia.
      * apply IH; [cbn [length]; lia|done].
Qed.

Lemma Scan_all (input : string) :
  Forall short (bufio.lines input) -> bufio.Scan input = map bufio.token (bufio.lines input).
Proof. intros Hshort. apply scanAcc_all; [cbn [length]; lia|done]. Qed.

Lemma concat_cons (x : string) (l : list string) :
  String.concat "" (x :: l) = x +:+ String.concat "" l.
Proof. destruct l; simpl; [by rewrite append_nil_r|reflexivity]. Qed.

Lemma concat_app (l1 l2 : list string) :
  String.concat "" (l1 ++ l2) = String.concat "" l1 +:+ String.concat "" l2.
Proof.
  induction l1 as [|x l1 IH]; [done|].
  cbn [app]. by rewrite !concat_cons, IH, append_assoc.
Qed.

Lemma Scan_lines (ls : list string) :
  Forall (fun s => tidy (chars s) /\ short (chars s)) ls ->
  bufio.Scan (String.concat "" (map println ls)) = ls.
Proof.
  induction ls as [|s ls IH]; intros Hall; [reflexivity|].
  inversion Hall as [|? ? [Hs Hshort] Hls]; subst.
  rewrite map_cons, concat_cons, (Scan_println _ _ Hs Hshort). f_equal. by apply IH.
Qed.

(** ** The text of numbers *)

Lemma digits_visible : Forall (fun c => visible c = true) big.digits.
Proof. unfold big.digits. repeat constructor. Qed.

Lemma digit_visible (d : Z) : visible (big.digit d) = true.
Proof.
  unfold big.digit.
  destruct (nth_in_or_default (Z.to_nat d) big.digits "0"%char) as [Hin| ->]; [|reflexivity].
  pose proof digits_visible as Hall. rewrite List.Forall_forall in Hall. by apply Hall.
Qed.

Lemma natText_visible (fuel : nat) (base x : Z) (acc : list ascii) :
  exists pre, big.natText fuel base x acc = pre ++ acc
              /\ Forall (fun c => visible c = true) pre
              /\ (fuel <> 0%nat -> pre <> []).
Proof.
  revert x acc. induction fuel as [|f IH]; intros x acc.
  - exists []. by repeat split.
  - simpl. destruct (x / base =? 0).
    + exists [big.digit (x mod base)]. repeat split; [|done].
      constructor; [apply digit_visible|constructor].
    + destruct (IH (x / base) (big.digit (x mod base) :: acc)) as (pre & -> & Hv & _).
      exists (pre ++ [big.digit (x mod base)]). repeat split.
      * by rewrite <- app_assoc.
      * apply Forall_app. split; [done|]. constructor; [apply digit_visible|constructor].
      * intros _. by destruct pre.
Qed.

Lemma Text_visible (x base : Z) :
  chars (big.Text x base) <> [] /\ Forall (fun c => visible c = true) (chars (big.Text x base)).
Proof.
  unfold big.Text.
  destruct (natText_visible (big.fuelFor (Z.abs x)) base (Z.abs x) []) as (pre & -> & Hv & Hne).
  rewrite app_nil_r, chars_app, chars_text. split.
  - intros Heq. apply app_eq_nil in Heq as [_ ->]. by apply Hne.
  - apply Forall_app. split; [|done]. destruct (x <? 0); repeat constructor.
Qed.

Lemma Text_tidy (x base : Z) : tidy (chars (big.Text x base)).
Proof. destruct (Text_visible x base). by apply tidy_visible. Qed.

Lemma natText_length (fuel : nat) (base x : Z) (acc : list ascii) :
  (length (big.natText fuel base x acc) <= fuel + length acc)%nat.
Proof.
  revert x acc. induction fuel as [|f IH]; intros x acc; cbn [big.natText]; [lia|].
  destruct (x / base =? 0); cbn [length]; [lia|].
  etransitivity; [apply IH|]. cbn [length]. lia.
Qed.

(** The text of a number is no longer than its binary numeral and a sign. *)
Lemma Text_length (x base : Z) :
  Z.of_nat (length (chars (big.Text x base))) <= 2 + Z.log2 (Z.abs x).
Proof.
  unfold big.Text. rewrite chars_app, chars_text, length_app.
  pose proof (natText_length (big.fuelFor (Z.abs x)) base (Z.abs x) []) as Hlen.
  pose proof (Z.log2_nonneg (Z.abs x)).
  unfold big.fuelFor in *. cbn [length] in Hlen.
  assert (length (chars (if (x <? 0)%Z then "-" else "")) <= 1)%nat
    by (destruct (x <? 0); cbn; lia).
  lia.
Qed.

Lemma Text_short (x base : Z) (extra : Z) :
  Z.abs x < 2 ^ 127 -> extra <= 1000 ->
  Z.of_nat (length (chars (big.Text x base))) + extra < bufio.MaxScanTokenSize.
Proof.
  intros Hx Hextra. pose proof (Text_length x base) as Hlen.
  assert (Z.log2 (Z.abs x) < 127).
  { destruct (Z.eq_dec (Z.abs x) 0) as [->|]; [done|]. apply Z.log2_lt_pow2; lia. }
  unfold bufio.MaxScanTokenSize. lia.
Qed.

(** ** The size of the pool *)

Lemma round53_small (v : Z) : v < 2 ^ 53 -> math.round53 v = v.
Proof.
  intros Hv. unfold math.round53.
  destruct (Z.leb_spec (Z.log2 v - 52) 0) as [|Hlog]; [reflexivity|].
  exfalso. assert (Z.log2 v < 53); [|lia].
  destruct (Z.le_gt_cases v 0) as [Hle|Hpos].
  - rewrite Z.log2_nonpos; lia.
  - apply Z.log2_lt_pow2; lia.
Qed.

(** Rounding moves a number by at most half a unit in the last place. *)
Lemma round53_near (v : Z) :
  0 <= v < 2 ^ 63 -> v - 512 <= math.round53 v <= v + 512.
Proof.
  intros [H0 Hv]. unfold math.round53.
  destruct (Z.leb_spec (Z.log2 v - 52) 0) as [|Hlog]; [lia|].
  assert (Hpos : 0 < v).
  { destruct (Z.le_gt_cases v 0) as [Hle|]; [|done].
    rewrite (Z.log2_nonpos v Hle) in Hlog. lia. }
  assert (Z.log2 v < 63) by (apply Z.log2_lt_pow2; lia).
  set (e := Z.log2 v - 52) in *.
  assert (e <= 10) by lia.
  assert (Hpow : 2 ^ e = 2 * 2 ^ (e - 1)).
  { replace e with (Z.succ (e - 1)) at 1 by lia. apply Z.pow_succ_r. lia. }
  assert (0 < 2 ^ (e - 1)) by (apply Z.pow_pos_nonneg; lia).
  assert (2 ^ (e - 1) <= 2 ^ 9) by (apply Z.pow_le_mono_r; lia).
  change (2 ^ 9) with 512 in *.
  pose proof (Z.div_mod v (2 ^ e) ltac:(lia)) as Hdm.
  pose proof (Z.mod_pos_bound v (2 ^ e) ltac:(lia)) as Hmod.
  set (q := v / 2 ^ e) in *. set (r := v mod 2 ^ e) in *. set (h := 2 ^ (e - 1)) in *.
  destruct (Z.ltb_spec r h); [nia|].
  destruct (Z.ltb_spec h r); [nia|].
  destruct (Z.even q); nia.
Qed.

Lemma float64_of_int_small (n : Z) : 0 <= n < 2 ^ 53 -> math.float64_of_int n = n.
Proof.
  intros [H0 Hn]. unfold math.float64_of_int, math.round.
  rewrite Z.abs_eq by lia. rewrite round53_small by lia.
  destruct (Z.eq_dec n 0) as [->|]; [reflexivity|].
  rewrite Z.sgn_pos by lia. lia.
Qed.

Lemma Pow_2_nonneg (x : Z) : 0 <= x -> math.Pow_2 x = math.round53 (x * x).
Proof.
  intros Hx. unfold math.Pow_2, math.round.
  rewrite Z.abs_eq by nia.
  destruct (Z.eq_dec x 0) as [->|]; [reflexivity|].
  rewrite Z.sgn_pos by nia. lia.
Qed.

(** Up to [n = 94906265] the square fits 53 bits and the computation is
    exact. *)
Lemma genSecrets_exact (n : Z) :
  1 <= n <= 94906265 -> genSecrets n = Z.max (n * n) minShares.
Proof.
  intros Hn. unfold genSecrets.
  rewrite float64_of_int_small by lia. rewrite Pow_2_nonneg by lia.
  assert (n * n < 2 ^ 53) by (change (2 ^ 53) with 9007199254740992; nia).
  rewrite round53_small by done. unfold math.int64_of_float.
  replace ((- 2 ^ 63 <=? n * n) && (n * n <? 2 ^ 63)) with true by lia.
  destruct (Z.ltb_spec (n * n) minShares); lia.
Qed.

(** Below [n = 3037000500] the rounded square is an [int64] and the pool
    holds at least [n] shares. *)
Lemma genSecrets_bounds (n : Z) :
  1 <= n < 3037000500 ->
  n <= genSecrets n < 2 ^ 63 /\ minShares <= genSecrets n
  /\ n * n - 512 <= genSecrets n <= Z.max (n * n + 512) minShares.
Proof.
  intros Hn. unfold genSecrets.
  rewrite float64_of_int_small by lia. rewrite Pow_2_nonneg by lia.
  assert (Hsq : 0 <= n * n < 2 ^ 63 - 512) by (change (2 ^ 63) with 9223372036854775808; nia).
  pose proof (round53_near (n * n) ltac:(lia)) as Hnear.
  assert (Hge : n <= Z.max (math.round53 (n * n)) minShares).
  { destruct (Z.lt_ge_cases (n * n) (2 ^ 53)) as [Hs|Hl].
    - rewrite round53_small by done. nia.
    - change (2 ^ 53) with 9007199254740992 in Hl. nia. }
  unfold math.int64_of_float, minShares in *.
  replace ((- 2 ^ 63 <=? math.round53 (n * n)) && (math.round53 (n * n) <? 2 ^ 63))
    with true by lia.
  change (2 ^ 63) with 9223372036854775808 in *.
  destruct (Z.ltb_spec (math.round53 (n * n)) 10000); lia.
Qed.

(** ** The shuffle *)

Section ShuffleFacts.
Context {A : Type}.
Implicit Types (s : list A) (i j : nat).

Lemma transpose_inj i j : Inj (=) (=) (transpose i j).
Proof. intros a b. unfold transpose. repeat case_decide; congruence. Qed.

Lemma swap_lookup i j s k :
  (i < length s)%nat -> (j < length s)%nat ->
  rand.swap i j s !! k = s !! transpose i j k.
Proof.
  intros Hi Hj. unfold rand.swap.
  destruct (lookup_lt_is_Some_2 s i Hi) as [a Ha].
  destruct (lookup_lt_is_Some_2 s j Hj) as [b Hb].
  rewrite Ha, Hb. unfold transpose.
  rewrite !list_lookup_insert, !length_insert.
  repeat case_decide; destruct_and?; subst; try done; try lia.
  all: try (exfalso; naive_solver lia).
Qed.

Lemma swap_length i j s : length (rand.swap i j s) = length s.
Proof.
  unfold rand.swap. destruct (s !! i), (s !! j); try done.
  by rewrite !length_insert.
Qed.

Lemma swap_Permutation i j s : Permutation (rand.swap i j s) s.
Proof.
  destruct (decide (i < length s)%nat) as [Hi|Hi].
  - destruct (decide (j < length s)%nat) as [Hj|Hj].
    + apply Permutation_inj. split; [apply swap_length|].
      exists (transpose i j). split; [apply transpose_inj|].
      intros k. by apply swap_lookup.
    + unfold rand.swap. rewrite (lookup_ge_None_2 s j) by lia. by destruct (s !! i).
  - unfold rand.swap. by rewrite (lookup_ge_None_2 s i) by lia.
Qed.

Lemma shuffleFrom_Permutation (draw : nat -> nat) i s :
  Permutation (rand.shuffleFrom draw i s) s.
Proof.
  revert s. induction i as [|i IH]; intros s; simpl; [done|].
  rewrite IH. apply swap_Permutation.
Qed.

(** The shuffle rearranges the slice: nothing is lost, nothing repeated. *)
Lemma Shuffle_Permutation (draw : nat -> nat) s : Permutation (rand.Shuffle draw s) s.
Proof. apply shuffleFrom_Permutation. Qed.

Lemma Shuffle_length (draw : nat -> nat) s : length (rand.Shuffle draw s) = length s.
Proof. apply Permutation_length, Shuffle_Permutation. Qed.

End ShuffleFacts.

(** ** The loop of cmdRecover *)

Section RecoverFacts.
Context `{Tables} `{Engine}.

Lemma recoverLine_spec (line : string) (secrets : list Share) (d : string) :
  recoverLine (secrets, d) line
  = (secrets ++ option_list (recordOf line), d +:+ diagnosticOf line).
Proof.
  unfold recoverLine, recordOf, diagnosticOf.
  destruct (decoration (strings.TrimSpace line)).
  - by rewrite app_nil_r, append_nil_r.
  - destruct (Share_UnmarshalText (strings.TrimSpace line)); simpl.
    + by rewrite app_nil_r.
    + by rewrite append_nil_r.
Qed.

Lemma fold_recoverLine (lines : list string) (secrets : list Share) (d : string) :
  fold_left recoverLine lines (secrets, d)
  = (secrets ++ omap recordOf lines, d +:+ String.concat "" (map diagnosticOf lines)).
Proof.
  revert secrets d. induction lines as [|line lines IH]; intros secrets d.
  - simpl. by rewrite app_nil_r, append_nil_r.
  - rewrite map_cons, concat_cons.
    change (fold_left recoverLine (line :: lines) (secrets, d))
      with (fold_left recoverLine lines (recoverLine (secrets, d) line)).
    rewrite recoverLine_spec, IH.
    rewrite <- app_assoc, append_assoc. f_equal. f_equal.
    simpl. by destruct (recordOf line).
Qed.

Lemma recoverLines_spec (lines : list string) :
  recoverLines lines = (omap recordOf lines, String.concat "" (map diagnosticOf lines)).
Proof. unfold recoverLines. by rewrite fold_recoverLine. Qed.

Lemma cmdRecover_spec (input : string) :
  cmdRecover (Some input)
  = Returned {| err := None;
                out := println (big.Text (Recover (omap recordOf (bufio.Scan input))) 62);
                diag := String.concat "" (map diagnosticOf (bufio.Scan input)) |}.
Proof. unfold cmdRecover. by rewrite recoverLines_spec. Qed.

Lemma malformed_record (line : string) : malformed line = true -> recordOf line = None.
Proof.
  unfold malformed, recordOf. destruct (decoration _); [done|].
  by destruct (Share_UnmarshalText _).
Qed.

Lemma wellformed_diagnostic (line : string) : malformed line = false -> diagnosticOf line = "".
Proof.
  unfold malformed, diagnosticOf. destruct (decoration _); [done|].
  by destruct (Share_UnmarshalText _).
Qed.

Lemma omap_cons_app {A B} (f : A -> option B) (x : A) (l : list A) :
  omap f (x :: l) = option_list (f x) ++ omap f l.
Proof. simpl. by destruct (f x). Qed.

Lemma omap_cons_None {A B} (f : A -> option B) (x : A) (l : list A) :
  f x = None -> omap f (x :: l) = omap f l.
Proof. intros Hx. simpl. by rewrite Hx. Qed.

Lemma filter_cons_if {A} (f : A -> bool) (x : A) (l : list A) :
  List.filter f (x :: l) = if f x then x :: List.filter f l else List.filter f l.
Proof. reflexivity. Qed.

Lemma omap_recordOf_filter (lines : list string) :
  omap recordOf (List.filter (fun l => negb (malformed l)) lines) = omap recordOf lines.
Proof.
  induction lines as [|line lines IH]; [done|].
  rewrite filter_cons_if, (omap_cons_app _ line).
  destruct (malformed line) eqn:Hm; cbn [negb].
  - by rewrite (malformed_record _ Hm), IH.
  - by rewrite omap_cons_app, IH.
Qed.

Lemma diagnostics_filter (lines : list string) :
  String.concat "" (map diagnosticOf (List.filter (fun l => negb (malformed l)) lines)) = "".
Proof.
  induction lines as [|line lines IH]; [done|].
  rewrite filter_cons_if.
  destruct (malformed line) eqn:Hm; cbn [negb]; [done|].
  by rewrite map_cons, concat_cons, (wellformed_diagnostic _ Hm), IH.
Qed.

End RecoverFacts.

(** ** The contract of the engine *)

Lemma shareChar_visible c : shareChar c = true -> visible c = true.
Proof. unfold shareChar, visible. lia. Qed.

Lemma prefix_cons (a c : ascii) (s1 s2 : string) :
  String.prefix (String a s1) (String c s2)
  = if ascii_dec a c then String.prefix s1 s2 else false.
Proof. reflexivity. Qed.

Lemma prefix_app (a b : string) : String.prefix a (a +:+ b) = true.
Proof.
  induction a as [|x a IH]; [by destruct b|].
  rewrite append_cons, prefix_cons. by destruct (ascii_dec x x).
Qed.

Section GenerateFacts.
Context `{Tables} `{Engine} {laws : EngineLaws}.

Lemma String_tidy (s : Share) : tidy (chars (Share_String s)).
Proof.
  destruct (String_chars s) as [Hne Hall]. apply tidy_visible; [done|].
  eapply Forall_impl; [exact Hall|]. apply shareChar_visible.
Qed.

Lemma String_not_decoration (s : Share) : decoration (Share_String s) = false.
Proof.
  destruct (String_chars s) as [Hne Hall]. unfold decoration, strings.HasPrefix.
  destruct (Share_String s) as [|c r]; [done|].
  rewrite chars_cons in Hall. inversion Hall as [|? ? Hc _]; subst.
  rewrite !prefix_cons.
  destruct (ascii_dec "s" c) as [<-|]; [discriminate Hc|done].
Qed.

Lemma recordOf_String (n k : Z) (coins : Coins) (s : Share) :
  1 <= k <= n -> In s (New n k coins).1 ->
  recordOf (Share_String s) = Some s /\ diagnosticOf (Share_String s) = "".
Proof.
  intros Hk Hin. unfold recordOf, diagnosticOf.
  rewrite (TrimSpace_tidy _ (String_tidy s)), String_not_decoration.
  by rewrite (Unmarshal_String n k coins s Hk Hin).
Qed.

Lemma recover_share_lines (n k : Z) (coins : Coins) (shares : list Share) :
  1 <= k <= n -> (forall s, In s shares -> In s (New n k coins).1) ->
  omap recordOf (map Share_String shares) = shares
  /\ String.concat "" (map diagnosticOf (map Share_String shares)) = "".
Proof.
  intros Hk. induction shares as [|s shares IH]; intros Hin; [done|].
  destruct (recordOf_String n k coins s Hk) as [Hr Hd]; [apply Hin; by left|].
  destruct IH as [IH1 IH2]; [intros; apply Hin; by right|].
  rewrite !map_cons, omap_cons_app, concat_cons, Hr, Hd, IH1, IH2. done.
Qed.

Lemma printed_lines (k secret : Z) (shares : list Share) :
  printed k secret shares
  = println (secretLine secret) +:+ println (headerLine k)
    +:+ String.concat "" (map println (map Share_String shares)).
Proof.
  unfold printed, println, secretLine, headerLine.
  rewrite map_map, !append_assoc. reflexivity.
Qed.

Lemma secretLine_tidy (secret : Z) : tidy (chars (secretLine secret)).
Proof.
  unfold secretLine. rewrite chars_app.
  destruct (Text_visible secret 62) as [Hne Hall].
  destruct (exists_last Hne) as (m & c' & Hm). rewrite Hm in *.
  pose proof Hall as Hall'.
  apply Forall_app in Hall' as [_ Hc']. inversion Hc' as [|? ? Hv _]; subst.
  split.
  - apply Forall_app. split; [repeat constructor|].
    eapply Forall_impl; [exact Hall|]. apply visible_printable.
  - by exists "s"%char, (chars "ecret: " ++ m ++ [c']).
  - exists c', (chars "secret: " ++ m). by rewrite <- app_assoc.
Qed.

Lemma headerLine_tidy (k : Z) : tidy (chars (headerLine k)).
Proof.
  unfold headerLine. rewrite !chars_app.
  destruct (Text_visible k 10) as [_ Hall]. fold (strconv.Itoa k) in Hall.
  split.
  - apply Forall_app. split; [repeat constructor|].
    apply Forall_app. split; [|repeat constructor].
    eapply Forall_impl; [exact Hall|]. apply visible_printable.
  - by exists "s"%char,
      (chars "hares (need at least " ++ chars (strconv.Itoa k) ++ chars " of these for recovery):").
  - exists ":"%char,
      (chars "shares (need at least " ++ chars (strconv.Itoa k) ++ chars " of these for recovery)").
    split; [|done].
    rewrite <- !app_assoc. reflexivity.
Qed.

Lemma secretLine_decoration (secret : Z) :
  recordOf (secretLine secret) = None /\ diagnosticOf (secretLine secret) = "".
Proof.
  unfold recordOf, diagnosticOf. rewrite (TrimSpace_tidy _ (secretLine_tidy secret)).
  assert (decoration (secretLine secret) = true) as ->; [|done].
  unfold decoration, strings.HasPrefix, secretLine.
  rewrite prefix_app. apply orb_true_iff. left. apply orb_true_r.
Qed.

Lemma headerLine_decoration (k : Z) :
  recordOf (headerLine k) = None /\ diagnosticOf (headerLine k) = "".
Proof.
  unfold recordOf, diagnosticOf. rewrite (TrimSpace_tidy _ (headerLine_tidy k)).
  assert (decoration (headerLine k) = true) as ->; [|done].
  unfold decoration, strings.HasPrefix, headerLine.
  change "shares (need at least " with ("shares" +:+ " (need at least ").
  rewrite append_assoc, prefix_app. apply orb_true_r.
Qed.

Lemma headerLine_short (k : Z) : Z.abs k < 2 ^ 127 -> short (chars (headerLine k)).
Proof.
  intros Hk. unfold short, headerLine. rewrite !chars_app, !length_app.
  pose proof (Text_short k 10 100 Hk ltac:(lia)) as Hlen. fold (strconv.Itoa k) in Hlen.
  cbn [chars list_ascii_of_string length]. lia.
Qed.

Lemma share_lines_tidy (n k : Z) (coins : Coins) (shares : list Share) :
  (1 <= k <= n /\ n < 2 ^ 63) -> (forall s, In s shares -> In s (New n k coins).1) ->
  Forall (fun t => tidy (chars t) /\ short (chars t)) (map Share_String shares).
Proof.
  intros Hk Hin. apply List.Forall_forall. intros t Ht.
  apply in_map_iff in Ht as (s & <- & Hs). split; [apply String_tidy|].
  apply (String_short n k coins s Hk). by apply Hin.
Qed.

(** The scanner takes the printed text apart into the lines it was made of. *)
Lemma Scan_printed (n k : Z) (coins : Coins) (shares : list Share) :
  (1 <= k <= n /\ n < 2 ^ 63) -> (forall s, In s shares -> In s (New n k coins).1) ->
  bufio.Scan (printed k (New n k coins).2 shares)
  = secretLine (New n k coins).2 :: headerLine k :: map Share_String shares.
Proof.
  intros Hk Hin. rewrite printed_lines.
  rewrite (Scan_println _ _ (secretLine_tidy _)) by (apply Secret_short; lia).
  rewrite (Scan_println _ _ (headerLine_tidy k))
    by (apply headerLine_short; change (2 ^ 127) with (2 ^ 63 * 2 ^ 64); nia).
  rewrite Scan_lines; [done|]. by apply (share_lines_tidy n k coins).
Qed.

End GenerateFacts.

(** ** cmdGenerate *)

Section GenerateProps.
Context `{Tables} `{Engine} {laws : EngineLaws}.

Lemma cmdGenerate_valid (n k : Z) (coins : Coins) (draw : nat -> nat) :
  1 <= k <= n ->
  cmdGenerate n k coins draw
  = match distributed n k coins draw with
    | Some shares =>
      Returned {| err := None;
                  out := printed k (New (genSecrets n) k coins).2 shares;
                  diag := "" |}
    | None => Panicked
    end.
Proof.
  intros Hk. unfold cmdGenerate, distributed.
  replace (k >? n) with false by lia.
  replace ((n <? 1) || (k <? 1)) with false by lia.
  fold (genSecrets n). destruct (New (genSecrets n) k coins) as [pool secret].
  by destruct (sliceTo _ n).
Qed.

Lemma pool_length (total k : Z) (coins : Coins) :
  1 <= k <= total -> length (New total k coins).1 = Z.to_nat total.
Proof.
  intros Hk. rewrite <- (length_map Share_X), (New_X total k coins Hk).
  by rewrite length_map, length_seq.
Qed.

Lemma pool_NoDup_X (total k : Z) (coins : Coins) :
  1 <= k <= total -> List.NoDup (map Share_X (New total k coins).1).
Proof.
  intros Hk. rewrite (New_X total k coins Hk).
  apply Finite.Injective_map_NoDup; [|apply seq_NoDup].
  intros a b. apply Nat2Z.inj.
Qed.

Lemma pool_X_range (total k : Z) (coins : Coins) (s : Share) :
  1 <= k <= total -> In s (New total k coins).1 -> 1 <= Share_X s <= total.
Proof.
  intros Hk Hin. apply (in_map Share_X) in Hin.
  rewrite (New_X total k coins Hk) in Hin.
  apply in_map_iff in Hin as (i & <- & Hi). apply in_seq in Hi. lia.
Qed.

Lemma In_take {A} (x : A) (m : nat) (l : list A) : In x (take m l) -> In x l.
Proof. intros Hin. rewrite <- (firstn_skipn m l). apply in_or_app. by left. Qed.

Lemma NoDup_take {A} (m : nat) (l : list A) : List.NoDup l -> List.NoDup (take m l).
Proof. intros Hnd. rewrite <- (firstn_skipn m l) in Hnd. by apply NoDup_app_remove_r in Hnd. Qed.

(** Below the overflow of the square, [cmdGenerate] hands out [n] distinct
    shares of the pool. *)
Lemma distributed_spec (n k : Z) (coins : Coins) (draw : nat -> nat) :
  1 <= k <= n -> n < 3037000500 ->
  exists shares,
    distributed n k coins draw = Some shares
    /\ Z.of_nat (length shares) = n
    /\ List.NoDup shares
    /\ (forall s, In s shares -> In s (New (genSecrets n) k coins).1)
    /\ List.NoDup (map Share_X shares)
    /\ (forall s, In s shares -> 1 <= Share_X s <= genSecrets n).
Proof.
  intros Hk Hn.
  destruct (genSecrets_bounds n ltac:(lia)) as (Hge & Hmin & _).
  assert (Hk' : 1 <= k <= genSecrets n) by lia.
  pose proof (pool_length _ _ coins Hk') as Hlen.
  pose proof (pool_NoDup_X _ _ coins Hk') as HndX.
  unfold distributed. destruct (New (genSecrets n) k coins) as [pool secret] eqn:Hnew.
  cbn [fst snd] in *.
  pose proof (Shuffle_Permutation draw pool) as Hperm.
  unfold sliceTo. rewrite Shuffle_length, Hlen, Z2Nat.id by lia.
  replace ((0 <=? n) && (n <=? genSecrets n)) with true by lia.
  exists (take (Z.to_nat n) (rand.Shuffle draw pool)).
  assert (Hin : forall s, In s (take (Z.to_nat n) (rand.Shuffle draw pool)) -> In s pool).
  { intros s Hs. apply In_take in Hs. by apply (Permutation_in _ Hperm). }
  repeat split.
  - rewrite length_take_le; [lia|]. rewrite Shuffle_length, Hlen. lia.
  - apply NoDup_take. apply (Permutation_NoDup (Permutation_sym Hperm)).
    by apply NoDup_map_inv in HndX.
  - done.
  - rewrite <- firstn_map. apply NoDup_take.
    by apply (Permutation_NoDup (Permutation_map Share_X (Permutation_sym Hperm))).
  - apply (pool_X_range (genSecrets n) k coins s Hk'). rewrite Hnew. by apply Hin.
  - apply (pool_X_range (genSecrets n) k coins s Hk'). rewrite Hnew. by apply Hin.
Qed.

(** When the square of [n] overflows, the pool is smaller than [n] and the
    slice expression panics. *)
Lemma cmdGenerate_overflow (n k : Z) (coins : Coins) (draw : nat -> nat) :
  1 <= k <= n -> k <= genSecrets n < n -> cmdGenerate n k coins draw = Panicked.
Proof.
  intros Hk Hg. rewrite cmdGenerate_valid by done. unfold distributed.
  pose proof (pool_length (genSecrets n) k coins ltac:(lia)) as Hlen.
  destruct (New (genSecrets n) k coins) as [pool secret]. cbn [fst snd] in *.
  unfold sliceTo. rewrite Shuffle_length, Hlen, Z2Nat.id by lia.
  by replace ((0 <=? n) && (n <=? genSecrets n)) with false by lia.
Qed.

End GenerateProps.

(** ** The reference engine keeps the contract *)

Lemma digit_decimal (d : Z) : 0 <= d < 10 -> strconv.digitVal (big.digit d) = Some d.
Proof.
  intros Hd.
  assert (d = 0 \/ d = 1 \/ d = 2 \/ d = 3 \/ d = 4 \/ d = 5 \/ d = 6 \/ d = 7 \/ d = 8 \/ d = 9)
    as Hcases by lia.
  repeat (destruct Hcases as [->|Hcases]; [reflexivity|]). by subst.
Qed.

Lemma decimalAcc_app (a : Z) (p q : list ascii) :
  strconv.decimalAcc a (p ++ q)
  = match strconv.decimalAcc a p with
    | Some v => strconv.decimalAcc v q
    | None => None
    end.
Proof.
  revert a. induction p as [|c p IH]; intros a; simpl; [done|].
  destruct (strconv.digitVal c); [apply IH|done].
Qed.

(** With enough fuel the digits printed for [x] read back as [x]. *)
Lemma natText_decimal (fuel : nat) (x : Z) (acc : list ascii) :
  0 <= x < 2 ^ Z.of_nat fuel -> fuel <> 0%nat ->
  exists pre, big.natText fuel 10 x acc = pre ++ acc
              /\ pre <> []
              /\ Forall isDigit pre
              /\ forall a, strconv.decimalAcc a pre = Some (a * 10 ^ Z.of_nat (length pre) + x).
Proof.
  revert x acc. induction fuel as [|f IH]; intros x acc Hx Hf; [done|].
  simpl big.natText.
  pose proof (Z.mod_pos_bound x 10 ltac:(lia)) as Hmod.
  pose proof (Z.div_mod x 10 ltac:(lia)) as Hdm.
  pose proof (digit_decimal (x mod 10) Hmod) as Hdig.
  destruct (Z.eqb_spec (x / 10) 0) as [Hz|Hnz].
  - exists [big.digit (x mod 10)]. repeat split; [done| |].
    + constructor; [by exists (x mod 10)|constructor].
    + intros a. simpl. rewrite Hdig. f_equal. lia.
  - assert (Hx' : 0 <= x / 10 < 2 ^ Z.of_nat f).
    { rewrite Nat2Z.inj_succ, Z.pow_succ_r in Hx by lia.
      split; [apply Z.div_pos; lia|].
      apply Z.div_lt_upper_bound; lia. }
    assert (Hf' : f <> 0%nat).
    { intros ->. change (2 ^ Z.of_nat 0) with 1 in Hx'. lia. }
    destruct (IH (x / 10) (big.digit (x mod 10) :: acc) Hx' Hf') as (pre & -> & Hne & Hall & Hval).
    exists (pre ++ [big.digit (x mod 10)]). repeat split.
    + by rewrite <- app_assoc.
    + by destruct pre.
    + apply Forall_app. split; [done|]. constructor; [by exists (x mod 10)|constructor].
    + intros a. rewrite decimalAcc_app, Hval. simpl. rewrite Hdig. f_equal.
      rewrite length_app, Nat2Z.inj_add, Z.pow_add_r by lia. simpl length.
      change (10 ^ Z.of_nat 1) with 10. lia.
Qed.

Lemma fuelFor_enough (x : Z) : 0 <= x -> 0 <= x < 2 ^ Z.of_nat (big.fuelFor x).
Proof.
  intros Hx. split; [done|]. unfold big.fuelFor.
  rewrite Nat2Z.inj_succ, Z2Nat.id by apply Z.log2_nonneg.
  destruct (Z.eq_dec x 0) as [->|]; [done|].
  apply Z.log2_spec. lia.
Qed.

(** The decimal text of a natural number: digits that read back. *)
Lemma Itoa_nonneg (x : Z) :
  0 <= x ->
  chars (strconv.Itoa x) <> []
  /\ Forall isDigit (chars (strconv.Itoa x))
  /\ strconv.decimal (chars (strconv.Itoa x)) = Some x.
Proof.
  intros Hx. unfold strconv.Itoa, big.Text.
  replace (x <? 0) with false by lia. rewrite append_nil_l, chars_text, Z.abs_eq by done.
  destruct (natText_decimal (big.fuelFor x) x [] (fuelFor_enough x Hx)) as (pre & -> & Hne & Hall & Hval);
    [done|].
  rewrite app_nil_r. repeat split; [done|done|].
  unfold strconv.decimal. destruct pre; [done|]. rewrite Hval. f_equal; lia.
Qed.

Lemma Itoa_signed (x : Z) :
  chars (strconv.Itoa x) <> []
  /\ Forall (fun c => shareChar c = true /\ c <> ","%char) (chars (strconv.Itoa x))
  /\ strconv.signedDecimal (chars (strconv.Itoa x)) = Some x.
Proof.
  assert (Hdig : forall c, isDigit c ->
            (shareChar c = true /\ c <> ","%char) /\ c <> "-"%char /\ c <> "+"%char).
  { intros c [d Hd]. unfold strconv.digitVal in Hd.
    destruct ((48 <=? byte_of c) && (byte_of c <=? 57)) eqn:Hb; [|done].
    repeat split.
    - unfold shareChar. by rewrite Hb.
    - intros ->. discriminate Hb.
    - intros ->. discriminate Hb.
    - intros ->. discriminate Hb. }
  destruct (Z.lt_ge_cases x 0) as [Hneg|Hpos].
  - destruct (Itoa_nonneg (- x) ltac:(lia)) as (Hne & Hall & Hval).
    assert (Heq : chars (strconv.Itoa x) = "-"%char :: chars (strconv.Itoa (- x))).
    { unfold strconv.Itoa, big.Text. rewrite Z.abs_opp.
      replace (x <? 0) with true by lia. replace (- x <? 0) with false by lia.
      by rewrite append_nil_l. }
    rewrite Heq. repeat split; [done| |].
    + constructor; [done|]. eapply Forall_impl; [exact Hall|]. intros c Hc. by apply Hdig.
    + simpl. rewrite Hval. simpl. f_equal. lia.
  - destruct (Itoa_nonneg x Hpos) as (Hne & Hall & Hval). repeat split; [done| |].
    + eapply Forall_impl; [exact Hall|]. intros c Hc. by apply Hdig.
    + destruct (chars (strconv.Itoa x)) as [|c r]; [done|].
      inversion Hall as [|? ? Hc _]; subst. destruct (Hdig c Hc) as (_ & Hm & Hp).
      unfold strconv.signedDecimal.
      apply Ascii.eqb_neq in Hm, Hp. by rewrite Hm, Hp.
Qed.

Lemma splitAcc_last (sep : ascii) (acc l : list ascii) :
  Forall (fun c => c <> sep) l -> strings.splitAcc sep acc l = [text (rev acc ++ l)].
Proof.
  revert acc. induction l as [|c l IH]; intros acc Hl; simpl.
  - by rewrite app_nil_r.
  - inversion Hl as [|? ? Hc Hl']; subst. apply Ascii.eqb_neq in Hc. rewrite Hc.
    rewrite (IH _ Hl'). simpl. by rewrite <- app_assoc.
Qed.

Lemma splitAcc_sep (sep : ascii) (acc l r : list ascii) :
  Forall (fun c => c <> sep) l ->
  strings.splitAcc sep acc (l ++ sep :: r) = text (rev acc ++ l) :: strings.splitAcc sep [] r.
Proof.
  revert acc. induction l as [|c l IH]; intros acc Hl; simpl.
  - by rewrite Ascii.eqb_refl, app_nil_r.
  - inversion Hl as [|? ? Hc Hl']; subst. apply Ascii.eqb_neq in Hc. rewrite Hc.
    rewrite (IH _ Hl'). simpl. by rewrite <- app_assoc.
Qed.

Lemma valueAt_range (p : list Z) (v : Z) :
  0 <= sharedsecret.valueAt p v < sharedsecret.prime.
Proof.
  destruct p; cbn [sharedsecret.valueAt]; [done|]. apply Z.mod_pos_bound. reflexivity.
Qed.

Lemma valueAt_nonneg (p : list Z) (v : Z) : 0 <= sharedsecret.valueAt p v.
Proof. apply valueAt_range. Qed.

Lemma shamir_String_read (vx vy : Z) :
  0 <= vy ->
  sharedsecret.UnmarshalText (sharedsecret.String {| sharedsecret.x := vx; sharedsecret.y := vy |})
  = inr {| sharedsecret.x := vx; sharedsecret.y := vy |}.
Proof.
  intros Hy. unfold sharedsecret.UnmarshalText, sharedsecret.String, strings.Split.
  cbn [sharedsecret.x sharedsecret.y].
  destruct (Itoa_signed vx) as (_ & Hx & Hxv).
  destruct (Itoa_nonneg vy Hy) as (_ & Hyd & Hyv).
  rewrite chars_app, append_cons, chars_cons, append_nil_l.
  rewrite splitAcc_sep by (eapply Forall_impl; [exact Hx|]; by intros c [_ ?]).
  rewrite splitAcc_last.
  - simpl rev. rewrite !app_nil_l, !text_chars, Hxv, Hyv. done.
  - eapply Forall_impl; [exact Hyd|]. intros c [d Hd] ->. discriminate Hd.
Qed.

Lemma shamir_laws : @EngineLaws shamir.
Proof.
  split.
  - intros n k coins _. cbn. unfold sharedsecret.New. cbn [fst].
    rewrite map_map. by apply map_ext.
  - intros [vx vy]. cbn. unfold sharedsecret.String. cbn [sharedsecret.x sharedsecret.y].
    destruct (Itoa_signed vx) as (Hne & Hx & _). destruct (Itoa_signed vy) as (_ & Hy & _).
    rewrite !chars_app. split.
    + intros Heq. by apply app_eq_nil in Heq as [? _].
    + apply Forall_app. split; [by eapply Forall_impl; [exact Hx|]; intros c [? _]|].
      apply Forall_app. split; [repeat constructor|].
      by eapply Forall_impl; [exact Hy|]; intros c [? _].
  - intros n k coins s _ Hin. cbn in *. unfold sharedsecret.New in Hin. cbn [fst] in Hin.
    apply in_map_iff in Hin as (i & <- & _).
    apply shamir_String_read, valueAt_nonneg.
  - intros n k coins s Hk Hin. cbn in *. unfold sharedsecret.New in Hin. cbn [fst] in Hin.
    apply in_map_iff in Hin as (i & <- & Hi). apply in_seq in Hi.
    unfold short, sharedsecret.String. cbn [sharedsecret.x sharedsecret.y].
    rewrite !chars_app, !length_app.
    pose proof (valueAt_range (sharedsecret.polynom k coins) (Z.of_nat i)) as Hy.
    pose proof (Text_short (Z.of_nat i) 10 0) as Hx.
    pose proof (Text_short (sharedsecret.valueAt (sharedsecret.polynom k coins) (Z.of_nat i)) 10 0)
      as Hy'.
    unfold strconv.Itoa, bufio.MaxScanTokenSize in *.
    change (2 ^ 127) with (2 ^ 63 * 2 ^ 64) in *. unfold sharedsecret.prime in Hy.
    change (2 ^ 63) with 9223372036854775808 in *. change (2 ^ 64) with 18446744073709551616 in *.
    cbn [chars list_ascii_of_string length].
    pose proof (Text_length (Z.of_nat i) 10) as Hlx.
    pose proof (Text_length (sharedsecret.valueAt (sharedsecret.polynom k coins) (Z.of_nat i)) 10)
      as Hly.
    assert (Z.log2 (Z.abs (Z.of_nat i)) < 64).
    { destruct (Z.eq_dec (Z.abs (Z.of_nat i)) 0) as [->|]; [done|]. apply Z.log2_lt_pow2; lia. }
    assert (Z.log2 (Z.abs (sharedsecret.valueAt (sharedsecret.polynom k coins) (Z.of_nat i))) < 128).
    { destruct (Z.eq_dec (Z.abs (sharedsecret.valueAt (sharedsecret.polynom k coins) (Z.of_nat i))) 0)
        as [->|]; [done|].
      apply Z.log2_lt_pow2; [lia|]. change (2 ^ 128) with (2 * (9223372036854775808 * 18446744073709551616)). lia. }
    lia.
  - intros n k coins _. cbn. unfold sharedsecret.New. cbn [snd].
    unfold short. rewrite chars_app, length_app.
    pose proof (valueAt_range (sharedsecret.polynom k coins) 0) as Hy.
    pose proof (Text_short (sharedsecret.valueAt (sharedsecret.polynom k coins) 0) 62 100) as Hs.
    cbn [chars list_ascii_of_string length]. unfold sharedsecret.prime in Hy.
    change (2 ^ 127 - 1) with (2 ^ 127 - 1) in Hy. lia.
Qed.

(** * The claims *)

(** C2, as stated, fails: for [n = 0] and [k = 1] the share count is not
    positive, yet the error is the one about too few shares, because
    [cmdGenerate] tests [k > n] first. *)
Lemma cmdGenerate_0_1_reports_not_enough :
  (0 < 1 \/ 1 < 1)
  /\ errorOf (@cmdGenerate shamir 0 1 sampleCoins sampleDraw) = Some notEnough
  /\ errorOf (@cmdGenerate shamir 0 1 sampleCoins sampleDraw) <> Some notPositive.
Proof. split; [lia|]. split; [reflexivity|discriminate]. Qed.

(** C2, amended: [cmdGenerate(n, k)] returns an error exactly when [k > n]
    or [n < 1] or [k < 1]; the error is the one about too few shares when
    [k > n], and the one about positive share counts when [k <= n] and
    [n < 1] or [k < 1].  Nothing is written in either case. *)
Theorem cmdGenerate_validation `{Engine} (n k : Z) (coins : Coins) (draw : nat -> nat) :
  (errorOf (cmdGenerate n k coins draw) <> None <-> k > n \/ n < 1 \/ k < 1)
  /\ (k > n ->
      cmdGenerate n k coins draw = Returned {| err := Some notEnough; out := ""; diag := "" |})
  /\ (k <= n -> n < 1 \/ k < 1 ->
      cmdGenerate n k coins draw = Returned {| err := Some notPositive; out := ""; diag := "" |}).
Proof.
  unfold cmdGenerate.
  destruct (Z.gtb_spec k n) as [Hgt|Hle].
  - split; [|split]; [|done|lia]. split; [lia|done].
  - destruct ((n <? 1) || (k <? 1)) eqn:Hpos.
    + split; [|split]; [|lia|done]. split; [lia|done].
    + split; [|split]; [|lia|lia]. split; [|lia].
      intros Herr. exfalso. apply Herr.
      destruct (New _ k coins) as [pool secret]. by destruct (sliceTo _ n).
Qed.

(** C4, as stated, fails: for [n = 94906267] the square of [n] is odd and
    above [2^53], so no [float64] holds it, and the pool size is not
    [max(n^2, 10000)]. *)
Lemma genSecrets_94906267_inexact :
  1 <= 1 <= 94906267
  /\ genSecrets 94906267 = 94906267 * 94906267 - 1
  /\ genSecrets 94906267 <> Z.max (94906267 * 94906267) minShares.
Proof. split; [lia|]. split; [by vm_compute|]. vm_compute. discriminate. Qed.

(** C4, amended: for valid [(n, k)] with [n <= 94906265], where the square
    of [n] is below [2^53], [cmdGenerate] asks the engine for exactly
    [max(n^2, 10000)] shares. *)
Theorem cmdGenerate_pool_size `{Engine} (n k : Z) (coins : Coins) (draw : nat -> nat) :
  1 <= k <= n -> n <= 94906265 ->
  genSecrets n = Z.max (n * n) minShares
  /\ cmdGenerate n k coins draw
     = let '(shares, secret) := New (Z.max (n * n) minShares) k coins in
       match sliceTo (rand.Shuffle draw shares) n with
       | None => Panicked
       | Some shares => Returned {| err := None; out := printed k secret shares; diag := "" |}
       end.
Proof.
  intros Hk Hn. pose proof (genSecrets_exact n ltac:(lia)) as Hg. split; [done|].
  rewrite <- Hg. unfold cmdGenerate.
  replace (k >? n) with false by lia.
  by replace ((n <? 1) || (k <? 1)) with false by lia.
Qed.

Lemma cmdGenerate_pool_size_5_3 :
  1 <= 3 <= 5 /\ 5 <= 94906265
  /\ genSecrets 5 = Z.max (5 * 5) minShares
  /\ @cmdGenerate shamir 5 3 sampleCoins sampleDraw
     = let '(shares, secret) := @New shamir (Z.max (5 * 5) minShares) 3 sampleCoins in
       match sliceTo (rand.Shuffle sampleDraw shares) 5 with
       | None => Panicked
       | Some shares =>
         Returned {| err := None; out := @printed shamir 3 secret shares; diag := "" |}
       end.
Proof.
  split; [lia|]. split; [lia|].
  apply (@cmdGenerate_pool_size shamir 5 3 sampleCoins sampleDraw); lia.
Defined.

(** What the scanner yields is not always every line of the input: a line of
    [MaxScanTokenSize] bytes or more ends the scan.  [cmdRecover] does not
    look at the scanner's error, so the lines read before it are all it
    recovers from. *)
Lemma cmdRecover_stops_at_long_line `{Tables} `{Engine} (before long rest : string) :
  Forall (fun c => c <> "010"%char) (chars long) ->
  bufio.MaxScanTokenSize <= Z.of_nat (length (chars long)) ->
  tidy (chars before) -> short (chars before) ->
  bufio.Scan (println before +:+ long +:+ rest) = [before]
  /\ cmdRecover (Some (println before +:+ long +:+ rest)) = cmdRecover (Some (println before)).
Proof.
  intros Hlong Hlen Htidy Hshort.
  assert (Hscan : bufio.Scan (println before +:+ long +:+ rest) = [before]).
  { rewrite (Scan_println _ _ Htidy Hshort). f_equal.
    unfold bufio.Scan. rewrite chars_app.
    apply scanAcc_too_long; [done|]. unfold bufio.MaxScanTokenSize in *. lia. }
  assert (Hscan' : bufio.Scan (println before) = [before]).
  { rewrite <- (append_nil_r (println before)). by rewrite (Scan_println _ _ Htidy Hshort). }
  split; [done|]. by rewrite !cmdRecover_spec, Hscan, Hscan'.
Qed.

(** X24: the skip rule, over the lines the scanner yields.  A line whose
    trimmed text is empty or starts with ["secret: "] or with ["shares"]
    leaves the state of the loop as it is: no record, no diagnostic; and a
    run over an input from which the scanner yields the line gives what the
    run over an input from which it yields the same lines without it gives.
    Any other line either adds the share read from its trimmed text to the
    records, or adds one diagnostic that quotes the trimmed text and states
    the cause. *)
Theorem decoration_skipped `{Tables} `{Engine}
    (line : string) (secrets : list Share) (d : string) :
  let t := strings.TrimSpace line in
  let skip := t = "" \/ strings.HasPrefix t "secret: " = true \/ strings.HasPrefix t "shares" = true in
  ((skip /\ recoverLine (secrets, d) line = (secrets, d))
   \/ (~ skip /\ exists s, Share_UnmarshalText t = inr s
                           /\ recoverLine (secrets, d) line = (secrets ++ [s], d))
   \/ (~ skip /\ exists e, Share_UnmarshalText t = inl e
                           /\ recoverLine (secrets, d) line
                              = (secrets,
                                 d +:+ "reading share " +:+ strconv.Quote quoteOther t
                                   +:+ ": " +:+ e +:+ newline)))
  /\ (skip ->
      forall input input' before after,
        bufio.Scan input = before ++ line :: after ->
        bufio.Scan input' = before ++ after ->
        cmdRecover (Some input) = cmdRecover (Some input')).
Proof.
  intros t skip.
  assert (Hskip : decoration t = true <-> skip).
  { unfold decoration, skip. rewrite !orb_true_iff, String.eqb_eq. tauto. }
  split.
  - unfold recoverLine. fold t. destruct (decoration t) eqn:Hd.
    + left. split; [by apply Hskip|done].
    + right. assert (~ skip) by (rewrite <- Hskip; congruence).
      destruct (Share_UnmarshalText t) as [e|s]; [right|left]; split; eauto.
  - intros Hs input input' before after Hin Hin'.
    rewrite !cmdRecover_spec, Hin, Hin'.
    assert (recordOf line = None /\ diagnosticOf line = "") as [Hr Hd].
    { apply Hskip in Hs. unfold recordOf, diagnosticOf. fold t. by rewrite Hs. }
    rewrite !omap_app, !map_app, omap_cons_app, map_cons, Hr, Hd.
    by rewrite !concat_app, concat_cons.
Qed.

Lemma trimLeft_blank (n : nat) : strings.trimLeft (repeat " "%char n) = [].
Proof. induction n as [|n IH]; [done|]. exact IH. Qed.

Lemma TrimSpace_blank (n : nat) : strings.TrimSpace (text (repeat " "%char n)) = "".
Proof.
  unfold strings.TrimSpace. by rewrite chars_text, trimLeft_blank.
Qed.

Lemma blankLine_chars :
  Forall (fun c => c <> "010"%char) (chars blankLine)
  /\ Z.of_nat (length (chars blankLine)) = bufio.MaxScanTokenSize.
Proof.
  unfold blankLine. rewrite chars_text, repeat_length. split.
  - apply List.Forall_forall. intros c Hc. by apply repeat_spec in Hc as ->.
  - unfold bufio.MaxScanTokenSize. lia.
Qed.

(** C5: a blank line is not always skipped without consequence.  A line
    of spaces as long as the scanner's buffer trims to the empty text, and
    the loop of [cmdRecover] would skip it and go on; but the scanner stops
    at it with [ErrTooLong], and [cmdRecover] never looks at the scanner's
    error: the run over the input that has the line prints the secret of
    the single share before it, where the run over the input without it
    prints the secret of the three shares. *)
Lemma cmdRecover_long_blank_line_aborts :
  strings.TrimSpace blankLine = ""
  /\ @cmdRecover asciiTables shamir
       (Some (println "1,19943338053965968504353533017903769217"
              +:+ println blankLine
              +:+ println "2,161872477868088873785792630750634181303"
              +:+ println "5,160274174127002500413544256698187925606"))
     = Returned {| err := None; out := println "sjjHwsGfB9qmtvEPH1DWh"; diag := "" |}
  /\ @cmdRecover asciiTables shamir (Some threeShares)
     = Returned {| err := None; out := println "7uPIBqGKMPpProBYFFR3S"; diag := "" |}.
Proof.
  split; [apply TrimSpace_blank|]. split; [|by vm_compute].
  destruct blankLine_chars as [Hnl Hlen].
  unfold println at 2. rewrite (append_assoc blankLine).
  destruct (@cmdRecover_stops_at_long_line asciiTables shamir
              "1,19943338053965968504353533017903769217" blankLine
              (newline +:+ println "2,161872477868088873785792630750634181303"
               +:+ println "5,160274174127002500413544256698187925606")) as [_ ->];
    [done|lia| |by vm_compute|by vm_compute].
  apply tidy_visible; [done|]. repeat constructor.
Qed.


(** X25: fail-soft parsing, for inputs whose lines fit the buffer of the
    scanner.  [cmdRecover] returns no error; for each malformed line it
    writes one diagnostic, ["reading share "], the trimmed line quoted,
    [": "], the cause and a newline, in the order of the lines; the records
    are those of the other lines, in order; and the secret printed is the
    one printed for the input without the malformed lines, which then has
    no diagnostics. *)
Theorem cmdRecover_fail_soft `{Tables} `{Engine} (input : string) :
  Forall short (bufio.lines input) ->
  let lines := map bufio.token (bufio.lines input) in
  cmdRecover (Some input)
  = Returned {| err := None;
                out := println (big.Text (Recover (omap recordOf lines)) 62);
                diag := String.concat "" (map diagnosticOf lines) |}
  /\ (forall line,
        diagnosticOf line
        = if malformed line
          then "reading share " +:+ strconv.Quote quoteOther (strings.TrimSpace line) +:+ ": "
               +:+ match Share_UnmarshalText (strings.TrimSpace line) with
                   | inl e => e
                   | inr _ => ""
                   end +:+ newline
          else "")
  /\ (forall line, malformed line = true -> recordOf line = None)
  /\ (forall input',
        Forall short (bufio.lines input') ->
        map bufio.token (bufio.lines input')
        = List.filter (fun l => negb (malformed l)) lines ->
        cmdRecover (Some input')
        = Returned {| err := None;
                      out := println (big.Text (Recover (omap recordOf lines)) 62);
                      diag := "" |}).
Proof.
  intros Hshort lines. split; [|split; [|split]].
  - by rewrite cmdRecover_spec, Scan_all.
  - intros line. unfold diagnosticOf, malformed.
    destruct (decoration _); [done|]. by destruct (Share_UnmarshalText _).
  - apply malformed_record.
  - intros input' Hshort' Hin'. rewrite cmdRecover_spec, Scan_all, Hin' by done.
    by rewrite omap_recordOf_filter, diagnostics_filter.
Qed.

(** The garbage of the repository's test: three diagnostics, and the
    secret of the three shares. *)
Example cmdRecover_with_garbage :
  @cmdRecover asciiTables shamir (Some sharesWithGarbage)
  = Returned
      {| err := None;
         out := println "7uPIBqGKMPpProBYFFR3S";
         diag := println ("reading share " +:+ strconv.dquote +:+ "foo" +:+ strconv.dquote
                          +:+ ": expected two parts")
                 +:+ println ("reading share " +:+ strconv.dquote +:+ "bar" +:+ strconv.dquote
                              +:+ ": expected two parts")
                 +:+ println ("reading share " +:+ strconv.dquote +:+ "this is some random junk"
                              +:+ strconv.dquote +:+ ": expected two parts") |}.
Proof. vm_compute. reflexivity. Qed.

Lemma longLine_chars :
  Forall (fun c => c <> "010"%char) (chars longLine)
  /\ Z.of_nat (length (chars longLine)) = bufio.MaxScanTokenSize.
Proof.
  unfold longLine. rewrite chars_text, repeat_length. split.
  - apply List.Forall_forall. intros c Hc. by apply repeat_spec in Hc as ->.
  - unfold bufio.MaxScanTokenSize. lia.
Qed.

(** A run of the letter x is garbage for the parser, whatever its length. *)
Lemma malformed_garbage (n : nat) :
  (0 < n)%nat -> @malformed shamir (text (repeat "x"%char n)) = true.
Proof.
  intros Hn. destruct n as [|n]; [lia|].
  assert (Hvis : Forall (fun c => visible c = true) (repeat "x"%char (S n))).
  { apply List.Forall_forall. intros c Hc. by apply repeat_spec in Hc as ->. }
  assert (Hsep : Forall (fun c => c <> ","%char) (repeat "x"%char (S n))).
  { apply List.Forall_forall. intros c Hc. by apply repeat_spec in Hc as ->. }
  unfold malformed.
  rewrite TrimSpace_tidy by (rewrite chars_text; by apply tidy_visible).
  change (@Share_UnmarshalText shamir) with sharedsecret.UnmarshalText.
  unfold sharedsecret.UnmarshalText, strings.Split.
  rewrite chars_text, (splitAcc_last _ _ _ Hsep).
  reflexivity.
Qed.

(** Lines are short when a run of the test on their lengths says so. *)
Lemma short_lines (ls : list (list ascii)) :
  forallb (fun l => Z.of_nat (length l) <? bufio.MaxScanTokenSize) ls = true ->
  Forall short ls.
Proof.
  intros Hall. apply List.Forall_forall. intros l Hl.
  apply (proj1 (forallb_forall _ _) Hall) in Hl. unfold short. lia.
Qed.

(** C6: one bad line can abort the batch.  A malformed line as long as the
    scanner's buffer among valid share lines gets no diagnostic: the
    scanner stops at it with [ErrTooLong], [cmdRecover] never looks at the
    scanner's error, and the secret printed is the one of the single share
    read before the line, not the one of the three shares. *)
Lemma cmdRecover_long_line_aborts :
  @malformed shamir longLine = true
  /\ @cmdRecover asciiTables shamir
       (Some (println "1,19943338053965968504353533017903769217"
              +:+ println longLine
              +:+ println "2,161872477868088873785792630750634181303"
              +:+ println "5,160274174127002500413544256698187925606"))
     = Returned {| err := None; out := println "sjjHwsGfB9qmtvEPH1DWh"; diag := "" |}
  /\ @cmdRecover asciiTables shamir (Some threeShares)
     = Returned {| err := None; out := println "7uPIBqGKMPpProBYFFR3S"; diag := "" |}.
Proof.
  split; [apply malformed_garbage; unfold bufio.MaxScanTokenSize; lia|].
  split; [|by vm_compute].
  destruct longLine_chars as [Hnl Hlen].
  unfold println at 2. rewrite (append_assoc longLine).
  destruct (@cmdRecover_stops_at_long_line asciiTables shamir
              "1,19943338053965968504353533017903769217" longLine
              (newline +:+ println "2,161872477868088873785792630750634181303"
               +:+ println "5,160274174127002500413544256698187925606")) as [_ ->];
    [done|lia| |by vm_compute|by vm_compute].
  apply tidy_visible; [done|]. repeat constructor.
Qed.

Lemma cmdRecover_fail_soft_garbage :
  Forall short (bufio.lines sharesWithGarbage)
  /\ let lines := map bufio.token (bufio.lines sharesWithGarbage) in
     @cmdRecover asciiTables shamir (Some sharesWithGarbage)
     = Returned {| err := None;
                   out := println (big.Text (@Recover shamir
                                               (omap (@recordOf shamir) lines)) 62);
                   diag := String.concat "" (map (@diagnosticOf asciiTables shamir) lines) |}
     /\ (forall line,
           @diagnosticOf asciiTables shamir line
           = if @malformed shamir line
             then "reading share " +:+ strconv.Quote (@quoteOther asciiTables) (strings.TrimSpace line)
                  +:+ ": "
                  +:+ match @Share_UnmarshalText shamir (strings.TrimSpace line) with
                      | inl e => e
                      | inr _ => ""
                      end +:+ newline
             else "")
     /\ (forall line, @malformed shamir line = true ->
                      @recordOf shamir line = None)
     /\ (forall input',
           Forall short (bufio.lines input') ->
           map bufio.token (bufio.lines input')
           = List.filter (fun l => negb (@malformed shamir l)) lines ->
           @cmdRecover asciiTables shamir (Some input')
           = Returned {| err := None;
                         out := println (big.Text (@Recover shamir
                                                     (omap (@recordOf shamir) lines)) 62);
                         diag := "" |}).
Proof.
  assert (Hshort : Forall short (bufio.lines sharesWithGarbage)).
  { apply short_lines. vm_compute. reflexivity. }
  split; [exact Hshort|].
  exact (@cmdRecover_fail_soft asciiTables shamir sharesWithGarbage Hshort).
Defined.

(** C7: the three shares of the repository's test recover the secret
    ["7uPIBqGKMPpProBYFFR3S"], with no diagnostic. *)
Theorem cmdRecover_only_shares :
  @cmdRecover asciiTables shamir
    (Some ("1,19943338053965968504353533017903769217" +:+ newline +:+
           "2,161872477868088873785792630750634181303" +:+ newline +:+
           "5,160274174127002500413544256698187925606"))
  = Returned {| err := None; out := println "7uPIBqGKMPpProBYFFR3S"; diag := "" |}.
Proof. vm_compute. reflexivity. Qed.

(** The pasted output of the repository's test: the two heading lines are
    skipped and the five shares recover the secret of the first line. *)
Example cmdRecover_from_output :
  @cmdRecover asciiTables shamir
    (Some ("secret: 1tMC82zztRsFLxQAz3ohEG" +:+ newline +:+
           "shares:" +:+ newline +:+
           "1,9039905250649971436987941679095917908" +:+ newline +:+
           "2,149669079771399886069631951128619842789" +:+ newline +:+
           "3,146260035808749368841095381324331189475" +:+ newline +:+
           "4,168953956823167651483065535982114063693" +:+ newline +:+
           "5,47609659354185502263855111386084359716"))
  = Returned {| err := None; out := println "1tMC82zztRsFLxQAz3ohEG"; diag := "" |}.
Proof. vm_compute. reflexivity. Qed.

(** C8, as stated, fails: on the empty input no record is read, and
    [cmdRecover] still writes a line, the text of what the engine returns
    for no shares. *)
Lemma cmdRecover_empty_input_writes :
  (@recoverLines asciiTables shamir (bufio.Scan "")).1 = []
  /\ @cmdRecover asciiTables shamir (Some "")
     = Returned {| err := None; out := println "0"; diag := "" |}
  /\ println "0" <> "".
Proof. split; [reflexivity|]. split; [by vm_compute|discriminate]. Qed.

(** C8, amended: when no record is read from the input, [cmdRecover]
    writes exactly one line to its output: the base-62 text of what the
    engine's [Recover] returns for no shares. *)
Theorem cmdRecover_no_records `{Tables} `{Engine} (input : string) :
  (recoverLines (bufio.Scan input)).1 = [] ->
  exists d,
    cmdRecover (Some input)
    = Returned {| err := None; out := println (big.Text (Recover []) 62); diag := d |}
    /\ println (big.Text (Recover []) 62) <> "".
Proof.
  intros Hnone. unfold cmdRecover.
  destruct (recoverLines (bufio.Scan input)) as [secrets d]. cbn [fst] in Hnone. subst.
  exists d. split; [done|]. unfold println.
  destruct (big.Text (Recover []) 62); discriminate.
Qed.

Lemma cmdRecover_no_records_garbage :
  (@recoverLines asciiTables shamir
     (bufio.Scan ("secret: abc" +:+ newline +:+ newline +:+ "foo"))).1 = []
  /\ exists d,
       @cmdRecover asciiTables shamir (Some ("secret: abc" +:+ newline +:+ newline +:+ "foo"))
       = Returned {| err := None; out := println (big.Text (@Recover shamir []) 62); diag := d |}
       /\ println (big.Text (@Recover shamir []) 62) <> "".
Proof.
  split; [by vm_compute|].
  apply (@cmdRecover_no_records asciiTables shamir
           ("secret: abc" +:+ newline +:+ newline +:+ "foo")).
  by vm_compute.
Defined.

(** The threshold property gives the secret back from the shares that
    [cmdGenerate] hands out. *)
Lemma Threshold_distributed `{Engine} {laws : EngineLaws} (n k : Z) (coins : Coins)
    (draw : nat -> nat) :
  Threshold -> 1 <= k <= n -> n < 3037000500 ->
  forall shares, distributed n k coins draw = Some shares ->
                 Recover shares = (New (genSecrets n) k coins).2.
Proof.
  intros Hth Hk Hn shares Hd.
  destruct (distributed_spec n k coins draw Hk Hn) as (shares' & Hd' & Hlen & Hnd & Hin & _).
  rewrite Hd in Hd'. injection Hd' as <-.
  destruct (genSecrets_bounds n ltac:(lia)) as (Hge & _).
  apply Hth; [lia|done|done|lia].
Qed.

(** C3: [cmdGenerate] does not write [n] share lines for every valid
    [(n, k)].  For [n = 4000000000] the square of [n] does not fit an
    [int64], the pool falls back to 10000 shares, fewer than the [n] to
    select from it, and the slice expression [shares[:n]] panics: no share
    line is written. *)
Lemma cmdGenerate_4000000000_panics :
  1 <= 2 <= 4000000000
  /\ genSecrets 4000000000 = 10000
  /\ @cmdGenerate shamir 4000000000 2 sampleCoins sampleDraw = Panicked.
Proof.
  split; [lia|]. split; [by vm_compute|].
  apply (@cmdGenerate_overflow shamir shamir_laws); [lia|].
  replace (genSecrets 4000000000) with 10000 by (by vm_compute). lia.
Qed.

(** X23: for valid [(n, k)] with [n < 3037000500], where the square
    of [n] fits an [int64], [cmdGenerate] writes the secret line, the
    heading with [k] and then exactly [n] share lines; the shares are [n]
    distinct elements of the pool the engine returned; their indices are
    distinct and lie between 1 and the size of the pool, which is
    [max(n^2, 10000)] up to [n = 94906265] and at most [n^2 + 512] beyond. *)
Theorem cmdGenerate_shares `{Engine} {laws : EngineLaws} (n k : Z) (coins : Coins)
    (draw : nat -> nat) :
  1 <= k <= n -> n < 3037000500 ->
  let pool := (New (genSecrets n) k coins).1 in
  let secret := (New (genSecrets n) k coins).2 in
  exists shares,
    cmdGenerate n k coins draw
    = Returned {| err := None; out := printed k secret shares; diag := "" |}
    /\ bufio.Scan (printed k secret shares)
       = ("secret: " +:+ big.Text secret 62)
         :: ("shares (need at least " +:+ strconv.Itoa k +:+ " of these for recovery):")
         :: map Share_String shares
    /\ Z.of_nat (length shares) = n
    /\ List.NoDup shares
    /\ (forall s, In s shares -> In s pool)
    /\ List.NoDup (map Share_X shares)
    /\ (forall s, In s shares -> 1 <= Share_X s <= genSecrets n)
    /\ genSecrets n <= Z.max (n * n + 512) minShares
    /\ (n <= 94906265 -> genSecrets n = Z.max (n * n) minShares).
Proof.
  intros Hk Hn pool secret.
  destruct (distributed_spec n k coins draw Hk Hn) as (shares & Hd & Hlen & Hnd & Hin & HndX & HX).
  exists shares. rewrite cmdGenerate_valid, Hd by done.
  destruct (genSecrets_bounds n ltac:(lia)) as (Hge & _).
  split; [done|]. split; [by apply (@Scan_printed _ laws); [lia|]|].
  repeat split; try done.
  - apply HX. done.
  - apply HX. done.
  - by destruct (genSecrets_bounds n ltac:(lia)) as (_ & _ & _ & ?).
  - intros Hsmall. apply genSecrets_exact. lia.
Qed.

Lemma cmdGenerate_shares_5_3 :
  1 <= 3 <= 5 /\ 5 < 3037000500
  /\ let pool := (@New shamir (genSecrets 5) 3 sampleCoins).1 in
     let secret := (@New shamir (genSecrets 5) 3 sampleCoins).2 in
     exists shares,
       @cmdGenerate shamir 5 3 sampleCoins sampleDraw
       = Returned {| err := None; out := @printed shamir 3 secret shares; diag := "" |}
       /\ bufio.Scan (@printed shamir 3 secret shares)
          = ("secret: " +:+ big.Text secret 62)
            :: ("shares (need at least " +:+ strconv.Itoa 3 +:+ " of these for recovery):")
            :: map (@Share_String shamir) shares
       /\ Z.of_nat (length shares) = 5
       /\ List.NoDup shares
       /\ (forall s, In s shares -> In s pool)
       /\ List.NoDup (map (@Share_X shamir) shares)
       /\ (forall s, In s shares -> 1 <= @Share_X shamir s <= genSecrets 5)
       /\ genSecrets 5 <= Z.max (5 * 5 + 512) minShares
       /\ (5 <= 94906265 -> genSecrets 5 = Z.max (5 * 5) minShares).
Proof.
  split; [lia|]. split; [lia|].
  apply (@cmdGenerate_shares shamir shamir_laws 5 3 sampleCoins sampleDraw); lia.
Defined.

(** C1: there is no round trip for every valid [(n, k)].  For
    [n = 3037000500] the square of [n] does not fit an [int64], the pool
    falls back to 10000 shares, and [cmdGenerate] panics at the slice
    expression [shares[:n]]: there is no output to feed to [cmdRecover]. *)
Lemma cmdGenerate_3037000500_panics :
  1 <= 1 <= 3037000500
  /\ @cmdGenerate shamir 3037000500 1 sampleCoins sampleDraw = Panicked.
Proof.
  split; [lia|].
  apply (@cmdGenerate_overflow shamir shamir_laws); [lia|].
  replace (genSecrets 3037000500) with 10000 by (by vm_compute). lia.
Qed.

(** X22: the round trip, for valid [(n, k)] with [n < 3037000500], where
    the square of [n] fits an [int64], and an engine that recovers the
    secret from the shares handed out (its threshold contract): the whole
    text [cmdGenerate] writes starts with the secret line, and [cmdRecover]
    over that text, unmodified, writes the base-62 text of the secret and a
    newline, with no diagnostic and no error; over the share lines alone it
    writes the same. *)
Theorem generate_recover_roundtrip `{Tables} `{Engine} {laws : EngineLaws}
    (n k : Z) (coins : Coins) (draw : nat -> nat) :
  1 <= k <= n -> n < 3037000500 ->
  (forall shares, distributed n k coins draw = Some shares ->
                  Recover shares = (New (genSecrets n) k coins).2) ->
  let secret := (New (genSecrets n) k coins).2 in
  exists output rest,
    cmdGenerate n k coins draw = Returned {| err := None; out := output; diag := "" |}
    /\ output = println ("secret: " +:+ big.Text secret 62) +:+ rest
    /\ cmdRecover (Some output)
       = Returned {| err := None; out := println (big.Text secret 62); diag := "" |}
    /\ cmdRecover (Some (String.concat "" (map println (drop 2 (bufio.Scan output)))))
       = Returned {| err := None; out := println (big.Text secret 62); diag := "" |}.
Proof.
  intros Hk Hn Hrec secret.
  destruct (distributed_spec n k coins draw Hk Hn) as (shares & Hd & _ & _ & Hin & _).
  destruct (genSecrets_bounds n ltac:(lia)) as (Hge & _).
  destruct (recover_share_lines (genSecrets n) k coins shares ltac:(lia) Hin) as [Hr Hdg].
  exists (printed k secret shares). eexists.
  split; [by rewrite cmdGenerate_valid, Hd|].
  split; [apply printed_lines|].
  rewrite !cmdRecover_spec. unfold secret.
  rewrite (@Scan_printed _ laws (genSecrets n) k coins shares ltac:(lia) Hin).
  change (drop 2 (?a :: ?b :: map Share_String shares)) with (map Share_String shares).
  rewrite Scan_lines by (by apply (share_lines_tidy (genSecrets n) k coins); [lia|]).
  destruct (secretLine_decoration (New (genSecrets n) k coins).2) as [Hs1 Hs2].
  destruct (headerLine_decoration k) as [Hh1 Hh2].
  rewrite (omap_cons_None _ _ _ Hs1), (omap_cons_None _ _ _ Hh1).
  rewrite !map_cons, !concat_cons, Hs2, Hh2, Hr, Hdg, !append_nil_l.
  by rewrite (Hrec shares Hd).
Qed.

(** The threshold property of the scheme is enough for the round trip. *)
Corollary roundtrip_of_threshold `{Tables} `{Engine} {laws : EngineLaws}
    (n k : Z) (coins : Coins) (draw : nat -> nat) :
  Threshold -> 1 <= k <= n -> n < 3037000500 ->
  exists output,
    cmdGenerate n k coins draw = Returned {| err := None; out := output; diag := "" |}
    /\ cmdRecover (Some output)
       = Returned {| err := None;
                     out := println (big.Text (New (genSecrets n) k coins).2 62);
                     diag := "" |}.
Proof.
  intros Hth Hk Hn.
  destruct (distributed_spec n k coins draw Hk Hn) as (shares & Hd & _ & _ & Hin & _).
  destruct (genSecrets_bounds n ltac:(lia)) as (Hge & _).
  destruct (recover_share_lines (genSecrets n) k coins shares ltac:(lia) Hin) as [Hr Hdg].
  exists (printed k (New (genSecrets n) k coins).2 shares).
  split; [by rewrite cmdGenerate_valid, Hd|].
  rewrite cmdRecover_spec.
  rewrite (@Scan_printed _ laws (genSecrets n) k coins shares ltac:(lia) Hin).
  destruct (secretLine_decoration (New (genSecrets n) k coins).2) as [Hs1 Hs2].
  destruct (headerLine_decoration k) as [Hh1 Hh2].
  rewrite (omap_cons_None _ _ _ Hs1), (omap_cons_None _ _ _ Hh1).
  rewrite !map_cons, !concat_cons, Hs2, Hh2, Hr, Hdg, !append_nil_l.
  by rewrite (Threshold_distributed n k coins draw Hth Hk Hn shares Hd).
Qed.


Lemma swap_same {A} (i : nat) (s : list A) : rand.swap i i s = s.
Proof.
  unfold rand.swap. destruct (s !! i) as [a|] eqn:Ha; [|done].
  by rewrite !(list_insert_id s i a Ha).
Qed.

(** Draws that leave the upper indices in place: the shuffle reduces to
    its last turns. *)
Lemma shuffleFrom_upper {A} (draw : nat -> nat) (m i : nat) (s : list A) :
  (forall j, (m < j)%nat -> draw j = j) -> (m <= i)%nat ->
  rand.shuffleFrom draw i s = rand.shuffleFrom draw m s.
Proof.
  intros Hdraw Hmi. induction i as [|i IH]; [by replace m with 0%nat by lia|].
  destruct (decide (m = S i)) as [->|Hne]; [done|].
  cbn [rand.shuffleFrom]. rewrite (Hdraw (S i)) by lia.
  rewrite Nat.mod_small by lia. rewrite swap_same. apply IH. lia.
Qed.

Lemma swap_app_l {A} (i j : nat) (l1 l2 : list A) :
  (i < length l1)%nat -> (j < length l1)%nat ->
  rand.swap i j (l1 ++ l2) = rand.swap i j l1 ++ l2.
Proof.
  intros Hi Hj. unfold rand.swap. rewrite !lookup_app_l by done.
  destruct (l1 !! i), (l1 !! j); try done.
  rewrite !insert_app_l; [done| |done]. by rewrite length_insert.
Qed.

(** The last turns of the shuffle stay within the front of the slice. *)
Lemma shuffleFrom_app_l {A} (draw : nat -> nat) (m : nat) (l1 l2 : list A) :
  (m < length l1)%nat ->
  rand.shuffleFrom draw m (l1 ++ l2) = rand.shuffleFrom draw m l1 ++ l2.
Proof.
  revert l1. induction m as [|m IH]; intros l1 Hm; [done|].
  cbn [rand.shuffleFrom].
  pose proof (Nat.mod_upper_bound (draw (S m)) (S m + 1) ltac:(lia)).
  rewrite swap_app_l by lia. apply IH. rewrite swap_length. lia.
Qed.

Lemma sample_shuffle :
  take (Z.to_nat 5) (rand.Shuffle sampleDraw (@New shamir 10000 3 sampleCoins).1)
  = sampleShares.
Proof.
  change (@New shamir 10000 3 sampleCoins) with (sharedsecret.New 10000 3 sampleCoins).
  change (Z.to_nat 5) with 5%nat. change (@Share shamir) with sharedsecret.share.
  assert (Hup : forall j, (4 < j)%nat -> sampleDraw j = j).
  { intros j Hj. unfold sampleDraw. destruct (Nat.leb_spec j 4); [lia|done]. }
  unfold sharedsecret.New, rand.Shuffle. cbn [fst].
  replace (Z.to_nat 10000) with (5 + Z.to_nat 9995)%nat by lia.
  rewrite seq_app, map_app.
  set (front := map _ (seq 1 5)). set (back := map _ (seq (1 + 5) _)).
  assert (Hfront : length front = 5%nat) by done.
  clearbody back. rewrite length_app, Hfront.
  rewrite (shuffleFrom_upper sampleDraw 4 _ _ Hup) by lia.
  rewrite shuffleFrom_app_l by (rewrite Hfront; lia).
  rewrite take_app_length'.
  - by vm_compute.
  - by rewrite (Permutation_length (shuffleFrom_Permutation sampleDraw 4 front)).
Qed.

Lemma sample_distributed :
  @distributed shamir 5 3 sampleCoins sampleDraw = Some sampleShares.
Proof.
  unfold distributed. replace (genSecrets 5) with 10000 by (by vm_compute).
  assert (Hlen : Z.of_nat (length (rand.Shuffle sampleDraw (@New shamir 10000 3 sampleCoins).1))
                 = 10000).
  { rewrite Shuffle_length, (@pool_length shamir shamir_laws) by lia. lia. }
  rewrite (surjective_pairing (@New shamir 10000 3 sampleCoins)). cbv beta iota.
  unfold sliceTo. rewrite Hlen.
  replace ((0 <=? 5) && (5 <=? 10000)) with true by lia.
  exact (f_equal Some sample_shuffle).
Qed.

Lemma generate_recover_roundtrip_5_3 :
  1 <= 3 <= 5 /\ 5 < 3037000500
  /\ (forall shares, @distributed shamir 5 3 sampleCoins sampleDraw = Some shares ->
                     @Recover shamir shares = (@New shamir (genSecrets 5) 3 sampleCoins).2)
  /\ let secret := (@New shamir (genSecrets 5) 3 sampleCoins).2 in
     exists output rest,
       @cmdGenerate shamir 5 3 sampleCoins sampleDraw
       = Returned {| err := None; out := output; diag := "" |}
       /\ output = println ("secret: " +:+ big.Text secret 62) +:+ rest
       /\ @cmdRecover asciiTables shamir (Some output)
          = Returned {| err := None; out := println (big.Text secret 62); diag := "" |}
       /\ @cmdRecover asciiTables shamir
            (Some (String.concat "" (map println (drop 2 (bufio.Scan output)))))
          = Returned {| err := None; out := println (big.Text secret 62); diag := "" |}.
Proof.
  assert (Hrec : forall shares,
             @distributed shamir 5 3 sampleCoins sampleDraw = Some shares ->
             @Recover shamir shares = (@New shamir (genSecrets 5) 3 sampleCoins).2).
  { intros shares Hd. rewrite sample_distributed in Hd. injection Hd as <-.
    cbn [New Recover shamir]. unfold sharedsecret.New. cbn [snd].
    vm_compute. reflexivity. }
  split; [lia|]. split; [lia|]. split; [exact Hrec|].
  apply (@generate_recover_roundtrip asciiTables shamir shamir_laws 5 3 sampleCoins sampleDraw);
    [lia|lia|exact Hrec].
Defined.

(** ** main *)

(** C9, as stated, fails: [main] declares no mode flag.  A mode string on
    the command line, recognised by the spec or not, is an undefined flag:
    the [flag] package reports it with the usage text and exits with status
    2, not 1. *)
Lemma main_mode_string_rejected :
  @main asciiTables shamir (sampleEnv ["-mode=bogus"] "" noFiles)
  = {| status := Exit 2; stdout := "";
       stderr := println "flag provided but not defined: -mode" +:+ flag.Usage "secret";
       closed := [] |}
  /\ @main asciiTables shamir (sampleEnv ["-mode"; "recover"] threeShares noFiles)
     = {| status := Exit 2; stdout := "";
          stderr := println "flag provided but not defined: -mode" +:+ flag.Usage "secret";
          closed := [] |}
  /\ Exit 2 <> Exit 1.
Proof. split; [by vm_compute|]. split; [by vm_compute|discriminate]. Qed.

Lemma Parse_mode `{Tables} (v : string) (rest : list string) (f : flag.Flags) :
  flag.Parse (("-mode=" +:+ v) :: rest) f = flag.Failed "flag provided but not defined: -mode".
Proof.
  cbn [flag.Parse]. rewrite chars_app.
  change (chars "-mode=") with ["-"; "m"; "o"; "d"; "e"; "="]%char.
  cbn [app Ascii.eqb negb Bool.eqb andb orb flag.cut flag.cutAcc rev].
  by rewrite text_chars.
Qed.

Lemma Parse_recover `{Tables} :
  flag.Parse ["-recover"] flag.defaults = flag.Ok (flag.setRecover flag.defaults true).
Proof. reflexivity. Qed.

(** C9, amended: the command line selects between exactly two modes with
    the boolean flag [-recover]: without arguments [main] generates, with
    the defaults [n = 5] and [k = 3]; with [-recover] it recovers from
    standard input.  There is no mode string and no error for an unknown
    mode: a [-mode] flag is rejected by the [flag] package with the usage
    text and exit status 2, and exit status 1 comes only from [die], after
    a validation error of [cmdGenerate] (with the usage text) or after a
    failure to open the file of shares (without it). *)
Theorem main_mode_selection `{Tables} `{Engine} (env : Env) :
  (Args env = [] ->
   forall output,
     cmdGenerate 5 3 (EngineCoins env) (Draw env)
     = Returned {| err := None; out := output; diag := "" |} ->
     main env = {| status := Exit 0; stdout := output; stderr := ""; closed := [] |})
  /\ (Args env = ["-recover"] ->
      forall r, cmdRecover (Some (Stdin env)) = Returned r ->
                main env = {| status := Exit 0; stdout := out r; stderr := diag r; closed := [] |})
  /\ (forall v rest, Args env = ("-mode=" +:+ v) :: rest ->
        main env
        = {| status := Exit 2; stdout := "";
             stderr := println "flag provided but not defined: -mode" +:+ flag.Usage (Args0 env);
             closed := [] |})
  /\ (status (main env) = Exit 1 ->
      exists f e,
        flag.Parse (Args env) flag.defaults = flag.Ok f
        /\ ((flag.doRecover f = false
             /\ errorOf (cmdGenerate (flag.numShares f) (flag.minShares f)
                           (EngineCoins env) (Draw env)) = Some e
             /\ stderr (main env)
                = println e +:+ newline +:+ "Usage of " +:+ Args0 env +:+ ":" +:+ newline
                  +:+ flag.PrintDefaults)
            \/ (flag.doRecover f = true
                /\ flag.secrets f <> "-"
                /\ Open env (flag.secrets f) = inl e
                /\ stderr (main env) = println e))).
Proof.
  split; [|split; [|split]].
  - intros Hargs output Hgen. unfold main. rewrite Hargs.
    change (flag.Parse [] flag.defaults) with (flag.Ok flag.defaults).
    cbv beta iota. unfold flag.defaults.
    cbn [flag.doRecover flag.numShares flag.minShares negb]. by rewrite Hgen.
  - intros Hargs r Hrec. unfold main. rewrite Hargs, Parse_recover.
    cbv beta iota. unfold flag.setRecover, flag.defaults.
    cbn [flag.doRecover flag.secrets negb]. rewrite String.eqb_refl, Hrec.
    unfold cmdRecover in Hrec.
    destruct (recoverLines _) as [secrets d]. by injection Hrec as <-.
  - intros v rest Hargs. unfold main. by rewrite Hargs, Parse_mode.
  - unfold main. destruct (flag.Parse (Args env) flag.defaults) as [f| |msg]; [|done|done].
    destruct (flag.doRecover f) eqn:Hmode; cbn [negb].
    + destruct (String.eqb_spec (flag.secrets f) "-") as [Hstd|Hfile].
      * unfold cmdRecover. destruct (recoverLines _). done.
      * destruct (Open env (flag.secrets f)) as [e|content] eqn:Hopen; [|done].
        intros _. exists f, e. split; [done|]. right. cbn. by rewrite append_nil_r.
    + destruct (cmdGenerate _ _ _ _) as [r|] eqn:Hgen; [|done].
      destruct (err r) as [e|] eqn:Herr; [|done].
      intros _. exists f, e. split; [done|]. left. by rewrite Hgen.
Qed.

(** C10: with [-recover -secrets shares.txt] and a file that opens,
    [cmdRecover] does not read the file.  The short variable declaration
    in the [default] case shadows [fh]; the reader [main] passes on is the
    nil one declared before the switch, and the first [Scan] panics.  The
    deferred [Close] of the opened file runs while the panic unwinds. *)
Theorem main_recover_from_file_panics :
  @main asciiTables shamir
    (sampleEnv ["-recover"; "-secrets"; "shares.txt"] ""
       (fun name => if String.eqb name "shares.txt" then inr threeShares else noFiles name))
  = {| status := Crash; stdout := ""; stderr := ""; closed := ["shares.txt"] |}.
Proof. by vm_compute. Qed.

(** The same shares on standard input are read. *)
Example main_recover_from_stdin :
  @main asciiTables shamir (sampleEnv ["-recover"] threeShares noFiles)
  = {| status := Exit 0; stdout := println "7uPIBqGKMPpProBYFFR3S"; stderr := ""; closed := [] |}.
Proof. by vm_compute. Qed.

(** * Further properties *)

(** ** White space around the lines *)

Lemma trimLeft_cons (c : ascii) (r : list ascii) :
  strings.trimLeft (c :: r)
  = if strings.asciiSpace c then strings.trimLeft r
    else
      match r with
      | [] => c :: r
      | c1 :: r1 =>
        if (byte_of c =? 194) && ((byte_of c1 =? 133) || (byte_of c1 =? 160))
        then strings.trimLeft r1
        else
          match r1 with
          | [] => c :: r
          | c2 :: r2 =>
            if ((byte_of c =? 225) && (byte_of c1 =? 154) && (byte_of c2 =? 128))
               || ((byte_of c =? 226) && (byte_of c1 =? 128) && strings.spaceE280 (byte_of c2))
               || ((byte_of c =? 226) && (byte_of c1 =? 129) && (byte_of c2 =? 159))
               || ((byte_of c =? 227) && (byte_of c1 =? 128) && (byte_of c2 =? 128))
            then strings.trimLeft r2
            else c :: r
          end
      end.
Proof. destruct r as [|c1 [|c2 r2]]; reflexivity. Qed.

Lemma trimLeftRev_cons (c : ascii) (r : list ascii) :
  strings.trimLeftRev (c :: r)
  = if strings.asciiSpace c then strings.trimLeftRev r
    else
      match r with
      | [] => c :: r
      | c1 :: r1 =>
        if (byte_of c1 =? 194) && ((byte_of c =? 133) || (byte_of c =? 160))
        then strings.trimLeftRev r1
        else
          match r1 with
          | [] => c :: r
          | c2 :: r2 =>
            if ((byte_of c2 =? 225) && (byte_of c1 =? 154) && (byte_of c =? 128))
               || ((byte_of c2 =? 226) && (byte_of c1 =? 128) && strings.spaceE280 (byte_of c))
               || ((byte_of c2 =? 226) && (byte_of c1 =? 129) && (byte_of c =? 159))
               || ((byte_of c2 =? 227) && (byte_of c1 =? 128) && (byte_of c =? 128))
            then strings.trimLeftRev r2
            else c :: r
          end
      end.
Proof. destruct r as [|c1 [|c2 r2]]; reflexivity. Qed.

Lemma asciiSpace_byte (c : ascii) : strings.asciiSpace c = true -> 9 <= byte_of c <= 32.
Proof. unfold strings.asciiSpace. lia. Qed.

(** White space in front is dropped, whatever follows. *)
Lemma trimLeft_spaces_app (pre s : list ascii) :
  Forall (fun c => strings.asciiSpace c = true) pre ->
  strings.trimLeft (pre ++ s) = strings.trimLeft s.
Proof.
  induction 1 as [|c pre Hc _ IH]; [done|].
  cbn [app]. by rewrite trimLeft_cons, Hc.
Qed.

Lemma trimLeftRev_spaces_app (pre s : list ascii) :
  Forall (fun c => strings.asciiSpace c = true) pre ->
  strings.trimLeftRev (pre ++ s) = strings.trimLeftRev s.
Proof.
  induction 1 as [|c pre Hc _ IH]; [done|].
  cbn [app]. by rewrite trimLeftRev_cons, Hc.
Qed.

(** ASCII white space behind a text completes no white-space rune: what
    is left of the text keeps it. *)
Lemma trimLeft_app_spaces (post : list ascii) :
  Forall (fun c => strings.asciiSpace c = true) post ->
  forall s, strings.trimLeft (s ++ post)
            = match strings.trimLeft s with [] => [] | t => t ++ post end.
Proof.
  intros Hpost s. remember (length s) as n eqn:Hn. revert s Hn.
  induction n as [n IH] using lt_wf_ind. intros s Hn.
  assert (Hnil : strings.trimLeft post = []).
  { rewrite <- (app_nil_r post). by rewrite trimLeft_spaces_app. }
  destruct s as [|c r]; [exact Hnil|].
  cbn [app]. rewrite !trimLeft_cons.
  destruct (strings.asciiSpace c) eqn:Hc.
  { apply (IH (length r)); [cbn [length] in Hn; lia|done]. }
  destruct r as [|c1 r1].
  { cbn [app]. destruct Hpost as [|p1 post Hp1 Hpost]; [done|].
    apply asciiSpace_byte in Hp1.
    replace ((byte_of p1 =? 133) || (byte_of p1 =? 160)) with false by lia.
    rewrite andb_false_r.
    destruct Hpost as [|p2 post Hp2 Hpost]; [done|].
    apply asciiSpace_byte in Hp2.
    replace (byte_of p1 =? 154) with false by lia.
    replace (byte_of p1 =? 128) with false by lia.
    replace (byte_of p1 =? 129) with false by lia.
    by rewrite !andb_false_r. }
  cbn [app].
  destruct ((byte_of c =? 194) && ((byte_of c1 =? 133) || (byte_of c1 =? 160))).
  { apply (IH (length r1)); [cbn [length] in Hn; lia|done]. }
  destruct r1 as [|c2 r2].
  { cbn [app]. destruct Hpost as [|p1 post Hp1 Hpost]; [done|].
    apply asciiSpace_byte in Hp1.
    replace (byte_of p1 =? 128) with false by lia.
    replace (byte_of p1 =? 159) with false by lia.
    replace (strings.spaceE280 (byte_of p1)) with false by (unfold strings.spaceE280; lia).
    by rewrite !andb_false_r. }
  cbn [app].
  destruct (_ || _).
  { apply (IH (length r2)); [cbn [length] in Hn; lia|done]. }
  done.
Qed.

(** White space on either side of a text leaves [TrimSpace] as it is on the
    text alone. *)
Lemma TrimSpace_pad (pre s post : list ascii) :
  Forall (fun c => strings.asciiSpace c = true) pre ->
  Forall (fun c => strings.asciiSpace c = true) post ->
  strings.TrimSpace (text (pre ++ s ++ post)) = strings.TrimSpace (text s).
Proof.
  intros Hpre Hpost. unfold strings.TrimSpace. rewrite !chars_text.
  rewrite (trimLeft_spaces_app _ _ Hpre), (trimLeft_app_spaces _ Hpost).
  destruct (strings.trimLeft s) as [|c t] eqn:Ht; [done|].
  unfold strings.trimRight. rewrite rev_app_distr.
  rewrite trimLeftRev_spaces_app; [done|].
  apply List.Forall_forall. intros x Hx. apply in_rev in Hx.
  by apply (proj1 (List.Forall_forall _ _) Hpost).
Qed.

(** ** The scanner over whole inputs *)

Lemma linesAcc_line (acc l rest : list ascii) :
  Forall (fun c => c <> "010"%char) l ->
  bufio.linesAcc acc (l ++ "010"%char :: rest) = (rev acc ++ l) :: bufio.linesAcc [] rest.
Proof.
  revert acc. induction l as [|c l IH]; intros acc Hl.
  - cbn [app bufio.linesAcc]. by rewrite app_nil_r.
  - inversion Hl as [|? ? Hc Hl']; subst. apply Ascii.eqb_neq in Hc.
    cbn [app bufio.linesAcc]. rewrite Hc, (IH _ Hl'). cbn [rev]. by rewrite <- app_assoc.
Qed.

Lemma lines_println (ls : list (list ascii)) :
  Forall (Forall (fun c => c <> "010"%char)) ls ->
  bufio.lines (String.concat "" (map (fun l => println (text l)) ls)) = ls.
Proof.
  induction 1 as [|l ls Hl _ IH]; [done|].
  rewrite map_cons, concat_cons. unfold bufio.lines, println, newline in *.
  rewrite append_assoc, chars_app, chars_text, append_cons, chars_cons, append_nil_l.
  rewrite (linesAcc_line _ _ _ Hl). cbn [rev app]. by rewrite IH.
Qed.

(** The token of a line trims to what the line trims to: the carriage
    return the scanner drops is white space. *)
Lemma TrimSpace_token (line : list ascii) :
  strings.TrimSpace (bufio.token line) = strings.TrimSpace (text line).
Proof.
  unfold bufio.token, bufio.dropCR.
  destruct (rev line) as [|c r] eqn:Hrev.
  - apply (f_equal (@rev ascii)) in Hrev. rewrite rev_involutive in Hrev. by subst.
  - destruct (Ascii.eqb_spec c "013"%char) as [->|_].
    + apply (f_equal (@rev ascii)) in Hrev. rewrite rev_involutive in Hrev. cbn [rev] in Hrev.
      subst line.
      rewrite <- (TrimSpace_pad [] (rev r) ["013"%char]); [done|done|].
      by repeat constructor.
    + by rewrite <- Hrev, rev_involutive.
Qed.

Section TrimmedLines.
Context `{Tables} `{Engine}.

(** The loop of [cmdRecover] sees a line through [TrimSpace] only. *)
Lemma recoverLine_trimmed (a b : string) :
  strings.TrimSpace a = strings.TrimSpace b ->
  recordOf a = recordOf b /\ diagnosticOf a = diagnosticOf b.
Proof. intros Heq. unfold recordOf, diagnosticOf. by rewrite Heq. Qed.

Lemma recoverLines_trimmed (la lb : list string) :
  Forall2 (fun a b => strings.TrimSpace a = strings.TrimSpace b) la lb ->
  recoverLines la = recoverLines lb.
Proof.
  intros Hall. rewrite !recoverLines_spec.
  induction Hall as [|a b la lb Hab _ IH]; [done|].
  destruct (recoverLine_trimmed a b Hab) as [Hr Hd].
  injection IH as IH1 IH2.
  by rewrite !omap_cons_app, !map_cons, !concat_cons, Hr, Hd, IH1, IH2.
Qed.

End TrimmedLines.

Lemma blank_space (c : ascii) : blank c = true -> strings.asciiSpace c = true.
Proof. unfold blank. intros Hb. by apply andb_true_iff in Hb as [? _]. Qed.

Lemma blank_not_newline (c : ascii) : blank c = true -> c <> "010"%char.
Proof.
  unfold blank. intros Hb Hc. apply andb_true_iff in Hb as [_ Hn].
  subst c. discriminate Hn.
Qed.


(** X1: white space around the lines of an input changes nothing.  For lines
    that fit the scanner's buffer with their padding, [cmdRecover] over the
    input whose lines carry indentation, trailing spaces, tabs or carriage
    returns returns what it returns over the input with the bare lines: the
    same records, the same diagnostics, the same output. *)
Theorem cmdRecover_white_space `{Tables} `{Engine} (ls : list paddedLine) :
  Forall (fun l => Forall (fun c => blank c = true) (lead l ++ trail l)
                   /\ Forall (fun c => c <> "010"%char) (body l)
                   /\ short (lead l ++ body l ++ trail l)) ls ->
  cmdRecover (Some (String.concat "" (map (fun l => println (withPadding l)) ls)))
  = cmdRecover (Some (String.concat "" (map (fun l => println (withoutPadding l)) ls))).
Proof.
  intros Hall.
  assert (Hpad : bufio.Scan (String.concat "" (map (fun l => println (withPadding l)) ls))
                 = map bufio.token (map (fun l => lead l ++ body l ++ trail l) ls)).
  { assert (Hl : bufio.lines (String.concat "" (map (fun l => println (withPadding l)) ls))
                 = map (fun l => lead l ++ body l ++ trail l) ls).
    { rewrite <- (lines_println (map (fun l => lead l ++ body l ++ trail l) ls)).
      - by rewrite map_map.
      - apply List.Forall_forall. intros x Hx. apply in_map_iff in Hx as (l & <- & Hin).
        apply (proj1 (List.Forall_forall _ _) Hall) in Hin as (Hb & Hbody & _).
        apply Forall_app in Hb as [Hlead Htrail].
        apply Forall_app. split; [|apply Forall_app; split; [done|]].
        + eapply Forall_impl; [exact Hlead|]. apply blank_not_newline.
        + eapply Forall_impl; [exact Htrail|]. apply blank_not_newline. }
    rewrite Scan_all; rewrite Hl; [done|].
    apply List.Forall_forall. intros x Hx. apply in_map_iff in Hx as (l & <- & Hin).
    by apply (proj1 (List.Forall_forall _ _) Hall) in Hin as (_ & _ & ?). }
  assert (Hbare : bufio.Scan (String.concat "" (map (fun l => println (withoutPadding l)) ls))
                  = map bufio.token (map body ls)).
  { assert (Hl : bufio.lines (String.concat "" (map (fun l => println (withoutPadding l)) ls))
                 = map body ls).
    { rewrite <- (lines_println (map body ls)).
      - by rewrite map_map.
      - apply List.Forall_forall. intros x Hx. apply in_map_iff in Hx as (l & <- & Hin).
        by apply (proj1 (List.Forall_forall _ _) Hall) in Hin as (_ & ? & _). }
    rewrite Scan_all; rewrite Hl; [done|].
    apply List.Forall_forall. intros x Hx. apply in_map_iff in Hx as (l & <- & Hin).
    apply (proj1 (List.Forall_forall _ _) Hall) in Hin as (_ & _ & Hshort).
    unfold short in *. rewrite !length_app in Hshort. lia. }
  unfold cmdRecover. rewrite Hpad, Hbare.
  rewrite (recoverLines_trimmed _ (map bufio.token (map body ls))); [done|].
  clear Hpad Hbare. induction Hall as [|l ls (Hb & _ & _) _ IH]; [constructor|].
  cbn [map]. constructor; [|exact IH].
  rewrite !TrimSpace_token. apply Forall_app in Hb as [Hlead Htrail].
  apply TrimSpace_pad; (eapply Forall_impl; [eassumption|]; apply blank_space).
Qed.

Lemma cmdRecover_white_space_dos :
  Forall (fun l => Forall (fun c => blank c = true) (lead l ++ trail l)
                   /\ Forall (fun c => c <> "010"%char) (body l)
                   /\ short (lead l ++ body l ++ trail l)) paddedShares
  /\ @cmdRecover asciiTables shamir
       (Some (String.concat "" (map (fun l => println (withPadding l)) paddedShares)))
     = @cmdRecover asciiTables shamir
         (Some (String.concat "" (map (fun l => println (withoutPadding l)) paddedShares))).
Proof.
  assert (Hall : Forall (fun l => Forall (fun c => blank c = true) (lead l ++ trail l)
                                  /\ Forall (fun c => c <> "010"%char) (body l)
                                  /\ short (lead l ++ body l ++ trail l)) paddedShares).
  { unfold paddedShares. repeat constructor; try discriminate. }
  split; [exact Hall|].
  exact (@cmdRecover_white_space asciiTables shamir paddedShares Hall).
Defined.

(** The scanner over an input and the same input with a newline added at
    its end: the same tokens, and at most one empty token more. *)
Lemma scanAcc_final_newline (room : Z) (acc s : list ascii) :
  exists extra,
    (extra = [] \/ extra = [""])
    /\ bufio.scanAcc room acc (s ++ ["010"%char]) = bufio.scanAcc room acc s ++ extra.
Proof.
  revert room acc. induction s as [|c s IH]; intros room acc.
  - destruct acc as [|a acc].
    + exists [""]. split; [by right|reflexivity].
    + exists []. split; [by left|reflexivity].
  - cbn [app bufio.scanAcc]. destruct (Ascii.eqb c "010"%char).
    + destruct (IH (bufio.MaxScanTokenSize - 1) []) as (extra & Hextra & ->).
      by exists extra.
    + destruct (room <=? 0); [exists []; split; [by left|done]|]. apply IH.
Qed.

(** X2: a newline at the end of the input is of no consequence: [cmdRecover]
    returns the same for every input with and without it. *)
Theorem cmdRecover_final_newline `{Tables} `{Engine} (input : string) :
  cmdRecover (Some (input +:+ newline)) = cmdRecover (Some input).
Proof.
  unfold cmdRecover, bufio.Scan. rewrite chars_app.
  destruct (scanAcc_final_newline (bufio.MaxScanTokenSize - 1) [] (chars input))
    as (extra & Hextra & Hscan).
  change (chars newline) with ["010"%char]. rewrite Hscan.
  rewrite !recoverLines_spec, omap_app, map_app, concat_app.
  destruct Hextra as [-> | ->].
  - by rewrite app_nil_r, append_nil_r.
  - change (omap recordOf [""]) with (@nil Share).
    change (String.concat "" (map diagnosticOf [""])) with "".
    by rewrite app_nil_r, append_nil_r.
Qed.

(** The scanner over two inputs one after the other, when the first ends
    with a newline and its lines fit the buffer. *)
Lemma scanAcc_app (room : Z) (acc a b : list ascii) :
  room + Z.of_nat (length acc) = bufio.MaxScanTokenSize - 1 ->
  Forall short (bufio.linesAcc acc (a ++ ["010"%char])) ->
  bufio.scanAcc room acc (a ++ "010"%char :: b)
  = bufio.scanAcc room acc (a ++ ["010"%char]) ++ bufio.scanAcc (bufio.MaxScanTokenSize - 1) [] b.
Proof.
  revert room acc. induction a as [|c a IH]; intros room acc Hroom Hshort.
  - reflexivity.
  - cbn [app bufio.scanAcc bufio.linesAcc] in *. destruct (Ascii.eqb c "010"%char).
    + inversion Hshort as [|? ? _ Hrest]; subst.
      rewrite (IH (bufio.MaxScanTokenSize - 1) []); [done|cbn [length]; lia|done].
    + destruct (Z.leb_spec room 0) as [Hfull|Hroom'].
      * exfalso. destruct (linesAcc_first (c :: acc) (a ++ ["010"%char]) ltac:(done))
          as (first & others & Heq & Hlen).
        rewrite Heq in Hshort. inversion Hshort as [|? ? Hfirst _]; subst.
        unfold short in Hfirst. cbn [length] in Hlen. lia.
      * apply IH; [cbn [length]; lia|done].
Qed.

Lemma Scan_app (a b : string) :
  Forall short (bufio.lines (println a)) ->
  bufio.Scan (println a +:+ b) = bufio.Scan (println a) ++ bufio.Scan b.
Proof.
  intros Hshort. unfold bufio.Scan, bufio.lines, println, newline in *.
  rewrite append_assoc, !chars_app. rewrite chars_app in Hshort.
  change (chars (String "010"%char "")) with ["010"%char] in *.
  apply scanAcc_app; [cbn [length]; lia|done].
Qed.

(** X3: inputs compose.  When the first input ends with a newline and its
    lines fit the scanner's buffer, the loop of [cmdRecover] over the two
    inputs one after the other ends with the records of the first followed
    by the records of the second, and with the diagnostics of the first
    followed by those of the second; the secret printed is the one the
    engine recovers from all of those records. *)
Theorem cmdRecover_concat `{Tables} `{Engine} (a b : string) :
  Forall short (bufio.lines (println a)) ->
  readShares (println a +:+ b)
  = ((readShares (println a)).1 ++ (readShares b).1,
     (readShares (println a)).2 +:+ (readShares b).2)
  /\ cmdRecover (Some (println a +:+ b))
     = Returned {| err := None;
                   out := println (big.Text (Recover ((readShares (println a)).1
                                                      ++ (readShares b).1)) 62);
                   diag := (readShares (println a)).2 +:+ (readShares b).2 |}.
Proof.
  intros Hshort.
  assert (Hread : readShares (println a +:+ b)
                  = ((readShares (println a)).1 ++ (readShares b).1,
                     (readShares (println a)).2 +:+ (readShares b).2)).
  { unfold readShares. rewrite (Scan_app a b Hshort), !recoverLines_spec.
    cbn [fst snd]. by rewrite omap_app, map_app, concat_app. }
  split; [exact Hread|].
  unfold cmdRecover. fold (readShares (println a +:+ b)). by rewrite Hread.
Qed.

Lemma cmdRecover_concat_shares :
  Forall short (bufio.lines (println "1,19943338053965968504353533017903769217"))
  /\ @readShares asciiTables shamir
       (println "1,19943338053965968504353533017903769217" +:+ sharesWithGarbage)
     = ((@readShares asciiTables shamir
           (println "1,19943338053965968504353533017903769217")).1
        ++ (@readShares asciiTables shamir sharesWithGarbage).1,
        (@readShares asciiTables shamir
           (println "1,19943338053965968504353533017903769217")).2
        +:+ (@readShares asciiTables shamir sharesWithGarbage).2)
  /\ @cmdRecover asciiTables shamir
       (Some (println "1,19943338053965968504353533017903769217" +:+ sharesWithGarbage))
     = Returned
         {| err := None;
            out := println (big.Text
                              (@Recover shamir
                                 ((@readShares asciiTables shamir
                                     (println "1,19943338053965968504353533017903769217")).1
                                  ++ (@readShares asciiTables shamir sharesWithGarbage).1)) 62);
            diag := (@readShares asciiTables shamir
                       (println "1,19943338053965968504353533017903769217")).2
                    +:+ (@readShares asciiTables shamir sharesWithGarbage).2 |}.
Proof.
  assert (Hshort : Forall short
                     (bufio.lines (println "1,19943338053965968504353533017903769217"))).
  { apply short_lines. vm_compute. reflexivity. }
  split; [exact Hshort|].
  exact (@cmdRecover_concat asciiTables shamir
           "1,19943338053965968504353533017903769217" sharesWithGarbage Hshort).
Defined.

(** X4: nothing is read past a line that fills the scanner's buffer.  A run
    of [MaxScanTokenSize] bytes or more without a newline, at the start of
    the input or after lines that fit the buffer, ends the reading:
    [cmdRecover] returns what it returns for the input cut in front of that
    line, whatever comes after it, and reports nothing. *)
Theorem cmdRecover_cut_at_long_line `{Tables} `{Engine} (long rest : string) :
  Forall (fun c => c <> "010"%char) (chars long) ->
  bufio.MaxScanTokenSize <= Z.of_nat (length (chars long)) ->
  cmdRecover (Some (long +:+ rest)) = cmdRecover (Some "")
  /\ forall a, Forall short (bufio.lines (println a)) ->
               cmdRecover (Some (println a +:+ long +:+ rest)) = cmdRecover (Some (println a)).
Proof.
  intros Hlong Hlen.
  assert (Hscan : bufio.Scan (long +:+ rest) = []).
  { unfold bufio.Scan. rewrite chars_app.
    apply scanAcc_too_long; [done|]. unfold bufio.MaxScanTokenSize in *. lia. }
  split.
  - unfold cmdRecover. by rewrite Hscan.
  - intros a Hshort. unfold cmdRecover.
    by rewrite (Scan_app a (long +:+ rest) Hshort), Hscan, app_nil_r.
Qed.

Lemma cmdRecover_cut_at_longLine :
  Forall (fun c => c <> "010"%char) (chars longLine)
  /\ bufio.MaxScanTokenSize <= Z.of_nat (length (chars longLine))
  /\ @cmdRecover asciiTables shamir (Some (longLine +:+ threeShares))
     = @cmdRecover asciiTables shamir (Some "")
  /\ forall a, Forall short (bufio.lines (println a)) ->
               @cmdRecover asciiTables shamir (Some (println a +:+ longLine +:+ threeShares))
               = @cmdRecover asciiTables shamir (Some (println a)).
Proof.
  destruct longLine_chars as [Hnl Hlen].
  split; [exact Hnl|]. split; [lia|].
  apply (@cmdRecover_cut_at_long_line asciiTables shamir longLine threeShares Hnl). lia.
Defined.

(** ** The shares [cmdGenerate] prints, read back *)

(** X5: the lines of the shares read back as the shares.  For any selection
    of the shares [cmdGenerate] handed out, in any order, [cmdRecover] over
    their lines gathers exactly those shares, in that order, reports
    nothing, and prints the text of what the engine recovers from them. *)
Theorem cmdRecover_reads_share_lines `{Tables} `{Engine} {laws : EngineLaws}
    (n k : Z) (coins : Coins) (draw : nat -> nat) (shares chosen : list Share) :
  1 <= k <= n -> n < 3037000500 ->
  distributed n k coins draw = Some shares ->
  (forall s, In s chosen -> In s shares) ->
  readShares (String.concat "" (map println (map Share_String chosen))) = (chosen, "")
  /\ cmdRecover (Some (String.concat "" (map println (map Share_String chosen))))
     = Returned {| err := None; out := println (big.Text (Recover chosen) 62); diag := "" |}.
Proof.
  intros Hk Hn Hd Hchosen.
  destruct (distributed_spec n k coins draw Hk Hn) as (shares' & Hd' & _ & _ & Hin & _).
  rewrite Hd in Hd'. injection Hd' as <-.
  destruct (genSecrets_bounds n ltac:(lia)) as (Hge & _).
  assert (Hpool : forall s, In s chosen -> In s (New (genSecrets n) k coins).1)
    by (intros s Hs; by apply Hin, Hchosen).
  destruct (recover_share_lines (genSecrets n) k coins chosen ltac:(lia) Hpool) as [Hr Hdg].
  assert (Hread : readShares (String.concat "" (map println (map Share_String chosen)))
                  = (chosen, "")).
  { unfold readShares. rewrite Scan_lines, recoverLines_spec, Hr, Hdg; [done|].
    by apply (share_lines_tidy (genSecrets n) k coins); [lia|]. }
  split; [exact Hread|].
  unfold cmdRecover. fold (readShares (String.concat "" (map println (map Share_String chosen)))).
  by rewrite Hread.
Qed.

Lemma cmdRecover_reads_share_lines_5_3 :
  1 <= 3 <= 5 /\ 5 < 3037000500
  /\ @distributed shamir 5 3 sampleCoins sampleDraw = Some sampleShares
  /\ (forall s, In s someSampleShares -> In s sampleShares)
  /\ @readShares asciiTables shamir
       (String.concat "" (map println (map (@Share_String shamir) someSampleShares)))
     = (someSampleShares, "")
  /\ @cmdRecover asciiTables shamir
       (Some (String.concat "" (map println (map (@Share_String shamir) someSampleShares))))
     = Returned {| err := None;
                   out := println (big.Text (@Recover shamir someSampleShares) 62);
                   diag := "" |}.
Proof.
  assert (Hin : forall s, In s someSampleShares -> In s sampleShares).
  { unfold someSampleShares, sampleShares. cbn [map In]. intros s Hs. tauto. }
  split; [lia|]. split; [lia|]. split; [exact sample_distributed|]. split; [exact Hin|].
  apply (@cmdRecover_reads_share_lines asciiTables shamir shamir_laws 5 3 sampleCoins sampleDraw
           sampleShares someSampleShares); [lia|lia|exact sample_distributed|exact Hin].
Defined.

Lemma NoDup_map_on {A B} (f : A -> B) (l : list A) :
  (forall a b, In a l -> In b l -> f a = f b -> a = b) ->
  List.NoDup l -> List.NoDup (map f l).
Proof.
  intros Hinj Hnd. induction Hnd as [|a l Ha _ IH]; [constructor|].
  cbn [map]. constructor.
  - intros Hfa. apply in_map_iff in Hfa as (b & Hb & Hin).
    assert (b = a) by (apply Hinj; [by right|by left|done]). by subst.
  - apply IH. intros x y Hx Hy. apply Hinj; by right.
Qed.

(** X6: no share line is printed twice.  The [n] lines [cmdGenerate] prints
    after the heading are the texts of the shares handed out, and they are
    pairwise different. *)
Theorem cmdGenerate_lines_distinct `{Engine} {laws : EngineLaws}
    (n k : Z) (coins : Coins) (draw : nat -> nat) :
  1 <= k <= n -> n < 3037000500 ->
  exists output shares,
    cmdGenerate n k coins draw = Returned {| err := None; out := output; diag := "" |}
    /\ distributed n k coins draw = Some shares
    /\ drop 2 (bufio.Scan output) = map Share_String shares
    /\ Z.of_nat (length (drop 2 (bufio.Scan output))) = n
    /\ List.NoDup (drop 2 (bufio.Scan output)).
Proof.
  intros Hk Hn.
  destruct (distributed_spec n k coins draw Hk Hn) as (shares & Hd & Hlen & Hnd & Hin & _).
  destruct (genSecrets_bounds n ltac:(lia)) as (Hge & _).
  exists (printed k (New (genSecrets n) k coins).2 shares), shares.
  split; [by rewrite cmdGenerate_valid, Hd|]. split; [done|].
  rewrite (@Scan_printed _ laws (genSecrets n) k coins shares ltac:(lia) Hin).
  change (drop 2 (?a :: ?b :: map Share_String shares)) with (map Share_String shares).
  split; [done|]. split; [by rewrite length_map|].
  apply NoDup_map_on; [|done].
  intros a b Ha Hb Heq.
  pose proof (Unmarshal_String (genSecrets n) k coins a ltac:(lia) (Hin a Ha)) as Hua.
  pose proof (Unmarshal_String (genSecrets n) k coins b ltac:(lia) (Hin b Hb)) as Hub.
  rewrite Heq, Hub in Hua. by injection Hua.
Qed.

Lemma cmdGenerate_lines_distinct_5_3 :
  1 <= 3 <= 5 /\ 5 < 3037000500
  /\ exists output shares,
       @cmdGenerate shamir 5 3 sampleCoins sampleDraw
       = Returned {| err := None; out := output; diag := "" |}
       /\ @distributed shamir 5 3 sampleCoins sampleDraw = Some shares
       /\ drop 2 (bufio.Scan output) = map (@Share_String shamir) shares
       /\ Z.of_nat (length (drop 2 (bufio.Scan output))) = 5
       /\ List.NoDup (drop 2 (bufio.Scan output)).
Proof.
  split; [lia|]. split; [lia|].
  apply (@cmdGenerate_lines_distinct shamir shamir_laws 5 3 sampleCoins sampleDraw); lia.
Defined.

(** ** The size of the pool, beyond the range of [int64] *)

(** Rounding does not take a number below a power of two it has reached. *)
Lemma round53_ge_pow2 (m v : Z) : 0 <= m -> 2 ^ m <= v -> 2 ^ m <= math.round53 v.
Proof.
  intros Hm Hv. unfold math.round53.
  destruct (Z.leb_spec (Z.log2 v - 52) 0) as [|He]; [done|].
  assert (Hpos : 0 < v) by (pose proof (Z.pow_pos_nonneg 2 m ltac:(lia) Hm); lia).
  destruct (Z.log2_spec v Hpos) as [Hlo _].
  assert (Hml : m <= Z.log2 v) by (by apply Z.log2_le_pow2).
  set (e := Z.log2 v - 52) in *.
  assert (Hsplit : 2 ^ Z.log2 v = 2 ^ 52 * 2 ^ e).
  { rewrite <- Z.pow_add_r by lia. f_equal. lia. }
  assert (Hpe : 0 < 2 ^ e) by (apply Z.pow_pos_nonneg; lia).
  assert (Hq : 2 ^ 52 <= v / 2 ^ e).
  { apply Z.div_le_lower_bound; [done|]. lia. }
  assert (Hmono : 2 ^ m <= 2 ^ Z.log2 v) by (apply Z.pow_le_mono_r; lia).
  set (q := v / 2 ^ e) in *.
  assert (2 ^ m <= q * 2 ^ e) by nia.
  destruct (_ <? _); [done|]. destruct (_ <? _); [nia|]. destruct (Z.even q); [done|nia].
Qed.

(** From [n = 3037000500] on the square is [2^63] or more: the conversion
    to [int64] is out of range, and the pool falls back to [minShares]. *)
Lemma genSecrets_overflow (n : Z) : 3037000500 <= n < 2 ^ 63 -> genSecrets n = minShares.
Proof.
  intros [Hlo Hhi]. unfold genSecrets, math.float64_of_int, math.round.
  rewrite Z.abs_eq, Z.sgn_pos, Z.mul_1_l by lia.
  assert (Hm : 3037000500 <= math.round53 n).
  { destruct (Z.lt_ge_cases n (2 ^ 53)) as [Hs|Hl].
    - by rewrite round53_small.
    - pose proof (round53_ge_pow2 53 n ltac:(lia) Hl) as Hge.
      change (2 ^ 53) with 9007199254740992 in Hge. lia. }
  set (m := math.round53 n) in *.
  rewrite Pow_2_nonneg by lia.
  assert (Hsq : 2 ^ 63 <= m * m) by (change (2 ^ 63) with 9223372036854775808; nia).
  pose proof (round53_ge_pow2 63 (m * m) ltac:(lia) Hsq) as Hbig.
  unfold math.int64_of_float.
  replace ((- 2 ^ 63 <=? math.round53 (m * m)) && (math.round53 (m * m) <? 2 ^ 63))
    with false by lia.
  reflexivity.
Qed.

(** X7: [cmdGenerate] cannot make 3037000500 shares or more.  For every
    [int] from 3037000500 on, the pool is [minShares] shares, fewer than
    asked for, and the slice expression [shares[:n]] panics: nothing is
    printed and no error is returned. *)
Theorem cmdGenerate_panics_from_3037000500 `{Engine} {laws : EngineLaws}
    (n k : Z) (coins : Coins) (draw : nat -> nat) :
  3037000500 <= n < 2 ^ 63 -> 1 <= k <= minShares ->
  genSecrets n = minShares /\ cmdGenerate n k coins draw = Panicked.
Proof.
  intros Hn Hk. pose proof (genSecrets_overflow n Hn) as Hg. split; [done|].
  apply cmdGenerate_overflow; [unfold minShares in Hk; lia|].
  rewrite Hg. unfold minShares in *. lia.
Qed.

Lemma cmdGenerate_panics_at_max_int :
  3037000500 <= 2 ^ 63 - 1 < 2 ^ 63 /\ 1 <= 3 <= minShares
  /\ genSecrets (2 ^ 63 - 1) = minShares
  /\ @cmdGenerate shamir (2 ^ 63 - 1) 3 sampleCoins sampleDraw = Panicked.
Proof.
  split; [lia|]. split; [unfold minShares; lia|].
  apply (@cmdGenerate_panics_from_3037000500 shamir shamir_laws); [lia|unfold minShares; lia].
Defined.

(** ** The command line *)

(** X9: recovery from standard input always succeeds.  Whenever the command
    line asks for recovery and names no file, [main] exits with status 0
    and writes one line to standard output, the text of what the engine
    recovers from the shares read, whatever standard input holds; the
    malformed lines only show as diagnostics on standard error. *)
Theorem main_recover_stdin `{Tables} `{Engine} (env : Env) (f : flag.Flags) :
  flag.Parse (Args env) flag.defaults = flag.Ok f ->
  flag.doRecover f = true -> flag.secrets f = "-" ->
  main env = {| status := Exit 0;
                stdout := println (big.Text (Recover (readShares (Stdin env)).1) 62);
                stderr := (readShares (Stdin env)).2;
                closed := [] |}.
Proof.
  intros Hparse Hrec Hsec. unfold main. rewrite Hparse, Hrec, Hsec.
  cbn [negb]. rewrite String.eqb_refl. unfold cmdRecover. fold (readShares (Stdin env)).
  by destruct (readShares (Stdin env)).
Qed.

Lemma main_recover_stdin_garbage :
  @flag.Parse asciiTables (Args (sampleEnv ["-recover"; "-k"; "7"] "foo" noFiles))
    flag.defaults
  = flag.Ok (flag.setK (flag.setRecover flag.defaults true) 7)
  /\ flag.doRecover (flag.setK (flag.setRecover flag.defaults true) 7) = true
  /\ flag.secrets (flag.setK (flag.setRecover flag.defaults true) 7) = "-"
  /\ @main asciiTables shamir (sampleEnv ["-recover"; "-k"; "7"] "foo" noFiles)
     = {| status := Exit 0;
          stdout := println (big.Text (@Recover shamir (@readShares asciiTables shamir "foo").1) 62);
          stderr := (@readShares asciiTables shamir "foo").2;
          closed := [] |}.
Proof.
  split; [by vm_compute|]. split; [reflexivity|]. split; [reflexivity|].
  apply (@main_recover_stdin asciiTables shamir (sampleEnv ["-recover"; "-k"; "7"] "foo" noFiles)
           (flag.setK (flag.setRecover flag.defaults true) 7)); [by vm_compute|done|done].
Defined.

(** X10: recovery from a named file never reads the file.  Whenever the
    command line asks for recovery and names a file other than [-], [main]
    prints nothing on standard output: if the file does not open it writes
    the error, without the usage text, and exits with status 1; if the file
    opens, [cmdRecover] is handed the nil reader and panics, and the
    deferred call closes the file. *)
Theorem main_recover_named_file `{Tables} `{Engine} (env : Env) (f : flag.Flags) :
  flag.Parse (Args env) flag.defaults = flag.Ok f ->
  flag.doRecover f = true -> flag.secrets f <> "-" ->
  main env
  = match Open env (flag.secrets f) with
    | inl e => {| status := Exit 1; stdout := ""; stderr := println e; closed := [] |}
    | inr _ => {| status := Crash; stdout := ""; stderr := ""; closed := [flag.secrets f] |}
    end.
Proof.
  intros Hparse Hrec Hsec. unfold main. rewrite Hparse, Hrec. cbn [negb].
  apply String.eqb_neq in Hsec. rewrite Hsec.
  destruct (Open env (flag.secrets f)) as [e|content]; [|done].
  unfold die. by rewrite append_nil_r.
Qed.

Lemma main_recover_missing_file :
  @flag.Parse asciiTables
    (Args (sampleEnv ["-recover"; "-secrets=shares.txt"] threeShares noFiles)) flag.defaults
  = flag.Ok (flag.setSecrets (flag.setRecover flag.defaults true) "shares.txt")
  /\ flag.doRecover (flag.setSecrets (flag.setRecover flag.defaults true) "shares.txt") = true
  /\ flag.secrets (flag.setSecrets (flag.setRecover flag.defaults true) "shares.txt") <> "-"
  /\ @main asciiTables shamir
       (sampleEnv ["-recover"; "-secrets=shares.txt"] threeShares noFiles)
     = match noFiles "shares.txt" with
       | inl e => {| status := Exit 1; stdout := ""; stderr := println e; closed := [] |}
       | inr _ => {| status := Crash; stdout := ""; stderr := ""; closed := ["shares.txt"] |}
       end.
Proof.
  split; [by vm_compute|]. split; [reflexivity|]. split; [discriminate|].
  apply (@main_recover_named_file asciiTables shamir
           (sampleEnv ["-recover"; "-secrets=shares.txt"] threeShares noFiles)
           (flag.setSecrets (flag.setRecover flag.defaults true) "shares.txt"));
    [by vm_compute|done|discriminate].
Defined.

Lemma Parse_word `{Tables} (w : string) (rest : list string) (f : flag.Flags) :
  strings.HasPrefix w "-" = false -> flag.Parse (w :: rest) f = flag.Ok f.
Proof.
  intros Hw. cbn [flag.Parse]. destruct w as [|d [|c1 r1]]; [done|done|].
  rewrite !chars_cons. unfold strings.HasPrefix in Hw. rewrite prefix_cons in Hw.
  destruct (ascii_dec "-" d) as [<-|Hd]; [done|].
  assert (Ascii.eqb d "-"%char = false) as -> by (apply Ascii.eqb_neq; congruence).
  reflexivity.
Qed.

(** X11: a word in front ends the parsing of the flags.  When the first
    argument does not start with a dash, [main] does what it does without
    arguments: it generates with the defaults, and the rest of the command
    line, [-recover] included, is not looked at. *)
Theorem main_word_first `{Tables} `{Engine} (env : Env) (w : string) (rest : list string) :
  Args env = w :: rest -> strings.HasPrefix w "-" = false ->
  flag.Parse (Args env) flag.defaults = flag.Ok flag.defaults
  /\ main env = main (withArgs env []).
Proof.
  intros Hargs Hw.
  assert (Hparse : flag.Parse (Args env) flag.defaults = flag.Ok flag.defaults)
    by (by rewrite Hargs, (Parse_word w rest _ Hw)).
  split; [exact Hparse|].
  unfold main. rewrite Hparse. unfold withArgs. cbn [Args EngineCoins Draw Args0].
  change (flag.Parse [] flag.defaults) with (flag.Ok flag.defaults).
  reflexivity.
Qed.

Lemma main_word_recover :
  Args (sampleEnv ["recover"; "-recover"] threeShares noFiles) = ["recover"; "-recover"]
  /\ strings.HasPrefix "recover" "-" = false
  /\ @flag.Parse asciiTables (Args (sampleEnv ["recover"; "-recover"] threeShares noFiles))
       flag.defaults
     = flag.Ok flag.defaults
  /\ @main asciiTables shamir (sampleEnv ["recover"; "-recover"] threeShares noFiles)
     = @main asciiTables shamir
         (withArgs (sampleEnv ["recover"; "-recover"] threeShares noFiles) []).
Proof.
  split; [reflexivity|]. split; [reflexivity|].
  apply (@main_word_first asciiTables shamir
           (sampleEnv ["recover"; "-recover"] threeShares noFiles) "recover" ["-recover"]);
    reflexivity.
Defined.

(** X12: a run that fails prints nothing.  Whenever [main] ends otherwise
    than with status 0, by [die], by the [flag] package or by a panic,
    nothing has been written to standard output: no secret and no share
    leaves a failed run. *)
Theorem main_failure_prints_nothing `{Tables} `{Engine} (env : Env) :
  status (main env) <> Exit 0 -> stdout (main env) = "".
Proof.
  unfold main. destruct (flag.Parse (Args env) flag.defaults) as [f| |msg]; [|done|done].
  destruct (flag.doRecover f); cbn [negb].
  - destruct (String.eqb (flag.secrets f) "-").
    + unfold cmdRecover. by destruct (recoverLines _).
    + by destruct (Open env (flag.secrets f)).
  - unfold cmdGenerate.
    destruct (flag.minShares f >? flag.numShares f); [done|].
    destruct ((flag.numShares f <? 1) || (flag.minShares f <? 1)); [done|].
    destruct (New _ _ _) as [pool secret]. by destruct (sliceTo _ _).
Qed.

Lemma main_failure_prints_nothing_0_shares :
  status (@main asciiTables shamir (sampleEnv ["-n=0"; "-k=0"] "" noFiles)) <> Exit 0
  /\ stdout (@main asciiTables shamir (sampleEnv ["-n=0"; "-k=0"] "" noFiles)) = "".
Proof.
  assert (Hs : status (@main asciiTables shamir (sampleEnv ["-n=0"; "-k=0"] "" noFiles))
               <> Exit 0) by (by vm_compute).
  split; [exact Hs|].
  exact (@main_failure_prints_nothing asciiTables shamir
           (sampleEnv ["-n=0"; "-k=0"] "" noFiles) Hs).
Defined.

(** ** Numbers on the command line *)

Lemma digit_nonzero (d : Z) : 1 <= d < 10 -> big.digit d <> "0"%char.
Proof.
  intros Hd.
  assert (d = 1 \/ d = 2 \/ d = 3 \/ d = 4 \/ d = 5 \/ d = 6 \/ d = 7 \/ d = 8 \/ d = 9)
    as Hcases by lia.
  repeat (destruct Hcases as [->|Hcases]; [discriminate|]). by subst.
Qed.

(** The decimal text of a positive number does not start with a zero. *)
Lemma natText_leading (fuel : nat) (x : Z) (acc : list ascii) :
  0 < x < 2 ^ Z.of_nat fuel ->
  exists c pre, big.natText fuel 10 x acc = c :: pre ++ acc /\ c <> "0"%char.
Proof.
  revert x acc. induction fuel as [|f IH]; intros x acc Hx.
  { change (2 ^ Z.of_nat 0) with 1 in Hx. lia. }
  simpl big.natText.
  pose proof (Z.mod_pos_bound x 10 ltac:(lia)) as Hmod.
  pose proof (Z.div_mod x 10 ltac:(lia)) as Hdm.
  destruct (Z.eqb_spec (x / 10) 0) as [Hz|Hnz].
  - exists (big.digit (x mod 10)), []. split; [done|]. apply digit_nonzero. lia.
  - assert (Hx' : 0 < x / 10 < 2 ^ Z.of_nat f).
    { rewrite Nat2Z.inj_succ, Z.pow_succ_r in Hx by lia.
      pose proof (Z.div_pos x 10 ltac:(lia) ltac:(lia)).
      split; [lia|]. apply Z.div_lt_upper_bound; lia. }
    destruct (IH (x / 10) (big.digit (x mod 10) :: acc) Hx') as (c & pre & -> & Hc).
    exists c, (pre ++ [big.digit (x mod 10)]). split; [|done].
    by rewrite <- app_assoc.
Qed.

Lemma isDigit_test (l : list ascii) :
  Forall isDigit l ->
  forallb (fun d => match strconv.digitVal d with Some _ => true | None => false end) l = true.
Proof.
  induction 1 as [|c l [d Hd] _ IH]; [done|]. cbn [forallb]. by rewrite Hd, IH.
Qed.

Lemma isDigit_not_sign (c : ascii) :
  isDigit c -> Ascii.eqb c "-"%char = false /\ Ascii.eqb c "+"%char = false.
Proof.
  intros [d Hd]. split; apply Ascii.eqb_neq; intros ->; discriminate Hd.
Qed.

(** What [strconv.Itoa] writes is a plain decimal numeral. *)
Lemma plainDecimal_Itoa (x : Z) : strconv.plainDecimal (chars (strconv.Itoa x)) = true.
Proof.
  assert (Hpos : forall p, 0 < p ->
            exists c r, chars (strconv.Itoa p) = c :: r /\ c <> "0"%char
                        /\ Forall isDigit (c :: r)).
  { intros p Hp. destruct (Itoa_nonneg p ltac:(lia)) as (_ & Hall & _).
    unfold strconv.Itoa, big.Text in *.
    replace (p <? 0) with false in * by lia.
    rewrite append_nil_l, chars_text, Z.abs_eq in * by lia.
    destruct (natText_leading (big.fuelFor p) p []) as (c & pre & Heq & Hc).
    { split; [done|]. apply fuelFor_enough. lia. }
    rewrite Heq in *. by exists c, (pre ++ []). }
  assert (Hbody : forall c r, c <> "0"%char -> Forall isDigit (c :: r) ->
            forallb (fun d => match strconv.digitVal d with Some _ => true | None => false end)
              (c :: r)
            && (negb (Ascii.eqb c "0"%char) || match r with [] => true | _ => false end) = true).
  { intros c r Hc Hall. rewrite (isDigit_test _ Hall).
    apply Ascii.eqb_neq in Hc. by rewrite Hc. }
  unfold strconv.plainDecimal.
  destruct (Z.lt_trichotomy x 0) as [Hneg|[->|Hgt]].
  - destruct (Hpos (- x) ltac:(lia)) as (c & r & Heq & Hc & Hall).
    assert (Hs : chars (strconv.Itoa x) = "-"%char :: chars (strconv.Itoa (- x))).
    { unfold strconv.Itoa, big.Text. rewrite Z.abs_opp.
      replace (x <? 0) with true by lia. replace (- x <? 0) with false by lia.
      by rewrite append_nil_l. }
    rewrite Hs, Heq. cbn [Ascii.eqb Bool.eqb orb andb]. by apply Hbody.
  - reflexivity.
  - destruct (Hpos x Hgt) as (c & r & -> & Hc & Hall).
    inversion Hall as [|? ? Hd _]; subst. destruct (isDigit_not_sign c Hd) as [-> ->].
    cbn [orb]. by apply Hbody.
Qed.

(** The numeral [strconv.Itoa] writes for an [int64] is read back by
    [strconv.ParseInt]. *)
Lemma ParseInt_Itoa `{Tables} (x : Z) :
  - 2 ^ 63 <= x < 2 ^ 63 -> strconv.ParseInt parseOther (strconv.Itoa x) = inr x.
Proof.
  intros Hx. unfold strconv.ParseInt. rewrite plainDecimal_Itoa.
  destruct (Itoa_signed x) as (_ & _ & ->).
  by replace ((- 2 ^ 63 <=? x) && (x <? 2 ^ 63)) with true by lia.
Qed.

Lemma Parse_n `{Tables} (v : string) (rest : list string) (f : flag.Flags) :
  flag.Parse ("-n" :: v :: rest) f
  = match flag.setInt "n" v (flag.setN f) with
    | inl f' => flag.Parse rest f'
    | inr e => flag.Failed e
    end.
Proof. reflexivity. Qed.

Lemma Parse_k `{Tables} (v : string) (rest : list string) (f : flag.Flags) :
  flag.Parse ("-k" :: v :: rest) f
  = match flag.setInt "k" v (flag.setK f) with
    | inl f' => flag.Parse rest f'
    | inr e => flag.Failed e
    end.
Proof. reflexivity. Qed.

(** X13: the numbers after [-n] and [-k] reach [cmdGenerate].  For every two
    [int64] written in decimal, negative ones included, [main] calls
    [cmdGenerate] with those numbers: it prints what [cmdGenerate] writes
    and exits with status 0, or, when [cmdGenerate] returns an error,
    writes the error and the usage text and exits with status 1. *)
Theorem main_generate_n_k `{Tables} `{Engine} (env : Env) (n k : Z) :
  Args env = ["-n"; strconv.Itoa n; "-k"; strconv.Itoa k] ->
  - 2 ^ 63 <= n < 2 ^ 63 -> - 2 ^ 63 <= k < 2 ^ 63 ->
  flag.Parse (Args env) flag.defaults = flag.Ok (flag.setK (flag.setN flag.defaults n) k)
  /\ forall r,
       cmdGenerate n k (EngineCoins env) (Draw env) = Returned r ->
       main env
       = match err r with
         | Some e => die env (out r) "" e true
         | None => {| status := Exit 0; stdout := out r; stderr := ""; closed := [] |}
         end.
Proof.
  intros Hargs Hn Hk.
  assert (Hparse : flag.Parse (Args env) flag.defaults
                   = flag.Ok (flag.setK (flag.setN flag.defaults n) k)).
  { rewrite Hargs, Parse_n. unfold flag.setInt at 1. rewrite (ParseInt_Itoa n Hn).
    rewrite Parse_k. unfold flag.setInt at 1. by rewrite (ParseInt_Itoa k Hk). }
  split; [exact Hparse|].
  intros r Hgen. unfold main. rewrite Hparse. unfold flag.setK, flag.setN, flag.defaults.
  cbn [flag.doRecover flag.numShares flag.minShares negb]. by rewrite Hgen.
Qed.

Lemma main_generate_negative :
  Args (sampleEnv ["-n"; strconv.Itoa (- 1); "-k"; strconv.Itoa (- 10)] "" noFiles)
  = ["-n"; strconv.Itoa (- 1); "-k"; strconv.Itoa (- 10)]
  /\ - 2 ^ 63 <= - 1 < 2 ^ 63 /\ - 2 ^ 63 <= - 10 < 2 ^ 63
  /\ @flag.Parse asciiTables
       (Args (sampleEnv ["-n"; strconv.Itoa (- 1); "-k"; strconv.Itoa (- 10)] "" noFiles))
       flag.defaults
     = flag.Ok (flag.setK (flag.setN flag.defaults (- 1)) (- 10))
  /\ forall r,
       @cmdGenerate shamir (- 1) (- 10) sampleCoins sampleDraw = Returned r ->
       @main asciiTables shamir
         (sampleEnv ["-n"; strconv.Itoa (- 1); "-k"; strconv.Itoa (- 10)] "" noFiles)
       = match err r with
         | Some e =>
           @die shamir
             (sampleEnv ["-n"; strconv.Itoa (- 1); "-k"; strconv.Itoa (- 10)] "" noFiles)
             (out r) "" e true
         | None => {| status := Exit 0; stdout := out r; stderr := ""; closed := [] |}
         end.
Proof.
  split; [reflexivity|]. split; [lia|]. split; [lia|].
  apply (@main_generate_n_k asciiTables shamir
           (sampleEnv ["-n"; strconv.Itoa (- 1); "-k"; strconv.Itoa (- 10)] "" noFiles)
           (- 1) (- 10)); [reflexivity|lia|lia].
Defined.

(** ** The earlier revisions *)

(** X14: the earlier [main] selects the mode by a string.  A mode other than
    [generate] and [recover] is an error: [main] writes [invalid mode],
    the mode quoted, an empty line and the usage text to standard error,
    nothing to standard output, and exits with status 1. *)
Theorem earlier_main_invalid_mode `{Tables} `{Engine} (env : Env) (f : part_000.Flags) :
  part_000.Parse (Args env) part_000.defaults = part_000.Ok f ->
  part_000.mode f <> "generate" -> part_000.mode f <> "recover" ->
  part_000.main env
  = {| status := Exit 1; stdout := "";
       stderr := println ("invalid mode " +:+ strconv.Quote quoteOther (part_000.mode f))
                 +:+ newline +:+ "Usage of " +:+ Args0 env +:+ ":" +:+ newline
                 +:+ part_000.PrintDefaults;
       closed := [] |}.
Proof.
  intros Hparse Hg Hr. unfold part_000.main. rewrite Hparse.
  apply String.eqb_neq in Hg, Hr. by rewrite Hg, Hr.
Qed.

Lemma earlier_main_invalid_mode_bogus :
  @part_000.Parse asciiTables (Args (sampleEnv ["-mode"; "bogus"] "" noFiles)) part_000.defaults
  = part_000.Ok (part_000.setMode part_000.defaults "bogus")
  /\ part_000.mode (part_000.setMode part_000.defaults "bogus") <> "generate"
  /\ part_000.mode (part_000.setMode part_000.defaults "bogus") <> "recover"
  /\ @part_000.main asciiTables shamir (sampleEnv ["-mode"; "bogus"] "" noFiles)
     = {| status := Exit 1; stdout := "";
          stderr := println ("invalid mode "
                             +:+ strconv.Quote (@quoteOther asciiTables)
                                   (part_000.mode (part_000.setMode part_000.defaults "bogus")))
                    +:+ newline +:+ "Usage of "
                    +:+ Args0 (sampleEnv ["-mode"; "bogus"] "" noFiles) +:+ ":" +:+ newline
                    +:+ part_000.PrintDefaults;
          closed := [] |}.
Proof.
  split; [reflexivity|]. split; [discriminate|]. split; [discriminate|].
  apply (@earlier_main_invalid_mode asciiTables shamir (sampleEnv ["-mode"; "bogus"] "" noFiles)
           (part_000.setMode part_000.defaults "bogus")); [reflexivity|discriminate|discriminate].
Defined.

(** X15: the earlier [main] reads the file it is given.  In mode [recover]
    with a file name other than [-] and a file that opens, [cmdRecover]
    runs over what the file holds: [main] prints the secret recovered from
    its shares, writes its diagnostics to standard error, exits with status
    0, and the deferred call closes the file. *)
Theorem earlier_main_recover_file `{Tables} `{Engine} (env : Env) (f : part_000.Flags)
    (content : string) :
  part_000.Parse (Args env) part_000.defaults = part_000.Ok f ->
  part_000.mode f = "recover" -> part_000.secrets f <> "-" ->
  Open env (part_000.secrets f) = inr content ->
  part_000.main env
  = {| status := Exit 0;
       stdout := println (big.Text (Recover (readShares content).1) 62);
       stderr := (readShares content).2;
       closed := [part_000.secrets f] |}.
Proof.
  intros Hparse Hmode Hsec Hopen. unfold part_000.main. rewrite Hparse, Hmode.
  apply String.eqb_neq in Hsec. rewrite Hsec, Hopen.
  change (String.eqb "recover" "generate") with false.
  change (String.eqb "recover" "recover") with true. cbv beta iota.
  unfold cmdRecover. fold (readShares content). by destruct (readShares content).
Qed.

Lemma earlier_main_recover_file_shares :
  @part_000.Parse asciiTables
    (Args (sampleEnv ["-mode"; "recover"; "-secrets"; "shares.txt"] ""
             (fun name => if String.eqb name "shares.txt" then inr threeShares
                          else noFiles name)))
    part_000.defaults
  = part_000.Ok (part_000.setSecrets (part_000.setMode part_000.defaults "recover") "shares.txt")
  /\ part_000.mode
       (part_000.setSecrets (part_000.setMode part_000.defaults "recover") "shares.txt")
     = "recover"
  /\ part_000.secrets
       (part_000.setSecrets (part_000.setMode part_000.defaults "recover") "shares.txt")
     <> "-"
  /\ Open (sampleEnv ["-mode"; "recover"; "-secrets"; "shares.txt"] ""
             (fun name => if String.eqb name "shares.txt" then inr threeShares
                          else noFiles name))
       (part_000.secrets
          (part_000.setSecrets (part_000.setMode part_000.defaults "recover") "shares.txt"))
     = inr threeShares
  /\ @part_000.main asciiTables shamir
       (sampleEnv ["-mode"; "recover"; "-secrets"; "shares.txt"] ""
          (fun name => if String.eqb name "shares.txt" then inr threeShares
                       else noFiles name))
     = {| status := Exit 0;
          stdout := println (big.Text
                               (@Recover shamir (@readShares asciiTables shamir threeShares).1)
                               62);
          stderr := (@readShares asciiTables shamir threeShares).2;
          closed := [part_000.secrets
                       (part_000.setSecrets (part_000.setMode part_000.defaults "recover")
                          "shares.txt")] |}.
Proof.
  split; [reflexivity|]. split; [reflexivity|]. split; [discriminate|]. split; [reflexivity|].
  apply (@earlier_main_recover_file asciiTables shamir
           (sampleEnv ["-mode"; "recover"; "-secrets"; "shares.txt"] ""
              (fun name => if String.eqb name "shares.txt" then inr threeShares
                           else noFiles name))
           (part_000.setSecrets (part_000.setMode part_000.defaults "recover") "shares.txt")
           threeShares); [reflexivity|reflexivity|discriminate|reflexivity].
Defined.

Section EarlierRecover.
Context `{Tables} `{Engine}.

(** The loop of the earlier [cmdRecover] stops at the first line that is
    neither blank nor a share. *)
Lemma earlier_recoverLines_stop (good : list string) (bad : string) (rest : list string)
    (e : string) (secrets : list Share) :
  Forall (fun t => strings.TrimSpace t = "" \/ exists s, Share_UnmarshalText t = inr s) good ->
  strings.TrimSpace bad <> "" -> Share_UnmarshalText bad = inl e ->
  part_001.recoverLines (good ++ bad :: rest) secrets
  = inl ("reading share " +:+ strconv.Quote quoteOther bad +:+ ": " +:+ e).
Proof.
  intros Hgood Hbad He. revert secrets.
  induction Hgood as [|t good Ht _ IH]; intros secrets; cbn [app part_001.recoverLines].
  - apply String.eqb_neq in Hbad. by rewrite Hbad, He.
  - destruct (String.eqb_spec (strings.TrimSpace t) "") as [_|Hne]; [apply IH|].
    destruct Ht as [Ht|[s Hs]]; [done|]. rewrite Hs. apply IH.
Qed.

(** On plain lines the two loops gather the same shares. *)
Lemma earlier_recoverLines_agree (lines : list string) (secrets result : list Share)
    (d : string) :
  forallb plainLine lines = true ->
  part_001.recoverLines lines secrets = inr result ->
  fold_left recoverLine lines (secrets, d) = (result, d).
Proof.
  revert secrets. induction lines as [|t lines IH]; intros secrets Hplain Hrec.
  - cbn in *. by injection Hrec as ->.
  - cbn [forallb] in Hplain. apply andb_true_iff in Hplain as [Ht Hplain].
    cbn [part_001.recoverLines] in Hrec. cbn [fold_left]. unfold recoverLine at 2.
    unfold plainLine in Ht.
    destruct (String.eqb_spec (strings.TrimSpace t) "") as [Hblank|Hne].
    + rewrite Hblank. change (decoration "") with true. cbv iota. by apply IH.
    + cbn [orb] in Ht. apply andb_true_iff in Ht as [Heq Hdec].
      apply String.eqb_eq in Heq. apply negb_true_iff in Hdec.
      rewrite Heq, Hdec.
      destruct (Share_UnmarshalText t) as [e|s]; [done|]. by apply IH.
Qed.

End EarlierRecover.

(** X16: the earlier [cmdRecover] fails fast.  At the first line that is
    neither blank nor a share it returns an error that names the line as it
    stands and the cause, and writes nothing: the shares before it and the
    lines after it are lost. *)
Theorem earlier_cmdRecover_fails_fast `{Tables} `{Engine}
    (input : string) (good : list string) (bad : string) (rest : list string) (e : string) :
  bufio.Scan input = good ++ bad :: rest ->
  Forall (fun t => strings.TrimSpace t = "" \/ exists s, Share_UnmarshalText t = inr s) good ->
  strings.TrimSpace bad <> "" -> Share_UnmarshalText bad = inl e ->
  part_001.cmdRecover (Some input)
  = Returned {| err := Some ("reading share " +:+ strconv.Quote quoteOther bad +:+ ": " +:+ e);
                out := ""; diag := "" |}.
Proof.
  intros Hscan Hgood Hbad He. unfold part_001.cmdRecover.
  by rewrite Hscan, (earlier_recoverLines_stop good bad rest e [] Hgood Hbad He).
Qed.

Lemma earlier_cmdRecover_fails_fast_garbage :
  bufio.Scan sharesWithGarbage
  = [] ++ "foo" :: ["bar"; "1,19943338053965968504353533017903769217";
                    "2,161872477868088873785792630750634181303"; "";
                    "5,160274174127002500413544256698187925606"; "this is some random junk"]
  /\ Forall (fun t => strings.TrimSpace t = ""
                      \/ exists s, @Share_UnmarshalText shamir t = inr s) []
  /\ strings.TrimSpace "foo" <> ""
  /\ @Share_UnmarshalText shamir "foo" = inl "expected two parts"
  /\ @part_001.cmdRecover asciiTables shamir (Some sharesWithGarbage)
     = Returned {| err := Some ("reading share " +:+ strconv.Quote (@quoteOther asciiTables) "foo"
                                +:+ ": " +:+ "expected two parts");
                   out := ""; diag := "" |}.
Proof.
  split; [by vm_compute|]. split; [constructor|]. split; [by vm_compute|].
  split; [reflexivity|].
  apply (@earlier_cmdRecover_fails_fast asciiTables shamir sharesWithGarbage [] "foo"
           ["bar"; "1,19943338053965968504353533017903769217";
            "2,161872477868088873785792630750634181303"; "";
            "5,160274174127002500413544256698187925606"; "this is some random junk"]
           "expected two parts"); [by vm_compute|constructor|by vm_compute|reflexivity].
Defined.

(** X17: the earlier [main] loses the error of [cmdRecover].  In mode
    [recover] on standard input, when a line is neither blank nor a share,
    [main] writes nothing at all, neither a secret nor the error, and exits
    with status 0: the error is assigned to a variable of the case, and the
    test after the switch looks at another. *)
Theorem earlier_main_loses_error `{Tables} `{Engine} (env : Env) (f : part_000.Flags)
    (good : list string) (bad : string) (rest : list string) (e : string) :
  part_000.Parse (Args env) part_000.defaults = part_000.Ok f ->
  part_000.mode f = "recover" -> part_000.secrets f = "-" ->
  bufio.Scan (Stdin env) = good ++ bad :: rest ->
  Forall (fun t => strings.TrimSpace t = "" \/ exists s, Share_UnmarshalText t = inr s) good ->
  strings.TrimSpace bad <> "" -> Share_UnmarshalText bad = inl e ->
  errorOf (part_001.cmdRecover (Some (Stdin env)))
  = Some ("reading share " +:+ strconv.Quote quoteOther bad +:+ ": " +:+ e)
  /\ part_001.main env = {| status := Exit 0; stdout := ""; stderr := ""; closed := [] |}.
Proof.
  intros Hparse Hmode Hsec Hscan Hgood Hbad He.
  assert (Hrec : part_001.cmdRecover (Some (Stdin env))
                 = Returned {| err := Some ("reading share " +:+ strconv.Quote quoteOther bad
                                            +:+ ": " +:+ e);
                               out := ""; diag := "" |}).
  { unfold part_001.cmdRecover.
    by rewrite Hscan, (earlier_recoverLines_stop good bad rest e [] Hgood Hbad He). }
  split; [by rewrite Hrec|].
  unfold part_001.main. rewrite Hparse, Hmode, Hsec.
  change (String.eqb "recover" "generate") with false.
  change (String.eqb "recover" "recover") with true.
  change (String.eqb "-" "-") with true. cbv beta iota.
  by rewrite Hrec.
Qed.

Lemma earlier_main_loses_error_foo :
  @part_000.Parse asciiTables (Args (sampleEnv ["-mode=recover"] "foo" noFiles))
    part_000.defaults
  = part_000.Ok (part_000.setMode part_000.defaults "recover")
  /\ part_000.mode (part_000.setMode part_000.defaults "recover") = "recover"
  /\ part_000.secrets (part_000.setMode part_000.defaults "recover") = "-"
  /\ bufio.Scan (Stdin (sampleEnv ["-mode=recover"] "foo" noFiles)) = [] ++ "foo" :: []
  /\ Forall (fun t => strings.TrimSpace t = ""
                      \/ exists s, @Share_UnmarshalText shamir t = inr s) []
  /\ strings.TrimSpace "foo" <> ""
  /\ @Share_UnmarshalText shamir "foo" = inl "expected two parts"
  /\ errorOf (@part_001.cmdRecover asciiTables shamir
                (Some (Stdin (sampleEnv ["-mode=recover"] "foo" noFiles))))
     = Some ("reading share " +:+ strconv.Quote (@quoteOther asciiTables) "foo"
             +:+ ": " +:+ "expected two parts")
  /\ @part_001.main asciiTables shamir (sampleEnv ["-mode=recover"] "foo" noFiles)
     = {| status := Exit 0; stdout := ""; stderr := ""; closed := [] |}.
Proof.
  split; [reflexivity|]. split; [reflexivity|]. split; [reflexivity|].
  split; [by vm_compute|]. split; [constructor|]. split; [by vm_compute|].
  split; [reflexivity|].
  apply (@earlier_main_loses_error asciiTables shamir (sampleEnv ["-mode=recover"] "foo" noFiles)
           (part_000.setMode part_000.defaults "recover") [] "foo" [] "expected two parts");
    [reflexivity|reflexivity|reflexivity|by vm_compute|constructor|by vm_compute|reflexivity].
Defined.

(** X18: the revisions of [cmdRecover] agree on plain input.  When every
    line the scanner yields is blank, or has no white space around it and
    is not a heading, and the earlier [cmdRecover] returns no error, the
    [cmdRecover] of [secret.go] returns the same: the same line on its
    output and no diagnostic. *)
Theorem cmdRecover_agrees_with_earlier `{Tables} `{Engine} (input : string) (r : Result) :
  forallb plainLine (bufio.Scan input) = true ->
  part_001.cmdRecover (Some input) = Returned r -> err r = None ->
  cmdRecover (Some input) = Returned r.
Proof.
  intros Hplain Hearlier Herr. unfold part_001.cmdRecover in Hearlier.
  destruct (part_001.recoverLines (bufio.Scan input) []) as [e|result] eqn:Hrec.
  - injection Hearlier as <-. discriminate Herr.
  - injection Hearlier as <-. unfold cmdRecover, recoverLines.
    by rewrite (earlier_recoverLines_agree _ [] result "" Hplain Hrec).
Qed.

Lemma cmdRecover_agrees_with_earlier_shares :
  forallb plainLine (bufio.Scan threeShares) = true
  /\ @part_001.cmdRecover asciiTables shamir (Some threeShares)
     = Returned {| err := None; out := println "7uPIBqGKMPpProBYFFR3S"; diag := "" |}
  /\ err {| err := None; out := println "7uPIBqGKMPpProBYFFR3S"; diag := "" |} = None
  /\ @cmdRecover asciiTables shamir (Some threeShares)
     = Returned {| err := None; out := println "7uPIBqGKMPpProBYFFR3S"; diag := "" |}.
Proof.
  split; [by vm_compute|]. split; [by vm_compute|]. split; [reflexivity|].
  apply (@cmdRecover_agrees_with_earlier asciiTables shamir threeShares
           {| err := None; out := println "7uPIBqGKMPpProBYFFR3S"; diag := "" |});
    [by vm_compute|by vm_compute|reflexivity].
Defined.

(** ** The order of the shares in the earlier revision *)

(** X19: the earlier [cmdGenerate] prints the shares in the order of their
    indices.  For valid [(n, k)] its output is the secret line, the line
    [shares:] and [n] share lines, and the share on line [i] of them is the
    one with index [i]: what the repository's test [TestGenerate] looks
    for. *)
Theorem earlier_cmdGenerate_in_order `{Engine} {laws : EngineLaws}
    (n k : Z) (coins : Coins) :
  1 <= k <= n -> n < 2 ^ 63 ->
  exists output shares,
    part_001.cmdGenerate n k coins = Returned {| err := None; out := output; diag := "" |}
    /\ bufio.Scan output
       = ("secret: " +:+ big.Text (New n k coins).2 62) :: "shares:" :: map Share_String shares
    /\ map Share_X shares = map Z.of_nat (seq 1 (Z.to_nat n)).
Proof.
  intros Hk Hn.
  exists (println ("secret: " +:+ big.Text (New n k coins).2 62)
          +:+ println "shares:"
          +:+ String.concat "" (map (fun share => println (Share_String share)) (New n k coins).1)),
    (New n k coins).1.
  split; [|split].
  - unfold part_001.cmdGenerate.
    replace (k >? n) with false by lia.
    replace ((n <? 1) || (k <? 1)) with false by lia.
    by destruct (New n k coins).
  - fold (secretLine (New n k coins).2).
    rewrite (Scan_println _ _ (secretLine_tidy _)) by (apply Secret_short; lia).
    rewrite (Scan_println "shares:").
    + rewrite <- (map_map Share_String println), Scan_lines; [done|].
      by apply (share_lines_tidy n k coins).
    + apply tidy_visible; [done|]. repeat constructor.
    + by vm_compute.
  - by apply New_X.
Qed.

Lemma earlier_cmdGenerate_in_order_5_3 :
  1 <= 3 <= 5 /\ 5 < 2 ^ 63
  /\ exists output shares,
       @part_001.cmdGenerate shamir 5 3 sampleCoins
       = Returned {| err := None; out := output; diag := "" |}
       /\ bufio.Scan output
          = ("secret: " +:+ big.Text (@New shamir 5 3 sampleCoins).2 62) :: "shares:"
            :: map (@Share_String shamir) shares
       /\ map (@Share_X shamir) shares = map Z.of_nat (seq 1 (Z.to_nat 5)).
Proof.
  split; [lia|]. split; [lia|].
  apply (@earlier_cmdGenerate_in_order shamir shamir_laws 5 3 sampleCoins); lia.
Defined.

(** ** The text of the secret *)

Lemma digitValue_digit (d : Z) : 0 <= d < 62 -> digitValue (big.digit d) = d.
Proof.
  intros Hd.
  assert (Hall : forallb (fun i => digitValue (big.digit (Z.of_nat i)) =? Z.of_nat i)
                   (seq 0 62) = true) by (by vm_compute).
  pose proof (proj1 (forallb_forall _ _) Hall (Z.to_nat d)) as Hi.
  specialize (Hi ltac:(apply in_seq; lia)). cbv beta in Hi.
  rewrite Z2Nat.id in Hi by lia. by apply Z.eqb_eq.
Qed.

Lemma digit_not_minus (d : Z) : big.digit d <> "-"%char.
Proof.
  unfold big.digit.
  destruct (nth_in_or_default (Z.to_nat d) big.digits "0"%char) as [Hin| ->]; [|discriminate].
  assert (Hall : Forall (fun c => c <> "-"%char) big.digits)
    by (unfold big.digits; repeat constructor; discriminate).
  by apply (proj1 (List.Forall_forall _ _) Hall).
Qed.

Lemma numeral_app (base a : Z) (p q : list ascii) :
  numeral base a (p ++ q) = numeral base (numeral base a p) q.
Proof. revert a. induction p as [|c p IH]; intros a; [done|]. apply IH. Qed.

(** With enough fuel the digits written for [x] in a base stand for [x]. *)
Lemma natText_numeral (fuel : nat) (base x : Z) (acc : list ascii) :
  2 <= base <= 62 -> 0 <= x < 2 ^ Z.of_nat fuel -> fuel <> 0%nat ->
  exists c pre, big.natText fuel base x acc = c :: pre ++ acc
                /\ c <> "-"%char
                /\ forall a, numeral base a (c :: pre)
                             = a * base ^ Z.of_nat (length (c :: pre)) + x.
Proof.
  intros Hbase. revert x acc. induction fuel as [|f IH]; intros x acc Hx Hf; [done|].
  simpl big.natText.
  pose proof (Z.mod_pos_bound x base ltac:(lia)) as Hmod.
  pose proof (Z.div_mod x base ltac:(lia)) as Hdm.
  pose proof (digitValue_digit (x mod base) ltac:(lia)) as Hdig.
  destruct (Z.eqb_spec (x / base) 0) as [Hz|Hnz].
  - exists (big.digit (x mod base)), []. split; [done|]. split; [apply digit_not_minus|].
    intros a. cbn [numeral length]. rewrite Hdig. change (Z.of_nat 1) with 1. lia.
  - assert (Hx' : 0 <= x / base < 2 ^ Z.of_nat f).
    { rewrite Nat2Z.inj_succ, Z.pow_succ_r in Hx by lia.
      split; [apply Z.div_pos; lia|].
      apply Z.div_lt_upper_bound; [lia|]. nia. }
    assert (Hf' : f <> 0%nat).
    { intros ->. change (2 ^ Z.of_nat 0) with 1 in Hx'. lia. }
    destruct (IH (x / base) (big.digit (x mod base) :: acc) Hx' Hf')
      as (c & pre & -> & Hc & Hval).
    exists c, (pre ++ [big.digit (x mod base)]). split; [by rewrite <- app_assoc|].
    split; [done|]. intros a.
    change (c :: pre ++ [big.digit (x mod base)]) with ((c :: pre) ++ [big.digit (x mod base)]).
    rewrite numeral_app, Hval. cbn [numeral]. rewrite Hdig.
    rewrite length_app, Nat2Z.inj_add, Z.pow_add_r by lia. cbn [length].
    change (base ^ Z.of_nat 1) with (base ^ 1). rewrite Z.pow_1_r. lia.
Qed.

(** The text [big.Int.Text] writes stands for the number it was given. *)
Lemma numberOf_Text (base x : Z) : 2 <= base <= 62 -> numberOf base (big.Text x base) = x.
Proof.
  intros Hbase. unfold numberOf, big.Text.
  destruct (natText_numeral (big.fuelFor (Z.abs x)) base (Z.abs x) [] Hbase)
    as (c & pre & Heq & Hc & Hval); [apply fuelFor_enough; lia|done|].
  rewrite chars_app, chars_text, Heq, app_nil_r.
  destruct (Z.ltb_spec x 0) as [Hneg|Hpos].
  - cbn [chars list_ascii_of_string app Ascii.eqb Bool.eqb].
    rewrite Hval. lia.
  - cbn [chars list_ascii_of_string app].
    apply Ascii.eqb_neq in Hc. rewrite Hc, Hval. lia.
Qed.

(** X21: the line [cmdRecover] prints identifies the number recovered.  The
    base-62 text is read back to its number, so two numbers have the same
    text only if they are equal: [cmdRecover] prints the text of a given
    secret exactly when the engine recovered that secret from the shares
    read. *)
Theorem cmdRecover_output_identifies_secret `{Tables} `{Engine} (input : string) (secret : Z) :
  numberOf 62 (big.Text secret 62) = secret
  /\ ((exists d, cmdRecover (Some input)
                 = Returned {| err := None; out := println (big.Text secret 62); diag := d |})
      <-> Recover (readShares input).1 = secret).
Proof.
  split; [apply numberOf_Text; lia|].
  unfold cmdRecover. fold (readShares input).
  destruct (readShares input) as [secrets d]. cbn [fst]. split.
  - intros [d' Heq]. injection Heq as Hout _.
    assert (Htext : big.Text (Recover secrets) 62 = big.Text secret 62).
    { unfold println in Hout.
      apply (f_equal chars) in Hout. rewrite !chars_app in Hout.
      apply app_inv_tail in Hout. by rewrite <- (text_chars (big.Text _ _)), Hout, text_chars. }
    rewrite <- (numberOf_Text 62 (Recover secrets)) by lia.
    rewrite Htext. apply numberOf_Text. lia.
  - intros ->. by exists d.
Qed.
